(** * pybgapi: the BGAPI codec, the command facade and the robust framer

    A shallow embedding of [bgapi/serdeser.py], [bgapi/apiparser.py],
    [bgapi/bglib.py] and [bgapi/robustconnector.py].

    Conventions of the embedding:
    - a Python [int] is a [Z]; a [bytes] or [bytearray] object is a list of
      [Z], each element in [0, 255] (see [is_byte]);
    - a Python [str] is a [string]; only code points below 256 are
      representable, which is what [encode("latin-1")] accepts;
    - a Python [dict] is a [gmap]; a dict holding both [str] and [int]
      keys is a [gmap pykey _];
    - a call that may raise returns a [result]: [Ok v] or [Raise e];
    - the logger is modelled by the list of warnings a call emits. *)

From stdpp Require Import base gmap strings list.
From Stdlib Require Import ZArith Lia Ascii.

Local Open Scope string_scope.
Local Open Scope list_scope.
Local Open Scope Z_scope.

(** ** Exceptions and results *)

Inductive exn : Type :=
| KeyError
| TypeError
| NameError
| AttributeError
| ValueError
| IndexError
| StructError                                   (* struct.error *)
| BinasciiError                                 (* binascii.Error *)
| DeserializerApiMissingError (device_id : Z)
| DeserializerEventMissingError (class_id event_id : Z)
| ConnectorException.

Inductive result (A : Type) : Type :=
| Ok (a : A)
| Raise (e : exn).
Arguments Ok {A} a.
Arguments Raise {A} e.

Definition rbind {A B : Type} (r : result A) (k : A -> result B) : result B :=
  match r with
  | Ok a => k a
  | Raise e => Raise e
  end.

Notation "'do' x <- r ; k" := (rbind r (fun x => k))
  (at level 10, x name, r at level 100, k at level 200).
Notation "'do' ' p <- r ; k" := (rbind r (fun x => let 'p := x in k))
  (at level 10, p pattern, r at level 100, k at level 200).

(** [d[k]] on a dict. *)
Definition getitem `{Countable K} {V : Type} (d : gmap K V) (k : K) : result V :=
  match d !! k with
  | Some v => Ok v
  | None => Raise KeyError
  end.

(** [for x in xs: ...] where the body may raise: the first exception ends
    the loop. *)
Fixpoint mapM {A B : Type} (f : A -> result B) (xs : list A) : result (list B) :=
  match xs with
  | [] => Ok []
  | x :: xs' => do y <- f x; do ys <- mapM f xs'; Ok (y :: ys)
  end.

(** ** Python values *)

Inductive pyval : Type :=
| PInt (z : Z)
| PStr (s : string)
| PBytes (bs : list Z)
| PNone.

Inductive pykey : Type :=
| KStr (s : string)
| KInt (z : Z).

Global Instance pykey_eq_dec : EqDecision pykey.
Proof. solve_decision. Defined.

Global Instance pykey_countable : Countable pykey.
Proof.
  refine (inj_countable'
            (fun k => match k with KStr s => inl s | KInt z => inr z end)
            (fun x => match x with inl s => KStr s | inr z => KInt z end) _).
  intros []; reflexivity.
Defined.

Definition is_byte (b : Z) : Prop := 0 <= b <= 255.

Definition is_byteb (b : Z) : bool := (0 <=? b) && (b <=? 255).

(** Code points of a string, and back. *)
Definition code_of (c : ascii) : Z := Z.of_N (N_of_ascii c).
Definition char_of (z : Z) : ascii := ascii_of_N (Z.to_N z).

Fixpoint codes (s : string) : list Z :=
  match s with
  | EmptyString => []
  | String c s' => code_of c :: codes s'
  end.

Fixpoint chars (bs : list Z) : string :=
  match bs with
  | [] => EmptyString
  | b :: bs' => String (char_of b) (chars bs')
  end.

(** ** The [struct] module, for the format characters the codec uses

    A format string is kept as the list of its items. Every format the
    codec builds is used with the [<] prefix (standard sizes, no padding);
    the native sizes [struct.calcsize] reports for a single item without
    the prefix are the same for these characters. *)

Inductive code : Type :=
| Cb | CB | Ch | CH | Ci | CI | Cq | CQ     (* integers *)
| Cs (n : Z)                                 (* ["%ds" % n] *)
| Cx.                                        (* pad byte *)

Definition code_size (c : code) : result nat :=
  match c with
  | Cb | CB | Cx => Ok 1%nat
  | Ch | CH => Ok 2%nat
  | Ci | CI => Ok 4%nat
  | Cq | CQ => Ok 8%nat
  | Cs n => if 0 <=? n then Ok (Z.to_nat n) else Raise StructError
  end.

Fixpoint calcsize (fmt : list code) : result nat :=
  match fmt with
  | [] => Ok 0%nat
  | c :: fmt' => do n <- code_size c; do m <- calcsize fmt'; Ok (n + m)%nat
  end.

Definition code_signed (c : code) : bool :=
  match c with
  | Cb | Ch | Ci | Cq => true
  | _ => false
  end.

(** Little-endian bytes of a non-negative integer, and back. *)
Fixpoint le_bytes (n : nat) (z : Z) : list Z :=
  match n with
  | O => []
  | S n' => z mod 256 :: le_bytes n' (z / 256)
  end.

Fixpoint le_value (bs : list Z) : Z :=
  match bs with
  | [] => 0
  | b :: bs' => b + 256 * le_value bs'
  end.

Definition int_modulus (n : nat) : Z := 2 ^ (8 * Z.of_nat n).

Definition pack_int (signed : bool) (n : nat) (v : pyval) : result (list Z) :=
  match v with
  | PInt z =>
      let m := int_modulus n in
      if signed then
        if (- (m / 2) <=? z) && (z <? m / 2)
        then Ok (le_bytes n (z mod m)) else Raise StructError
      else
        if (0 <=? z) && (z <? m)
        then Ok (le_bytes n z) else Raise StructError
  | _ => Raise StructError
  end.

(** ["Ns"]: the bytes are cut or padded with zero bytes to [N]. *)
Definition pack_s (n : Z) (v : pyval) : result (list Z) :=
  match v with
  | PBytes bs =>
      if 0 <=? n
      then Ok (take (Z.to_nat n) (bs ++ replicate (Z.to_nat n) 0))
      else Raise StructError
  | _ => Raise StructError
  end.

Definition pack_one (c : code) (v : pyval) : result (list Z) :=
  match c with
  | Cs n => pack_s n v
  | Cx => Ok [0]
  | _ => do n <- code_size c; pack_int (code_signed c) n v
  end.

(** [struct.pack("<" + fmt, *vals)] *)
Fixpoint struct_pack (fmt : list code) (vals : list pyval) : result (list Z) :=
  match fmt with
  | [] => match vals with [] => Ok [] | _ :: _ => Raise StructError end
  | Cx :: fmt' => do bs <- struct_pack fmt' vals; Ok (0 :: bs)
  | c :: fmt' =>
      match vals with
      | [] => Raise StructError
      | v :: vals' =>
          do b <- pack_one c v;
          do bs <- struct_pack fmt' vals';
          Ok (b ++ bs)
      end
  end.

Definition unpack_int (signed : bool) (bs : list Z) : Z :=
  let u := le_value bs in
  let m := int_modulus (length bs) in
  if signed && (m / 2 <=? u) then u - m else u.

Fixpoint unpack_items (fmt : list code) (buf : list Z) : result (list pyval) :=
  match fmt with
  | [] => Ok []
  | c :: fmt' =>
      do n <- code_size c;
      do vs <- unpack_items fmt' (drop n buf);
      match c with
      | Cx => Ok vs
      | Cs _ => Ok (PBytes (take n buf) :: vs)
      | _ => Ok (PInt (unpack_int (code_signed c) (take n buf)) :: vs)
      end
  end.

(** [struct.unpack("<" + fmt, buf)]: the buffer must have exactly the size
    of the format. *)
Definition struct_unpack (fmt : list code) (buf : list Z) : result (list pyval) :=
  do n <- calcsize fmt;
  if Nat.eqb (length buf) n then unpack_items fmt buf else Raise StructError.

(** ** serdeser.py: the wire header *)

Definition MSG_COMMAND : Z := 0.
Definition MSG_EVENT : Z := 1.
Definition HEADER_LENGTH : nat := 4.

Definition make_header (msg_type device_id class_id command_id payload_len : Z)
  : result (list Z) :=
  let header :=
    [ Z.lor (Z.lor (Z.shiftl msg_type 7) (Z.shiftl device_id 3)) (Z.shiftr payload_len 8);
      Z.land payload_len 0xff;
      class_id;
      command_id ] in
  struct_pack (replicate HEADER_LENGTH CB) (map PInt header).

(** [operator.getitem(header, i)] on a bytes object. *)
Definition getbyte (bs : list Z) (i : nat) : result Z :=
  match bs !! i with
  | Some b => Ok b
  | None => Raise IndexError
  end.

Definition hfields : Type := Z * Z * Z * Z * Z.

Definition parseHeader (header : list Z) : result hfields :=
  do b0 <- getbyte header 0;
  do b1 <- getbyte header 1;
  do b2 <- getbyte header 2;
  do b3 <- getbyte header 3;
  Ok (Z.shiftr (Z.land b0 0x80) 7,
      Z.shiftr (Z.land b0 0x78) 3,
      Z.lor (Z.shiftl (Z.land b0 0x7) 8) b1,
      b2,
      b3).

(** ** apiparser.py: the API model

    The objects [ParsedApi] builds from the XML file. Back references
    ([api_class], [api], [parent]) are replaced by the names read through
    them; [description] fields, which the codec never reads, are left
    out. *)

Record ApiEnumVal : Type := {
  ev_name : string;
  ev_value : Z
}.

(** [ApiEnum(dict)]: the dict part maps every member's name and every
    member's value to the member. [ApiDefine] has the same shape. *)
Record ApiEnum : Type := {
  enum_name : string;
  enum_items : gmap pykey ApiEnumVal;
  enum_names : list string
}.

Abbreviation ApiDefine := ApiEnum.

Record ApiType : Type := {
  type_name : string;
  type_base : string;
  type_length : Z
}.

(** [ApiType(None)] *)
Definition ApiType_None : ApiType :=
  {| type_name := ""; type_base := ""; type_length := 0 |}.

Record ApiParameter : Type := {
  param_index : Z;
  param_name : string;
  param_format : string;
  param_datatype : ApiType;
  validator_type : option string;
  validator_id : option string
}.

Record ApiCommand : Type := {
  cmd_device_name : string;            (* api_class.api.device_name *)
  cmd_class_name : string;             (* api_class.name *)
  cmd_index : Z;
  cmd_name : string;
  cmd_params : list ApiParameter;
  cmd_returns : list ApiParameter;
  cmd_no_return : bool;
  cmd_internal : bool
}.

Record ApiEvent : Type := {
  evt_device_name : string;
  evt_class_name : string;
  evt_index : Z;
  evt_name : string;
  evt_internal : bool;
  evt_params : list ApiParameter
}.

(** [commands] and [events] are keyed by name and by index. *)
Record ApiClass : Type := {
  class_index : Z;
  class_name : string;
  class_enums : gmap string ApiEnum;
  class_defines : gmap string ApiDefine;
  class_commands : gmap pykey ApiCommand;
  class_events : gmap pykey ApiEvent
}.

(** [ParsedApi(dict)]: the dict part maps class names and class indices
    to classes. *)
Record ParsedApi : Type := {
  api_device_id : Z;
  api_device_name : string;
  api_name : string;
  api_classes : gmap pykey ApiClass
}.

(** *** Python text helpers *)

(** [str.isspace] for the code points below 256. *)
Definition is_space (c : ascii) : bool :=
  let n := code_of c in
  ((9 <=? n) && (n <=? 13)) || ((28 <=? n) && (n <=? 32)) || (n =? 133) || (n =? 160).

Fixpoint lstrip (s : string) : string :=
  match s with
  | String c s' => if is_space c then lstrip s' else s
  | EmptyString => EmptyString
  end.

Definition strip (s : string) : string :=
  String.rev (lstrip (String.rev (lstrip s))).

Definition startswith (p s : string) : bool := String.prefix p s.

(** Value of a digit character in [int(s, base)]. *)
Definition digit_value (c : ascii) : option Z :=
  let n := code_of c in
  if (48 <=? n) && (n <=? 57) then Some (n - 48)
  else if (97 <=? n) && (n <=? 122) then Some (n - 87)
  else if (65 <=? n) && (n <=? 90) then Some (n - 55)
  else None.

(** Digits with single underscores between them. [prev] tells whether an
    underscore may come next, [seen] whether a digit was read. *)
Fixpoint int_digits (base : Z) (s : string) (acc : Z) (prev seen : bool) : option Z :=
  match s with
  | EmptyString => if prev && seen then Some acc else None
  | String c s' =>
      if Ascii.eqb c "_"%char then
        if prev then int_digits base s' acc false seen else None
      else
        match digit_value c with
        | Some d => if d <? base then int_digits base s' (acc * base + d) true true else None
        | None => None
        end
  end.

Definition base_prefix (base : Z) (s : string) : bool :=
  if base =? 16 then startswith "0x" s || startswith "0X" s
  else if base =? 2 then startswith "0b" s || startswith "0B" s
  else false.

(** [int(s, base)] for a [str], [base] one of 2, 10, 16. *)
Definition py_int (base : Z) (s : string) : result Z :=
  let s := strip s in
  let '(neg, s) :=
    match s with
    | String "-" s' => (true, s')
    | String "+" s' => (false, s')
    | _ => (false, s)
    end in
  let r :=
    if base_prefix base s
    then int_digits base (String.substring 2 (String.length s - 2) s) 0 true false
    else int_digits base s 0 false false in
  match r with
  | Some z => Ok (if neg then - z else z)
  | None => Raise ValueError
  end.

(** [toInt] of apiparser.py. [int(x)] copies an int, reads bytes as a
    decimal literal and rejects [None]. *)
Definition toInt (s : pyval) : result Z :=
  match s with
  | PStr s =>
      let s := strip s in
      if startswith "0x" s then py_int 16 (String.substring 2 (String.length s - 2) s)
      else if startswith "0b" s then py_int 2 (String.substring 2 (String.length s - 2) s)
      else py_int 10 s
  | PInt z => Ok z
  | PBytes bs => py_int 10 (chars bs)
  | PNone => Raise TypeError
  end.

Definition join (sep : string) (parts : list string) : string :=
  String.concat sep parts.

(** [s.split(sep)] for a one-character separator: at least one part. *)
Fixpoint split (sep : ascii) (s : string) : list string :=
  match s with
  | EmptyString => [EmptyString]
  | String c s' =>
      if Ascii.eqb c sep then EmptyString :: split sep s'
      else match split sep s' with
           | part :: parts => String c part :: parts
           | [] => [String c EmptyString]
           end
  end.

Definition hex_digit (v : Z) : ascii :=
  if v <? 10 then char_of (48 + v) else char_of (87 + v).

(** ["{:02x}".format(b)] for an element [b] of a bytes object. *)
Definition hex2 (b : Z) : string :=
  String (hex_digit (b / 16)) (String (hex_digit (b mod 16)) EmptyString).

(** [str(b)] for an element [b] of a bytes object. *)
Definition dec_digit (v : Z) : ascii := char_of (48 + v).

Definition str_of_byte (b : Z) : string :=
  if b <? 10 then String (dec_digit b) EmptyString
  else if b <? 100 then String (dec_digit (b / 10)) (String (dec_digit (b mod 10)) EmptyString)
  else String (dec_digit (b / 100))
         (String (dec_digit (b / 10 mod 10)) (String (dec_digit (b mod 10)) EmptyString)).

(** Value of a hexadecimal digit given by its code, as [binascii] reads it. *)
Definition hex_value (n : Z) : option Z :=
  if (48 <=? n) && (n <=? 57) then Some (n - 48)
  else if (97 <=? n) && (n <=? 102) then Some (n - 87)
  else if (65 <=? n) && (n <=? 70) then Some (n - 55)
  else None.

(** [binascii.unhexlify]: an odd length or a non-hexadecimal digit raises
    [binascii.Error]. *)
Fixpoint unhexlify (bs : list Z) : result (list Z) :=
  match bs with
  | [] => Ok []
  | [_] => Raise BinasciiError
  | h :: l :: bs' =>
      match hex_value h, hex_value l with
      | Some hv, Some lv => do r <- unhexlify bs'; Ok (16 * hv + lv :: r)
      | _, _ => Raise BinasciiError
      end
  end.

(** ** serdeser.py: the serializer *)

(** [to_bytes]: bytes are returned as they are, a str is encoded as
    latin-1; an int or [None] has no [encode]. *)
Definition to_bytes (s : pyval) : result (list Z) :=
  match s with
  | PBytes bs => Ok bs
  | PStr s => Ok (codes s)
  | PInt _ | PNone => Raise AttributeError
  end.

(** [len(x)] *)
Definition py_len (x : pyval) : result Z :=
  match x with
  | PBytes bs => Ok (Z.of_nat (length bs))
  | PStr s => Ok (Z.of_nat (String.length s))
  | PInt _ | PNone => Raise TypeError
  end.

(** [if not x] for an optional attribute read from the XML: [None] and the
    empty string are false. *)
Definition truthy (x : option string) : bool :=
  match x with
  | Some s => negb (String.eqb s "")
  | None => false
  end.

Definition attr_is (x : option string) (s : string) : bool :=
  match x with
  | Some t => String.eqb t s
  | None => false
  end.

(** The classes a name can be bound to, as far as [isinstance] is used. *)
Inductive pyclass : Type := ClsStr | ClsBytes | ClsInt.

Definition isinstance (v : pyval) (c : pyclass) : bool :=
  match v, c with
  | PStr _, ClsStr => true
  | PBytes _, ClsBytes => true
  | PInt _, ClsInt => true
  | _, _ => false
  end.

(** Evaluation of a bare class name inside serdeser.py. The module binds
    no class of its own that [isinstance] is called with, so the name is
    looked up among the builtins of Python 3 (setup.py:
    [python_requires=">=3.6"]), where [basestring] does not exist. *)
Definition lookup_name (n : string) : result pyclass :=
  if String.eqb n "str" then Ok ClsStr
  else if String.eqb n "bytes" then Ok ClsBytes
  else if String.eqb n "int" then Ok ClsInt
  else Raise NameError.

(** [enums[val].value] and [defines[v].value] in the serializer: [enums]
    and [defines] are the class's dicts of groups, keyed by group name, and
    a group ([ApiEnum], [ApiDefine]) has the attributes [api_class], [name],
    [description], [values] and [names]: no [value]. *)
Definition group_value (groups : gmap string ApiEnum) (sym : string) : result Z :=
  do _ <- getitem groups sym;
  Raise AttributeError.

(** [val[0] in "0123456789"] *)
Definition leading_digit (s : string) : bool :=
  match s with
  | String c _ => (48 <=? code_of c) && (code_of c <=? 57)
  | EmptyString => false
  end.

(** Body of [Serializer._convertEnumDefine], given what the name
    [basestring] evaluates to. *)
Definition convertEnumDefine_with (basestring : result pyclass)
    (apiparam : ApiParameter) (val : pyval)
    (enums : gmap string ApiEnum) (defines : gmap string ApiDefine) : result Z :=
  if negb (truthy (validator_id apiparam)) then toInt val
  else
    do cls <- basestring;
    if negb (isinstance val cls) then toInt val
    else
      match val with
      | PStr s =>
          if (String.length s =? 0)%nat || leading_digit s then toInt val
          else if attr_is (validator_type apiparam) "enum" then
            do v <- group_value enums s;
            toInt (PInt v)
          else if attr_is (validator_type apiparam) "define" then
            do vs <- mapM (group_value defines) (split "|" s);
            toInt (PInt (fold_left Z.lor vs 0))
          else toInt val
      | PBytes bs =>
          (* [val[0] in "0123456789"] with an int on the left *)
          if (length bs =? 0)%nat then toInt val else Raise TypeError
      | PInt _ | PNone => Raise TypeError          (* [len(val)] *)
      end.

Definition Serializer_convertEnumDefine :=
  convertEnumDefine_with (lookup_name "basestring").

(** The recognised format tags: the keys of [packers], [unpackers] and
    [converters]. *)
Inductive wire_format : Type :=
| Fint8 | Fuint8 | Fint16 | Fuint16 | Fint32 | Fuint32 | Fint64 | Fuint64
| Fuint8array | Fuint16array
| Fbd_addr | Fhw_addr | Fipv4
| Fuuid_128 | Faes_key_128 | Fsl_bt_uuid_64_t | Fsl_bt_uuid_16_t
| Fbyte_array.

Definition format_table : list (string * wire_format) :=
  [ ("int8", Fint8); ("uint8", Fuint8); ("int16", Fint16); ("uint16", Fuint16);
    ("int32", Fint32); ("uint32", Fuint32); ("int64", Fint64); ("uint64", Fuint64);
    ("uint8array", Fuint8array); ("uint16array", Fuint16array);
    ("bd_addr", Fbd_addr); ("hw_addr", Fhw_addr); ("ipv4", Fipv4);
    ("uuid_128", Fuuid_128); ("aes_key_128", Faes_key_128);
    ("sl_bt_uuid_64_t", Fsl_bt_uuid_64_t); ("sl_bt_uuid_16_t", Fsl_bt_uuid_16_t);
    ("byte_array", Fbyte_array) ].

(** [packers[apiparam.format]], [unpackers[...]], [converters[...]] *)
Definition lookup_format (tag : string) : result wire_format :=
  match find (fun e => String.eqb (fst e) tag) format_table with
  | Some e => Ok (snd e)
  | None => Raise KeyError
  end.

(** [x.replace(b":", b"")] *)
Definition remove_colons (bs : list Z) : list Z :=
  filter (fun b => b <> 58) bs.

(** [b"".join(map(struct.Struct(">B").pack, map(int, x.split("."))))]:
    [split] with a str separator needs a str. *)
Definition pack_ipv4 (x : pyval) : result (list Z) :=
  match x with
  | PStr s =>
      do parts <- mapM (fun part =>
                          do n <- py_int 10 part;
                          pack_int false 1 (PInt n))
                       (split "." s);
      Ok (concat parts)
  | PBytes _ => Raise TypeError
  | PInt _ | PNone => Raise AttributeError
  end.

(** One entry of [packers]: the piece of format and the value to pack.
    [convert] is [self._convertEnumDefine] with [enums] and [defines]. *)
Definition packer (convert : ApiParameter -> pyval -> result Z)
    (f : wire_format) (apiparam : ApiParameter) (x : pyval) : result (code * pyval) :=
  let int (c : code) := do v <- convert apiparam x; Ok (c, PInt v) in
  let raw (n : Z) := do b <- to_bytes x; Ok (Cs n, PBytes b) in
  match f with
  | Fint8 => int Cb
  | Fuint8 => int CB
  | Fint16 => int Ch
  | Fuint16 => int CH
  | Fint32 => int Ci
  | Fuint32 => int CI
  | Fint64 => int Cq
  | Fuint64 => int CQ
  | Fuint8array =>
      do b <- to_bytes x;
      do n <- py_len x;
      do l <- pack_int false 1 (PInt n);
      Ok (Cs (Z.of_nat (length b) + 1), PBytes (l ++ b))
  | Fuint16array =>
      do b <- to_bytes x;
      do n <- py_len x;
      do l <- pack_int false 2 (PInt n);
      Ok (Cs (Z.of_nat (length b) + 2), PBytes (l ++ b))
  | Fbd_addr =>
      do b <- to_bytes x;
      do a <- unhexlify (remove_colons b);
      Ok (Cs 6, PBytes (rev a))         (* the byte order is reversed *)
  | Fhw_addr =>
      do b <- to_bytes x;
      do a <- unhexlify (remove_colons b);
      Ok (Cs 6, PBytes a)
  | Fipv4 =>
      do b <- pack_ipv4 x;
      Ok (Cs 4, PBytes b)
  | Fuuid_128 => raw 16
  | Faes_key_128 => raw 16
  | Fsl_bt_uuid_64_t => raw 8
  | Fsl_bt_uuid_16_t => raw 2
  | Fbyte_array => raw (type_length (param_datatype apiparam))
  end.

(** [Serializer._parseParameters]: the pack format and the values. *)
Definition _parseParameters (args : list pyval) (apiparams : list ApiParameter)
    (enums : gmap string ApiEnum) (defines : gmap string ApiDefine)
  : result (list code * list pyval) :=
  if negb (length args =? length apiparams)%nat then Raise TypeError
  else
    do a <- mapM (fun '(apiparam, val) =>
                    do f <- lookup_format (param_format apiparam);
                    packer (fun p v => Serializer_convertEnumDefine p v enums defines)
                           f apiparam val)
                 (zip apiparams args);
    Ok (map fst a, map snd a).

Record Serializer : Type := {
  ser_apis : gmap Z ParsedApi;
  ser_device_ids : gmap string Z
}.

(** [Serializer.__init__] *)
Definition Serializer_init (apis : list ParsedApi) : Serializer :=
  fold_left
    (fun self api =>
       {| ser_apis := <[api_device_id api := api]> (ser_apis self);
          ser_device_ids := <[api_device_name api := api_device_id api]> (ser_device_ids self) |})
    apis
    {| ser_apis := ∅; ser_device_ids := ∅ |}.

(** The [device_id] argument of [command]: a device name or a device id. *)
Inductive devref : Type :=
| DevName (s : string)
| DevId (z : Z).

(** [Serializer.command] *)
Definition command (self : Serializer) (device_id : devref)
    (class_name command_name : pykey) (args : list pyval) : result (list Z) :=
  do device_id <-
    match device_id with
    | DevName s => getitem (ser_device_ids self) s
    | DevId z => Ok z
    end;
  do api <- getitem (ser_apis self) device_id;
  do apiclass <- getitem (api_classes api) class_name;
  do apicommand <- getitem (class_commands apiclass) command_name;
  do '(pack_format, params) <-
    _parseParameters args (cmd_params apicommand)
                     (class_enums apiclass) (class_defines apiclass);
  do param_data_len <- calcsize pack_format;
  do header <- make_header MSG_COMMAND device_id (class_index apiclass)
                           (cmd_index apicommand) (Z.of_nat param_data_len);
  do payload <- struct_pack pack_format params;
  Ok (header ++ payload).

(** ** serdeser.py: the deserializer *)

(** [Deserializer.__init__] *)
Definition Deserializer_init (apis : list ParsedApi) : gmap Z ParsedApi :=
  fold_left (fun self api => <[api_device_id api := api]> self) apis ∅.

(** A value used as a dict key. No group holds a bytes object or [None]
    as a key. *)
Definition key_of (v : pyval) : option pykey :=
  match v with
  | PInt z => Some (KInt z)
  | PStr s => Some (KStr s)
  | PBytes _ | PNone => None
  end.

(** [apiparam.defines]: [ApiParameter.__init__] sets [parent], [index],
    [name], [format], [datatype], [validator_type], [validator_id] and
    [description]; the class defines nothing else. *)
Definition ApiParameter_defines (apiparam : ApiParameter)
  : result (gmap string ApiDefine) :=
  Raise AttributeError.

(** [Deserializer._convertEnumDefine]. In the [define] branch the loop
    runs over the keys of the group (names and values), which have no
    [value] attribute. *)
Definition Deserializer_convertEnumDefine (apiparam : ApiParameter) (val : pyval)
    (enums : gmap string ApiEnum) (defines : gmap string ApiDefine) : result pyval :=
  match validator_id apiparam with
  | Some id =>
      if negb (truthy (validator_id apiparam)) then Ok val
      else if attr_is (validator_type apiparam) "enum" then
        do group <- getitem enums id;
        match key_of val with
        | Some k => do member <- getitem (enum_items group) k; Ok (PStr (ev_name member))
        | None => Raise KeyError
        end
      else if attr_is (validator_type apiparam) "define" then
        do groups <- ApiParameter_defines apiparam;
        do group <- getitem groups id;
        if decide (enum_items group = ∅) then Ok val
        else Raise AttributeError
      else Ok val
  | None => Ok val
  end.

Inductive apinode : Type :=
| NodeCommand (c : ApiCommand)
| NodeEvent (e : ApiEvent).

Definition node_class_name (n : apinode) : string :=
  match n with
  | NodeCommand c => cmd_class_name c
  | NodeEvent e => evt_class_name e
  end.

Definition node_device_name (n : apinode) : string :=
  match n with
  | NodeCommand c => cmd_device_name c
  | NodeEvent e => evt_device_name e
  end.

Definition node_name (n : apinode) : string :=
  match n with
  | NodeCommand c => cmd_name c
  | NodeEvent e => evt_name e
  end.

(** What [logger.warning] is called with in [parse]. *)
Inductive warning : Type :=
| WarnMissing (apidoc_name : string) (missing : list string)
| WarnExtra (apidoc_name : string) (extra : nat).

(** [struct.unpack("<B", bs)] and [struct.unpack("<H", bs)], used on the
    first bytes of an array field: [n] is 1 or 2. *)
Definition unpack_prefix (n : nat) (bs : list Z) : result Z :=
  if (length bs =? n)%nat then Ok (unpack_int false bs) else Raise StructError.

(** One entry of [unpackers]: the piece of format of a field, given its
    first two bytes [x]. *)
Definition unpacker (f : wire_format) (apiparam : ApiParameter) (x : list Z)
  : result (list code) :=
  match f with
  | Fint8 => Ok [Cb]
  | Fuint8 => Ok [CB]
  | Fint16 => Ok [Ch]
  | Fuint16 => Ok [CH]
  | Fint32 => Ok [Ci]
  | Fuint32 => Ok [CI]
  | Fint64 => Ok [Cq]
  | Fuint64 => Ok [CQ]
  | Fuint8array => do n <- unpack_prefix 1 (take 1 x); Ok [Cx; Cs n]
  | Fuint16array => do n <- unpack_prefix 2 (take 2 x); Ok [Cx; Cx; Cs n]
  | Fbd_addr => Ok [Cs 6]
  | Fhw_addr => Ok [Cs 6]
  | Fipv4 => Ok [Cs 4]
  | Fuuid_128 => Ok [Cs 16]
  | Faes_key_128 => Ok [Cs 16]
  | Fsl_bt_uuid_64_t => Ok [Cs 8]
  | Fsl_bt_uuid_16_t => Ok [Cs 2]
  | Fbyte_array => Ok [Cs (type_length (param_datatype apiparam))]
  end.

(** One entry of [converters]. The value is what [struct.unpack] gave for
    the field, a bytes object for the three textual formats, or [None]
    for a missing field, which can be neither reversed nor iterated. *)
Definition converter (f : wire_format) (x : pyval) : result pyval :=
  match f with
  | Fbd_addr =>
      match x with
      | PBytes bs => Ok (PStr (join ":" (map hex2 (rev bs))))
      | _ => Raise TypeError
      end
  | Fhw_addr =>
      match x with
      | PBytes bs => Ok (PStr (join ":" (map hex2 bs)))
      | _ => Raise TypeError
      end
  | Fipv4 =>
      match x with
      | PBytes bs => Ok (PStr (join "." (map str_of_byte bs)))
      | _ => Raise TypeError
      end
  | _ => Ok x
  end.

(** The first loop of [parse]: the format of the payload and the position
    reached. The loop stops with a warning when the payload ends before a
    parameter starts. *)
Fixpoint scan_params (apidoc_name : string) (apiparams : list ApiParameter)
    (payload : list Z) (pos : nat) (pack_format : list code)
  : list warning * result (list code * nat) :=
  match apiparams with
  | [] => ([], Ok (pack_format, pos))
  | apiparam :: rest =>
      if (length payload <=? pos)%nat then
        ([WarnMissing apidoc_name (map param_name apiparams)], Ok (pack_format, pos))
      else
        match (do f <- lookup_format (param_format apiparam);
               do fmt <- unpacker f apiparam (take 2 (drop pos payload));
               do n <- calcsize fmt;
               Ok (fmt, n)) with
        | Ok (fmt, n) =>
            scan_params apidoc_name rest payload (pos + n) (pack_format ++ fmt)
        | Raise e => ([], Raise e)
        end
  end.

(** [parse] from the first loop to the end, for the parameters
    [apiparams] of the message found. *)
Definition parse_params (apidoc_name : string) (apiparams : list ApiParameter)
    (payload : list Z) (enums : gmap string ApiEnum) (defines : gmap string ApiDefine)
    (enumdefines : bool) : list warning * result (list pyval) :=
  match scan_params apidoc_name apiparams payload 0 [] with
  | (w, Raise e) => (w, Raise e)
  | (w, Ok (pack_format, pos)) =>
      let '(w', payload) :=
        if (pos <? length payload)%nat
        then ([WarnExtra apidoc_name (length payload - pos)], take pos payload)
        else ([], payload) in
      (w ++ w',
       do vals <- struct_unpack pack_format payload;
       let params := vals ++ replicate (length apiparams - length vals) PNone in
       do params <- mapM (fun '(param, apiparam) =>
                            do f <- lookup_format (param_format apiparam);
                            converter f param)
                         (zip params apiparams);
       if enumdefines then
         mapM (fun '(apiparam, param) =>
                 Deserializer_convertEnumDefine apiparam param enums defines)
              (zip apiparams params)
       else Ok params)
  end.

(** [parse] up to the first loop: the message, its parameters, its class
    and its name in the log. *)
Definition resolve (self : gmap Z ParsedApi) (header : list Z) (fromHost : bool)
  : result (hfields * apinode * list ApiParameter * ApiClass * string) :=
  do hf <- parseHeader header;
  let '(cmdevt, device_id, parameter_len, classIndex, cmdEvtIndex) := hf in
  do api <- match self !! device_id with
            | Some api => Ok api
            | None => Raise (DeserializerApiMissingError device_id)
            end;
  let apidoc_name := api_name api in
  do '(node, apiparams, cls, apidoc_name) <-
    (if cmdevt =? MSG_COMMAND then
       do cls <- getitem (api_classes api) (KInt classIndex);
       do c <- getitem (class_commands cls) (KInt cmdEvtIndex);
       if fromHost
       then Ok (NodeCommand c, cmd_params c, cls, String.append apidoc_name "_cmd")
       else Ok (NodeCommand c, cmd_returns c, cls, String.append apidoc_name "_rsp")
     else
       match (do cls <- getitem (api_classes api) (KInt classIndex);
              do e <- getitem (class_events cls) (KInt cmdEvtIndex);
              Ok (cls, e)) with
       | Ok (cls, e) =>
           Ok (NodeEvent e, evt_params e, cls, String.append apidoc_name "_evt")
       | Raise KeyError => Raise (DeserializerEventMissingError classIndex cmdEvtIndex)
       | Raise e => Raise e
       end);
  Ok (hf, node, apiparams, cls,
      String.append apidoc_name
        (String.append "_" (String.append (node_class_name node)
                                          (String.append "_" (node_name node))))).

(** [Deserializer.parse]: the warnings logged, and the tuple returned or
    the exception raised. *)
Definition parse (self : gmap Z ParsedApi) (header payload : list Z)
    (fromHost enumdefines : bool)
  : list warning * result (apinode * hfields * list pyval) :=
  match resolve self header fromHost with
  | Raise e => ([], Raise e)
  | Ok (hf, node, apiparams, cls, apidoc_name) =>
      let '(w, r) := parse_params apidoc_name apiparams payload
                                  (class_enums cls) (class_defines cls) enumdefines in
      (w, do params <- r; Ok (node, hf, params))
  end.

(** ** bglib.py: messages, the connection handler and the facade *)

(** A [BGMsg]: the tuple of values, and the attributes [__new__] sets from
    the parameter names, in the order of the [setattr] calls. The
    attributes the class keeps for itself ([_apinode], [_fields], the
    properties, ...) all start with an underscore; parameter names are
    taken not to clash with them. *)
Record BGMsg : Type := {
  msg_apinode : apinode;
  msg_values : list pyval;
  msg_fields : list string;
  msg_attrs : list (string * pyval)
}.

Definition _device_name (m : BGMsg) : string := node_device_name (msg_apinode m).
Definition _class_name (m : BGMsg) : string := node_class_name (msg_apinode m).
Definition _msg_name (m : BGMsg) : string := node_name (msg_apinode m).

(** [BGMsg.__new__]: [api_vals[i]] must exist for every value. *)
Definition BGMsg_new (node : apinode) (values : list pyval) (is_response : bool)
  : result BGMsg :=
  let api_vals :=
    match node with
    | NodeCommand c => if is_response then cmd_returns c else cmd_params c
    | NodeEvent e => evt_params e
    end in
  do names <- mapM (fun i => match api_vals !! i with
                             | Some p => Ok (param_name p)
                             | None => Raise IndexError
                             end)
                   (seq 0 (length values));
  Ok {| msg_apinode := node; msg_values := values;
        msg_fields := names; msg_attrs := zip names values |}.

Definition BGCommand (node : ApiCommand) (values : list pyval) : result BGMsg :=
  BGMsg_new (NodeCommand node) values false.

Definition BGResponse (node : apinode) (values : list pyval) : result BGMsg :=
  BGMsg_new node values true.

(** [getattr(self, name)] for an attribute set from a parameter name: the
    last [setattr] wins. *)
Definition msg_getattr (m : BGMsg) (name : string) : result pyval :=
  match find (fun e => String.eqb (fst e) name) (rev (msg_attrs m)) with
  | Some e => Ok (snd e)
  | None => Raise AttributeError
  end.

(** [BGResponse._errorcode_field]: an event has no [returns]. *)
Definition _errorcode_field (m : BGMsg) : result (option string) :=
  match msg_apinode m with
  | NodeCommand c =>
      Ok (option_map param_name
            (find (fun return_field =>
                     String.eqb (type_name (param_datatype return_field)) "errorcode")
                  (cmd_returns c)))
  | NodeEvent _ => Raise AttributeError
  end.

(** [BGResponse._errorcode] *)
Definition _errorcode (m : BGMsg) : result pyval :=
  do errorcode_field <- _errorcode_field m;
  if truthy errorcode_field then
    match errorcode_field with
    | Some f => msg_getattr m f
    | None => Ok (PInt 0)
    end
  else Ok (PInt 0).

Definition ERRORCODE_SUCCESS : Z := 0.

(** What a command invocation can raise. *)
Inductive bgexn : Type :=
| PyExn (e : exn)
| Exception (msg : string)
| CommandError (msg : string)
| CommandFailedError (response : BGMsg) (errorcode : pyval) (command : BGMsg).

Inductive outcome (A : Type) : Type :=
| Return (a : A)
| Throw (e : bgexn).
Arguments Return {A} a.
Arguments Throw {A} e.

Definition lift {A : Type} (r : result A) (k : A -> outcome (option BGMsg))
  : outcome (option BGMsg) :=
  match r with
  | Ok a => k a
  | Raise e => Throw (PyExn e)
  end.

(** [CommandFailedError(response, command)]: the message is built with
    ["{:#x}".format(response._errorcode)], which needs an int. *)
Definition new_CommandFailedError (response command : BGMsg) : bgexn :=
  match _errorcode response with
  | Ok (PInt z) => CommandFailedError response (PInt z) command
  | Ok (PStr _) => PyExn ValueError
  | Ok (PBytes _) | Ok PNone => PyExn TypeError
  | Raise e => PyExn e
  end.

(** [x != ERRORCODE_SUCCESS] *)
Definition differs_from_success (x : pyval) : bool :=
  match x with
  | PInt z => negb (z =? ERRORCODE_SUCCESS)
  | _ => true
  end.

(** What the connection does during one [send_command]: the outcome of
    [conn.write], and what [response_queue.get] gives within the timeout
    ([None] for [queue.Empty]). *)
Inductive write_result : Type :=
| Written
| WriteTimeout                 (* ConnectorTimeoutException *)
| WriteRaises (e : exn).

Record BGApiConnHandler : Type := {
  handler_ser : Serializer;
  conn_write : list Z -> write_result;
  response_queue_get : option (apinode * hfields * list pyval)
}.

(** [BGApiConnHandler.send_command]. The [waiting_response] flag, set
    before the write and cleared on every way out, is left out. *)
Definition send_command (self : BGApiConnHandler) (bgcmd : BGMsg) (no_response : bool)
  : outcome (option BGMsg) :=
  lift (command (handler_ser self) (DevName (_device_name bgcmd))
                (KStr (_class_name bgcmd)) (KStr (_msg_name bgcmd)) (msg_values bgcmd))
    (fun data =>
       match conn_write self data with
       | WriteTimeout => Throw (CommandError "Send timeout")
       | WriteRaises e => Throw (PyExn e)
       | Written =>
           if no_response then Return None
           else
             match response_queue_get self with
             | None => Throw (CommandError "No response")
             | Some (api_node, headers, vals) =>
                 lift (BGResponse api_node vals) (fun response =>
                 lift (_errorcode response) (fun errorcode =>
                 if differs_from_success errorcode
                 then Throw (new_CommandFailedError response bgcmd)
                 else Return (Some response)))
             end
       end).

(** The function [_createApiCommand] builds for [apicmd]: the calls of
    the keep-awake hook, and the response returned or the exception
    raised. [conn_handler] is [None] while the library is closed. *)
Definition apiCommand (conn_handler : option BGApiConnHandler) (apicmd : ApiCommand)
    (args : list pyval) : list Z * outcome (option BGMsg) :=
  match conn_handler with
  | None => ([], Throw (Exception "Connection is closed"))
  | Some handler =>
      let awake := 1 :: (if cmd_no_return apicmd then [] else [0]) in
      match BGCommand apicmd args with
      | Raise e => (awake, Throw (PyExn e))
      | Ok cmd =>
          match send_command handler cmd (cmd_no_return apicmd) with
          | Throw e => (awake, Throw e)
          | Return response =>
              if cmd_no_return apicmd then (awake, Return None)
              else
                match response with
                | Some r =>
                    if bool_decide ((_device_name r, _class_name r, _msg_name r)
                                    = (_device_name cmd, _class_name cmd, _msg_name cmd))
                    then (awake, Return (Some r))
                    else (awake, Throw (CommandError "Wrong response"))
                | None => (awake, Throw (PyExn AttributeError))
                end
          end
      end
  end.

(** ** robustconnector.py *)

Definition PREAMBLE_BYTE : Z := 0x5A.
Definition HEADER_SIZE : nat := 3.
Definition MAX_PAYLOAD_LENGTH : Z := 2047.
Definition CRC_PRESENT_FLAG : Z := 0x10.          (* 0b00010000 *)
Definition PAYLOAD_LENGTH_MASK : Z := 0xE0.       (* 0b11100000 *)

Definition crc4_table : list Z :=
  [0x0; 0x7; 0xe; 0x9; 0x5; 0x2; 0xb; 0xc; 0xa; 0xd; 0x4; 0x3; 0xf; 0x8; 0x1; 0x6].

(** [seq[i]] for a non-negative index. *)
Definition index (l : list Z) (i : Z) : result Z :=
  match l !! Z.to_nat i with
  | Some x => Ok x
  | None => Raise IndexError
  end.

(** [crc4]: CRC-4 of the first [nibbles] nibbles of [data], starting from
    the CRC of the preamble. *)
Definition crc4 (data : list Z) (nibbles : nat) : result Z :=
  fold_left
    (fun acc i =>
       do crc <- acc;
       let shift := if Z.of_nat i mod 2 =? 0 then 4 else 0 in
       do byte <- index data (Z.of_nat i / 2);
       let nibble := Z.land (Z.shiftr byte shift) 0x0F in
       index crc4_table (Z.lxor crc nibble))
    (seq 0 nibbles)
    (Ok 0xa).

(** [crc8] *)
Definition crc8_bit (crc : Z) : Z :=
  let crc := if Z.land crc 0x8000 =? 0 then crc else Z.lxor crc (Z.shiftl 0x1070 3) in
  Z.shiftl crc 1.

Definition crc8 (data : list Z) : Z :=
  let crc :=
    fold_left
      (fun crc byte => Nat.iter 8 crc8_bit (Z.lxor crc (Z.shiftl byte 8)))
      data 0 in
  Z.land (Z.shiftr crc 8) 0xFF.

(** [pack]: the header, the data and the optional CRC. *)
Definition pack (data : list Z) (crc : bool) : result (list Z) :=
  if MAX_PAYLOAD_LENGTH <? Z.of_nat (length data) then Raise ConnectorException
  else
    let len := Z.of_nat (length data) in
    let b1 := Z.land len 0xFF in
    let b2 := Z.land (Z.shiftr len 3) PAYLOAD_LENGTH_MASK in
    let b2 := if crc then Z.lor b2 CRC_PRESENT_FLAG else b2 in
    do c <- crc4 [b1; b2] 3;
    let b2 := Z.lor b2 c in
    Ok ([PREAMBLE_BYTE; b1; b2] ++ data ++ (if crc then [crc8 data] else [])).

(** [RobustConnector._read] when the bytes the connector will ever
    deliver are [input]: the next [size] bytes and the rest, or [None]
    when fewer remain; the call then returns only once the stop flag is
    set. *)
Definition _read (size : nat) (input : list Z) : option (list Z * list Z) :=
  if (size <=? length input)%nat then Some (take size input, drop size input)
  else None.

(** [header.find(PREAMBLE_BYTE)] *)
Fixpoint find_byte (b : Z) (l : list Z) : Z :=
  match l with
  | [] => -1
  | x :: l' =>
      if x =? b then 0
      else let r := find_byte b l' in if r <? 0 then -1 else r + 1
  end.

(** [RobustConnector._run]: the payloads put on [read_queue], for an
    iteration count [fuel], the header bytes kept from the previous
    iteration and the bytes still to come. The loop ends when a read
    cannot be completed. *)
Fixpoint _run (fuel : nat) (header : list Z) (input : list Z) : list (list Z) :=
  match fuel with
  | O => []
  | S fuel' =>
      match _read (HEADER_SIZE - length header) input with
      | None => []
      | Some (data, input) =>
          let header := header ++ data in
          let preamble := find_byte PREAMBLE_BYTE header in
          if preamble <? 0 then _run fuel' [] input
          else if 0 <? preamble then _run fuel' (drop (Z.to_nat preamble) header) input
          else
            match crc4 (drop 1 header) 4 with
            | Raise _ => []
            | Ok c =>
                if negb (c =? 0) then _run fuel' (drop 1 header) input
                else
                  match index header 1, index header 2 with
                  | Ok h1, Ok h2 =>
                      let payload_size :=
                        Z.lor h1 (Z.shiftl (Z.land h2 PAYLOAD_LENGTH_MASK) 3) in
                      let crc_req := negb (Z.land h2 CRC_PRESENT_FLAG =? 0) in
                      match _read (Z.to_nat payload_size) input with
                      | None => []
                      | Some (payload, input) =>
                          if crc_req then
                            match _read 1 input with
                            | None => []
                            | Some (crc, input) =>
                                if negb (bool_decide (crc = [crc8 payload]))
                                then _run fuel' [] input
                                else payload :: _run fuel' [] input
                            end
                          else payload :: _run fuel' [] input
                      end
                  | _, _ => []
                  end
            end
      end
  end.

(** The reader thread started with an empty header buffer. Every
    iteration that goes on reads at least one byte, so one more
    iteration than there are bytes is enough. *)
Definition reader (input : list Z) : list (list Z) :=
  _run (S (length input)) [] input.

(** ** An API description for the examples

    The dicts are filled the way the constructors of apiparser.py fill
    them from the XML nodes: every command, event and class under its name
    and under its index, every group member under its name and under its
    value; a later entry replaces an earlier one with the same key. *)

Definition ApiEnum_init (name : string) (members : list ApiEnumVal) : ApiEnum :=
  {| enum_name := name;
     enum_items := fold_left (fun self e => <[KInt (ev_value e) := e]> (<[KStr (ev_name e) := e]> self))
                             members ∅;
     enum_names := map ev_name members |}.

Definition ApiClass_init (index : Z) (name : string)
    (enums defines : list ApiEnum) (commands : list ApiCommand) (events : list ApiEvent)
  : ApiClass :=
  {| class_index := index;
     class_name := name;
     class_enums := fold_left (fun d e => <[enum_name e := e]> d) enums ∅;
     class_defines := fold_left (fun d e => <[enum_name e := e]> d) defines ∅;
     class_commands := fold_left (fun d e => <[KInt (cmd_index e) := e]> (<[KStr (cmd_name e) := e]> d))
                                 commands ∅;
     class_events := fold_left (fun d e => <[KInt (evt_index e) := e]> (<[KStr (evt_name e) := e]> d))
                               events ∅ |}.

Definition ParsedApi_init (device_id : Z) (device_name : string) (classes : list ApiClass)
  : ParsedApi :=
  {| api_device_id := device_id;
     api_device_name := device_name;
     api_name := device_name;
     api_classes := fold_left (fun d e => <[KInt (class_index e) := e]> (<[KStr (class_name e) := e]> d))
                              classes ∅ |}.

Definition param (index : Z) (name format : string) : ApiParameter :=
  {| param_index := index; param_name := name; param_format := format;
     param_datatype := ApiType_None; validator_type := None; validator_id := None |}.

Definition typed_param (index : Z) (name format : string) (datatype : ApiType) : ApiParameter :=
  {| param_index := index; param_name := name; param_format := format;
     param_datatype := datatype; validator_type := None; validator_id := None |}.

Definition validated_param (index : Z) (name format kind group : string) : ApiParameter :=
  {| param_index := index; param_name := name; param_format := format;
     param_datatype := ApiType_None;
     validator_type := Some kind; validator_id := Some group |}.

Definition test_command (class_name : string) (index : Z) (name : string)
    (params returns : list ApiParameter) (no_return : bool) : ApiCommand :=
  {| cmd_device_name := "test"; cmd_class_name := class_name;
     cmd_index := index; cmd_name := name;
     cmd_params := params; cmd_returns := returns;
     cmd_no_return := no_return; cmd_internal := false |}.

Definition test_event (class_name : string) (index : Z) (name : string)
    (params : list ApiParameter) : ApiEvent :=
  {| evt_device_name := "test"; evt_class_name := class_name;
     evt_index := index; evt_name := name; evt_internal := false;
     evt_params := params |}.

Definition errorcode_type : ApiType :=
  {| type_name := "errorcode"; type_base := "uint16"; type_length := 2 |}.

Definition cmd_returns_ : ApiCommand :=
  test_command "simple" 0 "returns" [param 0 "param" "uint8"] [param 0 "return" "uint8"] false.
Definition cmd_can_fail : ApiCommand :=
  test_command "simple" 1 "can_fail" [] [typed_param 0 "result" "uint16" errorcode_type] false.
Definition cmd_command_a : ApiCommand := test_command "simple" 2 "command_a" [] [] false.
Definition cmd_command_b : ApiCommand := test_command "simple" 3 "command_b" [] [] false.
Definition cmd_no_return_ : ApiCommand :=
  test_command "simple" 4 "no_return" [param 0 "param" "uint8"] [] true.
Definition cmd_two_codes : ApiCommand :=
  test_command "simple" 5 "two_codes" []
    [typed_param 0 "first" "uint16" errorcode_type;
     typed_param 1 "second" "uint16" errorcode_type] false.

Definition class_simple : ApiClass :=
  ApiClass_init 1 "simple" [] []
    [cmd_returns_; cmd_can_fail; cmd_command_a; cmd_command_b; cmd_no_return_; cmd_two_codes]
    [test_event "simple" 0 "no_params" []].

Definition cmd_multi_type : ApiCommand :=
  test_command "complex" 0 "multi_type"
    [param 0 "param1" "uint8"; param 1 "param2" "uint16"]
    [param 0 "return1" "uint8"; param 1 "return2" "uint16"] false.
Definition cmd_address : ApiCommand :=
  test_command "complex" 1 "address"
    [param 0 "addr" "bd_addr"] [param 0 "addr" "bd_addr"] false.
Definition cmd_peer : ApiCommand :=
  test_command "complex" 2 "peer"
    [param 0 "handle" "uint8"; param 1 "addr" "bd_addr"]
    [param 0 "handle" "uint8"; param 1 "addr" "bd_addr"] false.

Definition class_complex : ApiClass :=
  ApiClass_init 2 "complex" [] []
    [cmd_multi_type; cmd_address; cmd_peer]
    [test_event "complex" 0 "multi_type_event"
       [param 0 "value1" "uint8"; param 1 "value2" "uint16"]].

Definition enum_mode : ApiEnum :=
  ApiEnum_init "mode" [ {| ev_name := "off"; ev_value := 0 |};
                        {| ev_name := "on"; ev_value := 1 |} ].
Definition define_flags : ApiDefine :=
  ApiEnum_init "flags" [ {| ev_name := "read"; ev_value := 1 |};
                         {| ev_name := "write"; ev_value := 2 |} ].

Definition param_mode : ApiParameter := validated_param 0 "mode" "uint8" "enum" "mode".
Definition param_flags : ApiParameter := validated_param 0 "flags" "uint8" "define" "flags".

Definition cmd_set_mode : ApiCommand :=
  test_command "valid" 0 "set_mode" [param_mode] [param_mode] false.
Definition cmd_set_flags : ApiCommand :=
  test_command "valid" 1 "set_flags" [param_flags] [param_flags] false.

Definition class_valid : ApiClass :=
  ApiClass_init 3 "valid" [enum_mode] [define_flags] [cmd_set_mode; cmd_set_flags] [].

Definition test_api : ParsedApi :=
  ParsedApi_init 4 "test" [class_simple; class_complex; class_valid].

Definition test_ser : Serializer := Serializer_init [test_api].
Definition test_deser : gmap Z ParsedApi := Deserializer_init [test_api].

(** ** The values of each format

    What a caller passes for a parameter of a given format, and gets back
    for it: an int within the range of an integer format, a bytes object
    for the array and opaque formats, and for the three textual formats
    the text the deserializer renders, two lowercase hexadecimal digits
    per byte joined by colons, or decimal numbers joined by dots. *)

Definition int_range (f : wire_format) : option (Z * Z) :=
  match f with
  | Fint8 => Some (-128, 127)
  | Fuint8 => Some (0, 255)
  | Fint16 => Some (-32768, 32767)
  | Fuint16 => Some (0, 65535)
  | Fint32 => Some (-2147483648, 2147483647)
  | Fuint32 => Some (0, 4294967295)
  | Fint64 => Some (-9223372036854775808, 9223372036854775807)
  | Fuint64 => Some (0, 18446744073709551615)
  | _ => None
  end.

Definition addr_text (bs : list Z) : string := join ":" (map hex2 bs).

Definition ipv4_text (bs : list Z) : string := join "." (map str_of_byte bs).

Definition is_bytes (v : pyval) (P : list Z -> Prop) : Prop :=
  exists bs, v = PBytes bs /\ P bs.

Definition is_text (v : pyval) (text : list Z -> string) (n : nat) : Prop :=
  exists bs, v = PStr (text bs) /\ length bs = n /\ Forall is_byte bs.

Definition in_domain (f : wire_format) (apiparam : ApiParameter) (v : pyval) : Prop :=
  match f with
  | Fuint8array => is_bytes v (fun bs => Z.of_nat (length bs) <= 255)
  | Fuint16array => is_bytes v (fun bs => Z.of_nat (length bs) <= 65535)
  | Fbd_addr | Fhw_addr => is_text v addr_text 6
  | Fipv4 => is_text v ipv4_text 4
  | Fuuid_128 | Faes_key_128 => is_bytes v (fun bs => length bs = 16%nat)
  | Fsl_bt_uuid_64_t => is_bytes v (fun bs => length bs = 8%nat)
  | Fsl_bt_uuid_16_t => is_bytes v (fun bs => length bs = 2%nat)
  | Fbyte_array =>
      is_bytes v (fun bs => Z.of_nat (length bs) = type_length (param_datatype apiparam)
                            /\ 0 < type_length (param_datatype apiparam))
  | _ =>
      match int_range f with
      | Some (lo, hi) => exists z, v = PInt z /\ lo <= z <= hi
      | None => False
      end
  end.

(** A parameter of a recognised format that names no validator, with a
    value of its format. *)
Definition plain_value (apiparam : ApiParameter) (v : pyval) : Prop :=
  truthy (validator_id apiparam) = false
  /\ exists f, lookup_format (param_format apiparam) = Ok f /\ in_domain f apiparam v.

(** ** Definitions used in the statements and the proofs *)

(** The integers from 0 up to [n], for checks by enumeration. *)
Definition zrange (n : nat) : list Z := map Z.of_nat (seq 0 n).

(** The fields read back from the first header byte built from [m], [d]
    and the high bits [hi] of the length. *)
Definition first_byte_check (m d hi : Z) : bool :=
  let b0 := Z.lor (Z.lor (Z.shiftl m 7) (Z.shiftl d 3)) hi in
  (0 <=? b0) && (b0 <? 256)
  && (Z.shiftr (Z.land b0 0x80) 7 =? m)
  && (Z.shiftr (Z.land b0 0x78) 3 =? d)
  && (Z.land b0 0x7 =? hi).

(** [isinstance(e, DeserializerError)] *)
Definition is_DeserializerError (e : exn) : bool :=
  match e with
  | DeserializerApiMissingError _ | DeserializerEventMissingError _ _ => true
  | _ => false
  end.

(** The header [pack] builds for a payload of [n] bytes has CRC-4 zero
    and gives back [n] and the CRC flag. *)
Definition header_check (crc : bool) (n : Z) : bool :=
  let b1 := Z.land n 0xFF in
  let b2 := Z.land (Z.shiftr n 3) PAYLOAD_LENGTH_MASK in
  let b2 := if crc then Z.lor b2 CRC_PRESENT_FLAG else b2 in
  match crc4 [b1; b2] 3 with
  | Ok c =>
      let b2 := Z.lor b2 c in
      match crc4 [b1; b2] 4 with Ok 0 => true | _ => false end
      && (Z.lor b1 (Z.shiftl (Z.land b2 PAYLOAD_LENGTH_MASK) 3) =? n)
      && Bool.eqb (negb (Z.land b2 CRC_PRESENT_FLAG =? 0)) crc
  | Raise _ => false
  end.

(** [c in s] *)
Fixpoint has_char (c : ascii) (s : string) : bool :=
  match s with
  | EmptyString => false
  | String x s' => Ascii.eqb x c || has_char c s'
  end.

(** One field: what the packer gives for [v], the bytes [struct.pack]
    writes for it, and their way back through the unpacker, [struct.unpack],
    the converter and the validator step. *)
Definition field_codec (p : ApiParameter) (v : pyval)
    (enums : gmap string ApiEnum) (defines : gmap string ApiDefine)
    (c : code) (val : pyval) (bytes : list Z) : Prop :=
  exists f piece raw,
    lookup_format (param_format p) = Ok f
    /\ packer (fun p v => Serializer_convertEnumDefine p v enums defines) f p v = Ok (c, val)
    /\ c <> Cx /\ pack_one c val = Ok bytes /\ bytes <> []
    /\ (forall rest, unpacker f p (take 2 (bytes ++ rest)) = Ok piece)
    /\ calcsize piece = Ok (length bytes)
    /\ unpack_items piece bytes = Ok [raw]
    /\ converter f raw = Ok v
    /\ Deserializer_convertEnumDefine p v enums defines = Ok v.

(** The same for a parameter list, field by field. *)
Inductive fields_codec (enums : gmap string ApiEnum) (defines : gmap string ApiDefine)
  : list ApiParameter -> list pyval -> list code -> list pyval -> list (list Z) -> Prop :=
| fields_nil : fields_codec enums defines [] [] [] [] []
| fields_cons p v c val bytes ps vs cs vals chunks :
    field_codec p v enums defines c val bytes ->
    fields_codec enums defines ps vs cs vals chunks ->
    fields_codec enums defines (p :: ps) (v :: vs) (c :: cs) (val :: vals) (bytes :: chunks).

(** Number of values a format yields: every item but the pad bytes. *)
Fixpoint count_values (fmt : list code) : nat :=
  match fmt with
  | [] => 0
  | Cx :: fmt' => count_values fmt'
  | _ :: fmt' => S (count_values fmt')
  end.

(** A missing parameter that [parse] can leave as [None]: its format is
    recognised, its converter passes values through, and no validator is
    applied to it. *)
Definition may_be_missing (enumdefines : bool) (p : ApiParameter) : Prop :=
  (exists f, lookup_format (param_format p) = Ok f
             /\ f <> Fbd_addr /\ f <> Fhw_addr /\ f <> Fipv4)
  /\ (enumdefines = false \/ truthy (validator_id p) = false).

(** The handler of the examples: every write succeeds, and the queue
    holds what [parse] returns for the given frame. *)
Definition test_handler (header payload : list Z) : BGApiConnHandler :=
  {| handler_ser := test_ser;
     conn_write := fun _ => Written;
     response_queue_get :=
       match snd (parse test_deser header payload false true) with
       | Ok r => Some r
       | Raise _ => None
       end |}.

(** The message of a construction that does not raise. *)
Definition msg_of (r : result BGMsg) : BGMsg :=
  match r with
  | Ok m => m
  | Raise _ => {| msg_apinode := NodeCommand cmd_command_a; msg_values := [];
                  msg_fields := []; msg_attrs := [] |}
  end.

(** ** robustconnector.py: the consumer side *)

(** The loop of [RobustConnector.read]: payloads are taken from
    [read_queue] until the buffer holds [size] bytes. [read_queue] lists
    the payloads that arrive within the read timeout; once it is empty,
    [get] raises [queue.Empty] and the loop ends. *)
Fixpoint fill_buffer (size : nat) (read_buffer : list Z) (read_queue : list (list Z))
  : list Z * list (list Z) :=
  match read_queue with
  | [] => (read_buffer, [])
  | payload :: queue' =>
      if (length read_buffer <? size)%nat
      then fill_buffer size (read_buffer ++ payload) queue'
      else (read_buffer, read_queue)
  end.

(** [RobustConnector.read]: the bytes returned, the buffer and the queue
    left. *)
Definition robust_read (size : nat) (read_buffer : list Z) (read_queue : list (list Z))
  : list Z * (list Z * list (list Z)) :=
  let '(read_buffer, read_queue) := fill_buffer size read_buffer read_queue in
  let read_size := Nat.min (length read_buffer) size in
  (take read_size read_buffer, (drop read_size read_buffer, read_queue)).

(** [RobustConnector.write]: what is handed to the underlying connector. *)
Definition robust_write (crc : bool) (data : list Z) : result (list Z) :=
  pack data crc.

(** ** bglib.py: the reader thread of the connection handler *)

(** What one turn of [BGApiConnHandler.run] does with a message. *)
Inductive dispatch : Type :=
| Logged (w : warning)                              (* a warning of [parse] *)
| ResponsePut (item : apinode * hfields * list pyval)   (* [response_queue.put] *)
| ResponseUnexpected (response : BGMsg)             (* logged and dropped *)
| EventHandled (evt : BGMsg).                       (* [event_handler(BGEvent(...))] *)

Definition BGEvent (node : apinode) (values : list pyval) : result BGMsg :=
  BGMsg_new node values false.

(** [BGApiConnHandler.run], for an iteration count [fuel] and the bytes
    [input] the connection will ever deliver ([read] is [_read] above):
    what is dispatched, in order, and the exception that ends the thread,
    if any. [waiting] is the state of [waiting_response] when a response
    arrives. *)
Fixpoint handler_run (fuel : nat) (ser : Serializer) (deser : gmap Z ParsedApi)
    (waiting : bool) (input : list Z) : list dispatch * option exn :=
  match fuel with
  | O => ([], None)
  | S fuel' =>
      match _read 1 input with
      | None => ([], None)
      | Some (header_start, input) =>
          match getbyte header_start 0 with
          | Raise e => ([], Some e)
          | Ok b0 =>
              let device_id := Z.shiftr (Z.land b0 0x78) 3 in
              match ser_apis ser !! device_id with
              | None => handler_run fuel' ser deser waiting input
              | Some _ =>
                  match _read (HEADER_LENGTH - 1) input with
                  | None => ([], None)
                  | Some (header_rest, input) =>
                      let header := header_start ++ header_rest in
                      match parseHeader header with
                      | Raise e => ([], Some e)
                      | Ok (cmdevt, _, payload_len, _, _) =>
                          match _read (Z.to_nat payload_len) input with
                          | None => ([], None)
                          | Some (payload, input) =>
                              let '(w, r) := parse deser header payload false true in
                              match r with
                              | Raise e => (map Logged w, Some e)
                              | Ok (apicmdevt, headers, params) =>
                                  let item :=
                                    if cmdevt =? MSG_COMMAND then
                                      if waiting
                                      then Ok (ResponsePut (apicmdevt, headers, params))
                                      else do response <- BGResponse apicmdevt params;
                                           Ok (ResponseUnexpected response)
                                    else do evt <- BGEvent apicmdevt params;
                                         Ok (EventHandled evt) in
                                  match item with
                                  | Raise e => (map Logged w, Some e)
                                  | Ok d =>
                                      let '(ds, e) :=
                                        handler_run fuel' ser deser waiting input in
                                      (map Logged w ++ d :: ds, e)
                                  end
                              end
                          end
                      end
                  end
              end
          end
      end
  end.

(** The reader thread over [input]: every turn that goes on reads at
    least one byte. *)
Definition handler_reader (ser : Serializer) (deser : gmap Z ParsedApi)
    (waiting : bool) (input : list Z) : list dispatch * option exn :=
  handler_run (S (length input)) ser deser waiting input.

(** ** Further definitions used in the statements and the proofs *)

(** The header bytes [pack] builds for [n] payload bytes are bytes. *)
Definition header_bytes_check (crc : bool) (n : Z) : bool :=
  let b1 := Z.land n 0xFF in
  let b2 := Z.land (Z.shiftr n 3) PAYLOAD_LENGTH_MASK in
  let b2 := if crc then Z.lor b2 CRC_PRESENT_FLAG else b2 in
  match crc4 [b1; b2] 3 with
  | Ok c => is_byteb b1 && is_byteb (Z.lor b2 c)
  | Raise _ => false
  end.

(** The payload size read from two header bytes is at most 2047. *)
Definition payload_size_check (h1 h2 : Z) : bool :=
  let n := Z.lor h1 (Z.shiftl (Z.land h2 PAYLOAD_LENGTH_MASK) 3) in
  (0 <=? n) && (n <=? MAX_PAYLOAD_LENGTH).

(** A stretch of the byte stream: bytes without a preamble, then the
    frame of a payload. *)
Definition segment : Type := list Z * list Z * bool.

Definition segment_payload (s : segment) : list Z := snd (fst s).

Definition segment_bytes (s : segment) : result (list Z) :=
  let '(junk, payload, crc) := s in
  do frame <- pack payload crc; Ok (junk ++ frame).

Definition segment_ok (s : segment) : Prop :=
  let '(junk, payload, crc) := s in
  Forall (fun b => b <> PREAMBLE_BYTE) junk
  /\ Z.of_nat (length payload) <= MAX_PAYLOAD_LENGTH.

(** The fields read from the first two header bytes are in range and
    rebuild the two bytes. *)
Definition header_decode_check (b0 b1 : Z) : bool :=
  let t := Z.shiftr (Z.land b0 0x80) 7 in
  let d := Z.shiftr (Z.land b0 0x78) 3 in
  let len := Z.lor (Z.shiftl (Z.land b0 0x7) 8) b1 in
  (0 <=? t) && (t <=? 1) && (0 <=? d) && (d <? 16) && (0 <=? len) && (len <=? 2047)
  && (Z.lor (Z.lor (Z.shiftl t 7) (Z.shiftl d 3)) (Z.shiftr len 8) =? b0)
  && (Z.land len 0xff =? b1).

(** A value of the right Python type for the format, outside what the
    format can hold: an int beyond the range, an array longer than its
    length prefix can tell. *)
Definition out_of_domain (f : wire_format) (v : pyval) : Prop :=
  match f with
  | Fuint8array => exists bs, v = PBytes bs /\ 255 < Z.of_nat (length bs)
  | Fuint16array => exists bs, v = PBytes bs /\ 65535 < Z.of_nat (length bs)
  | _ =>
      match int_range f with
      | Some (lo, hi) => exists z, v = PInt z /\ (z < lo \/ hi < z)
      | None => False
      end
  end.

(** The number of bytes of an opaque format. *)
Definition opaque_size (f : wire_format) (apiparam : ApiParameter) : option Z :=
  match f with
  | Fuuid_128 | Faes_key_128 => Some 16
  | Fsl_bt_uuid_64_t => Some 8
  | Fsl_bt_uuid_16_t => Some 2
  | Fbyte_array => Some (type_length (param_datatype apiparam))
  | _ => None
  end.

(** A command found in the serializer's tables. *)
Definition resolved (self : Serializer) (device_id : devref) (class_name command_name : pykey)
    (dev : Z) (apiclass : ApiClass) (apicommand : ApiCommand) : Prop :=
  match device_id with
  | DevName s => ser_device_ids self !! s = Some dev
  | DevId z => z = dev
  end
  /\ (exists api, ser_apis self !! dev = Some api
                  /\ api_classes api !! class_name = Some apiclass)
  /\ class_commands apiclass !! command_name = Some apicommand.

(** The last element of [l] that [P] holds for. *)
Definition find_last {A : Type} (P : A -> bool) (l : list A) : option A :=
  find P (rev l).

(** [key] is the name or the index an entry is filed under. *)
Definition filed_under {V : Type} (name : V -> string) (index : V -> Z)
    (key : pykey) (e : V) : bool :=
  bool_decide (key = KStr (name e)) || bool_decide (key = KInt (index e)).

(** The parameters the values of a message are named after: [returns] for
    a response to a command, [params] otherwise. *)
Definition api_vals_of (node : apinode) (is_response : bool) : list ApiParameter :=
  match node with
  | NodeCommand c => if is_response then cmd_returns c else cmd_params c
  | NodeEvent e => evt_params e
  end.

(** The calls of the keep-awake hook around one command. *)
Definition awake_calls (apicmd : ApiCommand) : list Z :=
  1 :: (if cmd_no_return apicmd then [] else [0]).

(** The byte the CRC-8 register holds in its upper half after the byte
    [b], when it held [c] before. *)
Definition crc8_next (c b : Z) : Z :=
  Z.shiftr (Nat.iter 8 crc8_bit (Z.shiftl (Z.lxor c b) 8)) 8.

(** After a byte the lower half of the register is zero again. *)
Definition crc8_register_check (x : Z) : bool :=
  let s := Nat.iter 8 crc8_bit (Z.shiftl x 8) in
  (s =? Z.shiftl (Z.shiftr s 8) 8) && is_byteb (Z.shiftr s 8).

(** Two register bytes that one byte takes to the same register byte are
    equal. *)
Definition crc8_injective_check (x y : Z) : bool :=
  negb (crc8_next 0 x =? crc8_next 0 y) || (x =? y).

(** * Properties *)

(** ** Generic facts *)

Lemma zrange_forallb (P : Z -> bool) (n : nat) :
  forallb P (zrange n) = true ->
  forall z, 0 <= z < Z.of_nat n -> P z = true.
Proof.
  intros H z Hz. rewrite forallb_forall in H. apply H.
  unfold zrange. apply in_map_iff. exists (Z.to_nat z). split; [lia|].
  apply in_seq. lia.
Qed.

Lemma rbind_Ok_inv {A B : Type} (r : result A) (k : A -> result B) (b : B) :
  rbind r k = Ok b -> exists a, r = Ok a /\ k a = Ok b.
Proof. destruct r as [a|e]; simpl; intros H; [eauto | discriminate]. Qed.

(** ** The wire header *)

Lemma pack_byte (z : Z) : 0 <= z < 256 -> pack_one CB (PInt z) = Ok [z].
Proof.
  intros Hz. unfold pack_one, pack_int. simpl.
  change (int_modulus 1) with 256.
  destruct (Z.leb_spec 0 z); [|lia]. destruct (Z.ltb_spec z 256); [|lia].
  simpl. rewrite Z.mod_small by lia. reflexivity.
Qed.

Lemma make_header_bytes (b0 b1 b2 b3 : Z) :
  0 <= b0 < 256 -> 0 <= b1 < 256 -> 0 <= b2 < 256 -> 0 <= b3 < 256 ->
  struct_pack (replicate HEADER_LENGTH CB) (map PInt [b0; b1; b2; b3]) = Ok [b0; b1; b2; b3].
Proof.
  intros H0 H1 H2 H3. cbn [HEADER_LENGTH replicate map struct_pack].
  rewrite !pack_byte by assumption. reflexivity.
Qed.

Lemma first_byte_fields (m d hi : Z) :
  0 <= m <= 1 -> 0 <= d < 16 -> 0 <= hi < 8 -> first_byte_check m d hi = true.
Proof.
  intros Hm Hd Hhi.
  assert (H : forallb (fun m => forallb (fun d => forallb (first_byte_check m d)
                        (zrange 8)) (zrange 16)) (zrange 2) = true)
    by (vm_compute; reflexivity).
  pose proof (zrange_forallb _ _ H m ltac:(lia)) as H1. cbv beta in H1.
  pose proof (zrange_forallb _ _ H1 d ltac:(lia)) as H2. cbv beta in H2.
  exact (zrange_forallb _ _ H2 hi ltac:(lia)).
Qed.

Lemma length_split (l : Z) :
  0 <= l <= 2047 ->
  0 <= Z.shiftr l 8 < 8 /\ 0 <= Z.land l 0xff < 256
  /\ Z.lor (Z.shiftl (Z.shiftr l 8) 8) (Z.land l 0xff) = l.
Proof.
  intros Hl.
  assert (H : forallb (fun l => (0 <=? Z.shiftr l 8) && (Z.shiftr l 8 <? 8)
                                && (0 <=? Z.land l 0xff) && (Z.land l 0xff <? 256)
                                && (Z.lor (Z.shiftl (Z.shiftr l 8) 8) (Z.land l 0xff) =? l))
                      (zrange 2048) = true)
    by (vm_compute; reflexivity).
  pose proof (zrange_forallb _ _ H l ltac:(lia)) as H1. cbv beta in H1.
  repeat (apply andb_prop in H1; destruct H1 as [H1 ?]). lia.
Qed.

(** The header built from fields in range is read back as the fields. *)
Lemma header_fields_roundtrip (msg_type device_id class_id command_id payload_len : Z) :
  0 <= msg_type <= 1 -> 0 <= device_id < 16 ->
  0 <= class_id < 256 -> 0 <= command_id < 256 ->
  0 <= payload_len <= 2047 ->
  exists header,
    make_header msg_type device_id class_id command_id payload_len = Ok header
    /\ length header = HEADER_LENGTH
    /\ parseHeader header
       = Ok (msg_type, device_id, payload_len, class_id, command_id).
Proof.
  intros Hm Hd Hc Hk Hl.
  destruct (length_split payload_len Hl) as (Hhi & Hlo & Hjoin).
  pose proof (first_byte_fields msg_type device_id (Z.shiftr payload_len 8) Hm Hd Hhi) as Hb.
  unfold first_byte_check in Hb. cbv zeta in Hb.
  repeat (apply andb_prop in Hb; destruct Hb as [Hb ?]).
  eexists. split; [|split].
  - unfold make_header. apply make_header_bytes; lia.
  - reflexivity.
  - unfold parseHeader, getbyte. cbn [lookup list_lookup rbind].
    repeat f_equal; try lia.
    replace (Z.land _ 7) with (Z.shiftr payload_len 8) by lia. exact Hjoin.
Qed.

(** C7. For msg_type in {0,1}, device_id < 16, class_id < 256,
    command_id < 256 and payload_len <= 2047 (all non-negative),
    [make_header] returns four bytes and [parseHeader] of them is exactly
    (msg_type, device_id, payload_len, class_id, command_id). *)
Theorem header_roundtrip (msg_type device_id class_id command_id payload_len : Z) :
  0 <= msg_type <= 1 -> 0 <= device_id < 16 ->
  0 <= class_id < 256 -> 0 <= command_id < 256 ->
  0 <= payload_len <= 2047 ->
  exists header,
    make_header msg_type device_id class_id command_id payload_len = Ok header
    /\ length header = HEADER_LENGTH
    /\ parseHeader header
       = Ok (msg_type, device_id, payload_len, class_id, command_id).
Proof.
  apply header_fields_roundtrip.
Qed.

Lemma header_roundtrip_witness :
  exists header,
    make_header 1 4 3 7 513 = Ok header
    /\ length header = HEADER_LENGTH
    /\ parseHeader header = Ok (1, 4, 513, 3, 7).
Proof. apply (header_roundtrip 1 4 3 7 513); lia. Defined.

(** ** Commands without parameters *)

Lemma shifted_device (d : Z) :
  0 <= d < 16 ->
  Z.lor (Z.lor (Z.shiftl MSG_COMMAND 7) (Z.shiftl d 3)) (Z.shiftr 0 8) = Z.shiftl d 3
  /\ 0 <= Z.shiftl d 3 < 256.
Proof.
  intros Hd. change (Z.shiftl MSG_COMMAND 7) with 0. change (Z.shiftr 0 8) with 0.
  rewrite Z.lor_0_l, Z.lor_0_r. rewrite Z.shiftl_mul_pow2 by lia.
  change (2 ^ 3) with 8. lia.
Qed.

(** C10. For a command whose parameter list is empty and the empty
    argument tuple, [Serializer.command] returns what [make_header] returns
    for payload length 0, with nothing after it: for ids in the range of
    the header, the four bytes [device_id << 3], [0], class index, command
    index, which [parseHeader] reads back with payload length 0. *)
Theorem command_without_params
    (self : Serializer) (device_id : devref) (class_name command_name : pykey)
    (dev : Z) (api : ParsedApi) (apiclass : ApiClass) (apicommand : ApiCommand) :
  match device_id with
  | DevName s => ser_device_ids self !! s = Some dev
  | DevId z => z = dev
  end ->
  ser_apis self !! dev = Some api ->
  api_classes api !! class_name = Some apiclass ->
  class_commands apiclass !! command_name = Some apicommand ->
  cmd_params apicommand = [] ->
  let out := command self device_id class_name command_name [] in
  out = make_header MSG_COMMAND dev (class_index apiclass) (cmd_index apicommand) 0
  /\ (0 <= dev < 16 -> 0 <= class_index apiclass < 256 ->
      0 <= cmd_index apicommand < 256 ->
      out = Ok [Z.shiftl dev 3; 0; class_index apiclass; cmd_index apicommand]
      /\ parseHeader [Z.shiftl dev 3; 0; class_index apiclass; cmd_index apicommand]
         = Ok (MSG_COMMAND, dev, 0, class_index apiclass, cmd_index apicommand)).
Proof.
  intros Hdev Hapi Hcls Hcmd Hparams out.
  assert (Hout : out = make_header MSG_COMMAND dev (class_index apiclass)
                                   (cmd_index apicommand) 0).
  { subst out. unfold command.
    assert (Hd : match device_id with
                 | DevName s => getitem (ser_device_ids self) s
                 | DevId z => Ok z
                 end = Ok dev).
    { destruct device_id; [unfold getitem; rewrite Hdev | subst]; reflexivity. }
    rewrite Hd. cbn [rbind]. unfold getitem. rewrite Hapi. cbn [rbind].
    rewrite Hcls. cbn [rbind]. rewrite Hcmd. cbn [rbind]. rewrite Hparams.
    Opaque make_header. cbn. Transparent make_header.
    destruct (make_header _ _ _ _ _) as [h|e]; cbn; [|reflexivity].
    rewrite app_nil_r. reflexivity. }
  split; [exact Hout|].
  intros Hd Hc Hk.
  destruct (header_fields_roundtrip MSG_COMMAND dev (class_index apiclass)
              (cmd_index apicommand) 0) as (h & Hh & _ & Hparse);
    try (unfold MSG_COMMAND; lia).
  destruct (shifted_device dev Hd) as [Hb0 Hb0r].
  assert (Hbytes : make_header MSG_COMMAND dev (class_index apiclass)
                     (cmd_index apicommand) 0
                   = Ok [Z.shiftl dev 3; 0; class_index apiclass; cmd_index apicommand]).
  { unfold make_header. rewrite Hb0. change (Z.land 0 255) with 0.
    apply make_header_bytes; lia. }
  rewrite Hbytes in Hh. injection Hh as <-.
  split; [rewrite Hout; exact Hbytes | exact Hparse].
Qed.

Lemma command_without_params_witness :
  let out := command test_ser (DevName "test") (KStr "simple") (KStr "command_a") [] in
  out = make_header MSG_COMMAND 4 1 2 0
  /\ (0 <= 4 < 16 -> 0 <= 1 < 256 -> 0 <= 2 < 256 ->
      out = Ok [Z.shiftl 4 3; 0; 1; 2]
      /\ parseHeader [Z.shiftl 4 3; 0; 1; 2] = Ok (MSG_COMMAND, 4, 0, 1, 2)).
Proof.
  apply (command_without_params test_ser (DevName "test") (KStr "simple")
           (KStr "command_a") 4 test_api class_simple cmd_command_a);
    reflexivity.
Defined.

(** ** Unknown devices, classes, commands and events *)

(** C9. A frame with msg_type 0 whose class index or command index is
    absent from the API of its device makes [parse] raise [KeyError],
    which is not a [DeserializerError]; an unknown device id raises
    [DeserializerApiMissingError] and, for msg_type other than 0, an
    absent class or event index raises [DeserializerEventMissingError]. *)
Theorem parse_unknown_index
    (self : gmap Z ParsedApi) (header payload : list Z) (fromHost enumdefines : bool)
    (cmdevt device_id parameter_len classIndex cmdEvtIndex : Z) :
  parseHeader header = Ok (cmdevt, device_id, parameter_len, classIndex, cmdEvtIndex) ->
  let absent {V : Type} (api : ParsedApi) (table : ApiClass -> gmap pykey V) :=
    match api_classes api !! KInt classIndex with
    | None => True
    | Some cls => table cls !! KInt cmdEvtIndex = None
    end in
  (forall api, self !! device_id = Some api -> cmdevt = MSG_COMMAND ->
     absent api class_commands ->
     parse self header payload fromHost enumdefines = ([], Raise KeyError)
     /\ is_DeserializerError KeyError = false)
  /\ (self !! device_id = None ->
      parse self header payload fromHost enumdefines
      = ([], Raise (DeserializerApiMissingError device_id)))
  /\ (forall api, self !! device_id = Some api -> cmdevt <> MSG_COMMAND ->
        absent api class_events ->
        parse self header payload fromHost enumdefines
        = ([], Raise (DeserializerEventMissingError classIndex cmdEvtIndex))).
Proof.
  intros Hhdr absent. unfold parse, resolve. rewrite Hhdr. cbn [rbind].
  split; [|split].
  - intros api Hapi -> Habs. rewrite Hapi. cbn [rbind].
    change (MSG_COMMAND =? MSG_COMMAND) with true. cbv iota.
    unfold absent, getitem in *.
    destruct (api_classes api !! KInt classIndex) as [cls|]; cbn [rbind]; [|auto].
    rewrite Habs. auto.
  - intros Hnone. rewrite Hnone. reflexivity.
  - intros api Hapi Hne Habs. rewrite Hapi. cbn [rbind].
    destruct (Z.eqb_spec cmdevt MSG_COMMAND) as [|_]; [contradiction|].
    unfold absent, getitem in *.
    destruct (api_classes api !! KInt classIndex) as [cls|]; cbn [rbind]; [|auto].
    rewrite Habs. auto.
Qed.

Lemma parse_unknown_index_witness :
  parse test_deser [0x20; 0; 1; 77] [] false true = ([], Raise KeyError)
  /\ parse test_deser [0x20; 0; 9; 0] [] false true = ([], Raise KeyError)
  /\ parse test_deser [0x08; 0; 1; 0] [] false true
     = ([], Raise (DeserializerApiMissingError 1))
  /\ parse test_deser [0xa0; 0; 1; 77] [] false true
     = ([], Raise (DeserializerEventMissingError 1 77)).
Proof.
  split; [|split; [|split]].
  - apply (parse_unknown_index test_deser [0x20; 0; 1; 77] [] false true 0 4 0 1 77
             eq_refl) with (api := test_api); reflexivity.
  - apply (parse_unknown_index test_deser [0x20; 0; 9; 0] [] false true 0 4 0 9 0
             eq_refl) with (api := test_api); reflexivity.
  - apply (parse_unknown_index test_deser [0x08; 0; 1; 0] [] false true 0 1 0 1 0
             eq_refl); reflexivity.
  - apply (parse_unknown_index test_deser [0xa0; 0; 1; 77] [] false true 1 4 0 1 77
             eq_refl) with (api := test_api); [reflexivity | discriminate | reflexivity].
Defined.

(** ** The robust framer *)

Lemma header_check_all (crc : bool) (n : Z) :
  0 <= n <= MAX_PAYLOAD_LENGTH -> header_check crc n = true.
Proof.
  intros Hn. unfold MAX_PAYLOAD_LENGTH in Hn.
  assert (H : forallb (fun n => header_check true n && header_check false n)
                      (zrange 2048) = true) by (vm_compute; reflexivity).
  pose proof (zrange_forallb _ _ H n ltac:(lia)) as H1. cbv beta in H1.
  apply andb_prop in H1. destruct crc; tauto.
Qed.

(** The header [pack] builds for a payload of [n] bytes. *)
Lemma pack_header (data : list Z) (crc : bool) :
  Z.of_nat (length data) <= MAX_PAYLOAD_LENGTH ->
  exists b1 b2,
    pack data crc
    = Ok ([PREAMBLE_BYTE; b1; b2] ++ data ++ (if crc then [crc8 data] else []))
    /\ crc4 [b1; b2] 4 = Ok 0
    /\ Z.lor b1 (Z.shiftl (Z.land b2 PAYLOAD_LENGTH_MASK) 3) = Z.of_nat (length data)
    /\ negb (Z.land b2 CRC_PRESENT_FLAG =? 0) = crc.
Proof.
  intros Hlen.
  pose proof (header_check_all crc (Z.of_nat (length data)) ltac:(lia)) as Hc.
  unfold header_check in Hc. cbv zeta in Hc.
  unfold pack. destruct (Z.ltb_spec MAX_PAYLOAD_LENGTH (Z.of_nat (length data))); [lia|].
  cbv zeta.
  destruct (crc4 _ 3) as [c|e]; [|discriminate]. cbn [rbind].
  apply andb_prop in Hc. destruct Hc as [Hc Hflag].
  apply andb_prop in Hc. destruct Hc as [Hcrc Hsize].
  eexists _, _. split; [reflexivity|]. split; [|split].
  - destruct (crc4 _ 4) as [[| |]|]; try discriminate. reflexivity.
  - apply Z.eqb_eq. exact Hsize.
  - apply Bool.eqb_prop. exact Hflag.
Qed.

Lemma read_app (size : nat) (front back : list Z) :
  length front = size -> _read size (front ++ back) = Some (front, back).
Proof.
  intros <-. unfold _read. rewrite length_app.
  destruct (Nat.leb_spec (length front) (length front + length back)); [|lia].
  rewrite take_app_length, drop_app_length. reflexivity.
Qed.

Lemma read_short (size : nat) (input : list Z) :
  (length input < size)%nat -> _read size input = None.
Proof.
  intros H. unfold _read. destruct (Nat.leb_spec size (length input)); [lia|reflexivity].
Qed.

(** One iteration that completes a valid header delivers its payload. *)
Lemma run_deliver (fuel : nat) (header data input tail payload : list Z)
    (b1 b2 : Z) (crc : bool) :
  _read (HEADER_SIZE - length header) input
  = Some (data, payload ++ (if crc then [crc8 payload] else []) ++ tail) ->
  header ++ data = [PREAMBLE_BYTE; b1; b2] ->
  crc4 [b1; b2] 4 = Ok 0 ->
  Z.lor b1 (Z.shiftl (Z.land b2 PAYLOAD_LENGTH_MASK) 3) = Z.of_nat (length payload) ->
  negb (Z.land b2 CRC_PRESENT_FLAG =? 0) = crc ->
  _run (S fuel) header input = payload :: _run fuel [] tail.
Proof.
  intros Hread Hhdr Hcrc Hsize Hflag.
  cbn [_run]. rewrite Hread, Hhdr.
  change (find_byte PREAMBLE_BYTE [PREAMBLE_BYTE; b1; b2]) with 0.
  change (0 <? 0) with false. cbv iota.
  change (drop 1 [PREAMBLE_BYTE; b1; b2]) with [b1; b2]. rewrite Hcrc.
  change (negb (0 =? 0)) with false. cbv iota.
  change (index [PREAMBLE_BYTE; b1; b2] 1) with (Ok b1).
  change (index [PREAMBLE_BYTE; b1; b2] 2) with (Ok b2).
  cbv beta iota zeta. rewrite Hsize, Hflag, Nat2Z.id.
  rewrite read_app by reflexivity.
  destruct crc.
  - cbn [app]. change (crc8 payload :: tail) with ([crc8 payload] ++ tail).
    rewrite read_app by reflexivity.
    rewrite bool_decide_eq_true_2 by reflexivity. reflexivity.
  - reflexivity.
Qed.

Lemma run_empty (fuel : nat) : _run fuel [] [] = [].
Proof. destruct fuel; reflexivity. Qed.

(** More iterations than bytes left are never used. *)
Lemma run_fuel (fuel1 : nat) :
  forall (fuel2 : nat) (header input : list Z),
    (length header <= 2)%nat ->
    (length input < fuel1)%nat -> (length input < fuel2)%nat ->
    _run fuel1 header input = _run fuel2 header input.
Proof.
  induction fuel1 as [|fuel1 IH]; intros fuel2 header input Hh H1 H2; [lia|].
  destruct fuel2 as [|fuel2]; [lia|].
  cbn [_run]. unfold _read.
  destruct (Nat.leb_spec (HEADER_SIZE - length header) (length input)) as [Hle|]; [|reflexivity].
  set (n := (HEADER_SIZE - length header)%nat) in *.
  assert (Hn : (1 <= n)%nat) by (subst n; unfold HEADER_SIZE; lia).
  assert (Hdrop : (length (drop n input) < length input)%nat)
    by (rewrite length_drop; lia).
  assert (Hfull : length (header ++ take n input) = 3%nat).
  { rewrite length_app, length_take. subst n. unfold HEADER_SIZE in *. lia. }
  set (hdr := header ++ take n input) in *.
  set (rest := drop n input) in *.
  assert (Hrec : forall h, (length h <= 2)%nat -> _run fuel1 h rest = _run fuel2 h rest).
  { intros h Hlen. apply IH; [exact Hlen | lia | lia]. }
  assert (Hrec' : forall h k, (length h <= 2)%nat ->
                    _run fuel1 h (drop k rest) = _run fuel2 h (drop k rest)).
  { intros h k Hlen. apply IH; [exact Hlen | |]; rewrite length_drop; lia. }
  destruct (find_byte PREAMBLE_BYTE hdr <? 0); [apply Hrec; simpl; lia|].
  destruct (Z.ltb_spec 0 (find_byte PREAMBLE_BYTE hdr)) as [Hpos|].
  { apply Hrec. rewrite length_drop. lia. }
  destruct (crc4 (drop 1 hdr) 4) as [c|]; [|reflexivity].
  destruct (negb (c =? 0)); [apply Hrec; rewrite length_drop; lia|].
  destruct (index hdr 1) as [h1|]; [|reflexivity].
  destruct (index hdr 2) as [h2|]; [|reflexivity].
  cbv zeta. unfold _read.
  destruct (_ <=? length rest)%nat; [|reflexivity].
  destruct (negb _).
  - rewrite length_drop.
    destruct (1 <=? _)%nat; [|reflexivity].
    rewrite drop_drop.
    destruct (negb _); [|f_equal]; apply Hrec'; simpl; lia.
  - f_equal. apply Hrec'. simpl; lia.
Qed.

Lemma find_byte_here (b : Z) (l : list Z) : find_byte b (b :: l) = 0.
Proof. cbn [find_byte]. rewrite Z.eqb_refl. reflexivity. Qed.

Lemma find_byte_later (b x : Z) (l : list Z) :
  x <> b ->
  find_byte b (x :: l) = if find_byte b l <? 0 then -1 else find_byte b l + 1.
Proof.
  intros Hne. cbn [find_byte]. destruct (Z.eqb_spec x b); [contradiction|reflexivity].
Qed.

(** Bytes other than the preamble in front of a frame are skipped, and
    the frame is delivered. *)
Lemma run_skip_junk (n : nat) :
  forall (fuel : nat) (junk payload tail : list Z) (b1 b2 : Z) (crc : bool),
    (length junk <= n)%nat ->
    Forall (fun b => b <> PREAMBLE_BYTE) junk ->
    crc4 [b1; b2] 4 = Ok 0 ->
    Z.lor b1 (Z.shiftl (Z.land b2 PAYLOAD_LENGTH_MASK) 3) = Z.of_nat (length payload) ->
    negb (Z.land b2 CRC_PRESENT_FLAG =? 0) = crc ->
    let frame := [PREAMBLE_BYTE; b1; b2] ++ payload ++ (if crc then [crc8 payload] else []) in
    (length (junk ++ frame ++ tail) < fuel)%nat ->
    _run fuel [] (junk ++ frame ++ tail) = payload :: _run (S (length tail)) [] tail.
Proof.
  induction n as [n IH] using lt_wf_ind.
  intros fuel junk payload tail b1 b2 crc Hn Hjunk Hcrc Hsize Hflag frame Hfuel.
  subst frame. rewrite <- !app_assoc in *. cbn [app] in *.
  rewrite !length_app in Hfuel. cbn [length] in Hfuel. rewrite !length_app in Hfuel.
  set (body := payload ++ (if crc then [crc8 payload] else []) ++ tail) in *.
  assert (Hbody : (length tail <= length body)%nat)
    by (subst body; rewrite !length_app; lia).
  assert (Hfin : (length tail < S (length tail))%nat) by lia.
  revert Hfin. generalize (S (length tail)). intros fin Hfin.
  destruct fuel as [|fuel]; [lia|].
  destruct junk as [|j1 [|j2 [|j3 junk]]].
  - (* the frame comes first *)
    rewrite (run_deliver fuel [] [PREAMBLE_BYTE; b1; b2] _ tail payload b1 b2 crc);
      try assumption; try reflexivity.
    f_equal. apply run_fuel; [simpl; lia | cbn [app length] in Hfuel; lia | lia].
  - (* one byte, then the preamble and the first length byte *)
    apply Forall_cons in Hjunk as [Hj1 _].
    cbn [_run app length]. change (HEADER_SIZE - 0)%nat with 3%nat.
    change (_read 3 (j1 :: PREAMBLE_BYTE :: b1 :: b2 :: body))
      with (Some ([j1; PREAMBLE_BYTE; b1], b2 :: body)).
    cbn [app]. rewrite (find_byte_later _ j1) by assumption.
    rewrite find_byte_here. change (0 <? 0) with false. cbv iota.
    change (0 + 1 <? 0) with false. change (0 <? 0 + 1) with true. cbv iota.
    change (drop (Z.to_nat (0 + 1)) [j1; PREAMBLE_BYTE; b1]) with [PREAMBLE_BYTE; b1].
    cbn [length] in Hfuel. destruct fuel as [|fuel]; [lia|].
    rewrite (run_deliver fuel [PREAMBLE_BYTE; b1] [b2] _ tail payload b1 b2 crc);
      try assumption; try reflexivity.
    f_equal. apply run_fuel; [simpl; lia | lia | lia].
  - (* two bytes, then the preamble *)
    apply Forall_cons in Hjunk as [Hj1 Hjunk]. apply Forall_cons in Hjunk as [Hj2 _].
    cbn [_run app length]. change (HEADER_SIZE - 0)%nat with 3%nat.
    change (_read 3 (j1 :: j2 :: PREAMBLE_BYTE :: b1 :: b2 :: body))
      with (Some ([j1; j2; PREAMBLE_BYTE], b1 :: b2 :: body)).
    cbn [app]. rewrite (find_byte_later _ j1), (find_byte_later _ j2) by assumption.
    rewrite find_byte_here. change (0 <? 0) with false. cbv iota.
    change (0 + 1 <? 0) with false. cbv iota.
    change (0 + 1 + 1 <? 0) with false. change (0 <? 0 + 1 + 1) with true. cbv iota.
    change (drop (Z.to_nat (0 + 1 + 1)) [j1; j2; PREAMBLE_BYTE]) with [PREAMBLE_BYTE].
    cbn [length] in Hfuel. destruct fuel as [|fuel]; [lia|].
    rewrite (run_deliver fuel [PREAMBLE_BYTE] [b1; b2] _ tail payload b1 b2 crc);
      try assumption; try reflexivity.
    f_equal. apply run_fuel; [simpl; lia | lia | lia].
  - (* three bytes without a preamble are dropped *)
    apply Forall_cons in Hjunk as [Hj1 Hjunk]. apply Forall_cons in Hjunk as [Hj2 Hjunk].
    apply Forall_cons in Hjunk as [Hj3 Hjunk].
    cbn [_run app length]. change (HEADER_SIZE - 0)%nat with 3%nat.
    change (_read 3 (j1 :: j2 :: j3 :: junk ++ PREAMBLE_BYTE :: b1 :: b2 :: body))
      with (Some ([j1; j2; j3], junk ++ PREAMBLE_BYTE :: b1 :: b2 :: body)).
    cbn [app].
    rewrite (find_byte_later _ j1), (find_byte_later _ j2), (find_byte_later _ j3)
      by assumption.
    change (find_byte PREAMBLE_BYTE []) with (-1).
    change (-1 <? 0) with true. cbv iota.
    cbn [length] in Hn, Hfuel.
    specialize (IH (length junk) ltac:(lia) fuel junk payload tail b1 b2 crc
                   ltac:(lia) Hjunk Hcrc Hsize Hflag).
    cbv zeta in IH. rewrite <- !app_assoc in IH. cbn [app] in IH.
    subst body. rewrite !length_app in Hbody.
    rewrite IH by (rewrite !length_app; cbn [length]; rewrite !length_app; lia).
    f_equal. apply run_fuel; [simpl; lia | lia | lia].
Qed.




(** ** Integers on the wire *)

Lemma length_le_bytes (n : nat) (z : Z) : length (le_bytes n z) = n.
Proof. revert z. induction n as [|n IH]; intros z; cbn; [|rewrite IH]; reflexivity. Qed.

Lemma int_modulus_S (n : nat) : int_modulus (S n) = 256 * int_modulus n.
Proof.
  unfold int_modulus. rewrite Nat2Z.inj_succ.
  replace (8 * Z.succ (Z.of_nat n)) with (8 + 8 * Z.of_nat n) by lia.
  rewrite Z.pow_add_r by lia. reflexivity.
Qed.

Lemma int_modulus_pos (n : nat) : 0 < int_modulus n.
Proof. unfold int_modulus. apply Z.pow_pos_nonneg; lia. Qed.

Lemma le_value_bytes (n : nat) :
  forall z, 0 <= z < int_modulus n -> le_value (le_bytes n z) = z.
Proof.
  induction n as [|n IH]; intros z Hz.
  - change (int_modulus 0) with 1 in Hz. cbn. lia.
  - rewrite int_modulus_S in Hz. cbn [le_bytes le_value].
    rewrite IH.
    + pose proof (Z.div_mod z 256 ltac:(lia)). lia.
    + split; [apply Z.div_pos; lia | apply Z.div_lt_upper_bound; lia].
Qed.

Lemma int_modulus_even (n : nat) : (0 < n)%nat -> int_modulus n = 2 * (int_modulus n / 2).
Proof.
  intros Hn. destruct n as [|n]; [lia|]. rewrite int_modulus_S.
  replace (256 * int_modulus n) with (128 * int_modulus n * 2) by lia.
  rewrite Z.div_mul by lia. lia.
Qed.

(** What [struct.pack] writes for an int in range, [struct.unpack] reads
    back. *)
Lemma pack_unpack_int (signed : bool) (n : nat) (z : Z) :
  (0 < n)%nat ->
  (if signed then - (int_modulus n / 2) <= z < int_modulus n / 2
   else 0 <= z < int_modulus n) ->
  exists bs, pack_int signed n (PInt z) = Ok bs
             /\ length bs = n /\ unpack_int signed bs = z.
Proof.
  intros Hn Hz. pose proof (int_modulus_pos n) as Hpos.
  pose proof (int_modulus_even n Hn) as Heven.
  unfold pack_int. cbv zeta. destruct signed.
  - destruct (Z.leb_spec (- (int_modulus n / 2)) z); [|lia].
    destruct (Z.ltb_spec z (int_modulus n / 2)); [|lia]. cbn [andb].
    eexists. split; [reflexivity|]. split; [apply length_le_bytes|].
    unfold unpack_int. rewrite length_le_bytes.
    rewrite le_value_bytes by (apply Z.mod_pos_bound; lia). cbv zeta. cbn [andb].
    destruct (Z.leb_spec (int_modulus n / 2) (z mod int_modulus n)) as [Hhi|Hlo].
    + destruct (Z.neg_nonneg_cases z) as [Hneg|Hnn].
      * rewrite <- (Z.mod_add z 1) by lia. rewrite Z.mod_small by lia. lia.
      * rewrite Z.mod_small in Hhi by lia. lia.
    + destruct (Z.neg_nonneg_cases z) as [Hneg|Hnn].
      * rewrite <- (Z.mod_add z 1) in Hlo by lia. rewrite Z.mod_small in Hlo by lia. lia.
      * rewrite Z.mod_small by lia. reflexivity.
  - destruct (Z.leb_spec 0 z); [|lia]. destruct (Z.ltb_spec z (int_modulus n)); [|lia].
    cbn [andb]. eexists. split; [reflexivity|]. split; [apply length_le_bytes|].
    unfold unpack_int. cbn [andb]. apply le_value_bytes. lia.
Qed.

(** ** Text on the wire *)

Lemma codes_app (s t : string) : codes (String.append s t) = codes s ++ codes t.
Proof.
  induction s as [|c s IH]; [reflexivity|].
  change (code_of c :: codes (String.append s t) = code_of c :: (codes s ++ codes t)).
  rewrite IH. reflexivity.
Qed.

Lemma byte_cases (P : Z -> bool) :
  forallb P (zrange 256) = true -> forall b, is_byte b -> P b = true.
Proof. intros H b Hb. apply (zrange_forallb P 256 H). unfold is_byte in Hb. lia. Qed.

(** The two digits of a byte are read back as the byte, and neither is a
    colon. *)
Lemma unhex_hex2 (b : Z) (rest : list Z) :
  is_byte b ->
  remove_colons (codes (hex2 b) ++ rest) = codes (hex2 b) ++ remove_colons rest
  /\ forall tail, unhexlify (codes (hex2 b) ++ tail)
                  = do r <- unhexlify tail; Ok (b :: r).
Proof.
  intros Hb.
  pose proof (byte_cases
    (fun b => match codes (hex2 b) with
              | [h; l] =>
                  negb (h =? 58) && negb (l =? 58)
                  && match hex_value h, hex_value l with
                     | Some hv, Some lv => 16 * hv + lv =? b
                     | _, _ => false
                     end
              | _ => false
              end) ltac:(vm_compute; reflexivity) b Hb) as H.
  cbv beta in H.
  destruct (codes (hex2 b)) as [|h [|l [|]]]; try discriminate.
  apply andb_prop in H as [H Hv]. apply andb_prop in H as [Hh Hl].
  apply negb_true_iff, Z.eqb_neq in Hh, Hl.
  split.
  - unfold remove_colons. cbn [app]. rewrite !filter_cons.
    destruct (decide (h <> 58)); [|contradiction].
    destruct (decide (l <> 58)); [|contradiction]. reflexivity.
  - intros tail. cbn [app unhexlify].
    destruct (hex_value h) as [hv|]; [|discriminate].
    destruct (hex_value l) as [lv|]; [|discriminate].
    apply Z.eqb_eq in Hv. rewrite Hv. reflexivity.
Qed.

Lemma join_cons (sep s : string) (parts : list string) :
  parts <> [] ->
  join sep (s :: parts) = String.append s (String.append sep (join sep parts)).
Proof. destruct parts; [contradiction|reflexivity]. Qed.

Lemma join_one (sep s : string) : join sep [s] = s.
Proof. reflexivity. Qed.

Lemma append_empty (s : string) : String.append s "" = s.
Proof.
  induction s as [|c s IH]; [reflexivity|].
  change (String c (String.append s "") = String c s). rewrite IH. reflexivity.
Qed.

(** The text of an address is read back as its bytes. *)
Lemma unhex_addr_text (bs : list Z) :
  Forall is_byte bs ->
  unhexlify (remove_colons (codes (addr_text bs))) = Ok bs.
Proof.
  unfold addr_text. induction bs as [|b bs IH]; intros Hbs; [reflexivity|].
  apply Forall_cons in Hbs as [Hb Hbs]. cbn [map].
  destruct bs as [|b' bs].
  - cbn [map]. rewrite join_one.
    rewrite <- (app_nil_r (codes (hex2 b))).
    destruct (unhex_hex2 b [] Hb) as [Hrm Hun]. rewrite Hrm, Hun. reflexivity.
  - rewrite join_cons by discriminate. rewrite !codes_app.
    destruct (unhex_hex2 b (codes ":" ++ codes (join ":" (map hex2 (b' :: bs)))) Hb)
      as [Hrm Hun].
    rewrite Hrm, Hun. change (codes ":") with [58]. cbn [app].
    unfold remove_colons at 1. rewrite filter_cons.
    destruct (decide (58 <> 58)) as [Hc|_]; [contradiction|].
    fold (remove_colons (codes (join ":" (map hex2 (b' :: bs))))).
    rewrite (IH Hbs). reflexivity.
Qed.

Lemma split_whole (sep : ascii) (s : string) :
  has_char sep s = false -> split sep s = [s].
Proof.
  induction s as [|c s IH]; intros H; [reflexivity|].
  cbn [has_char] in H. apply orb_false_elim in H as [Hc Hs].
  cbn [split]. rewrite Hc, (IH Hs). reflexivity.
Qed.

Lemma split_append (sep : ascii) (s rest : string) :
  has_char sep s = false ->
  split sep (String.append s (String sep rest)) = s :: split sep rest.
Proof.
  induction s as [|c s IH]; intros H.
  - change (split sep (String sep rest) = "" :: split sep rest).
    cbn [split]. rewrite Ascii.eqb_refl. reflexivity.
  - cbn [has_char] in H. apply orb_false_elim in H as [Hc Hs].
    change (String.append (String c s) (String sep rest))
      with (String c (String.append s (String sep rest))).
    cbn [split]. rewrite Hc, (IH Hs). reflexivity.
Qed.

(** The decimal text of a byte has no dot and is read back as the byte. *)
Lemma str_of_byte_int (b : Z) :
  is_byte b ->
  has_char "." (str_of_byte b) = false
  /\ py_int 10 (str_of_byte b) = Ok b.
Proof.
  intros Hb.
  pose proof (byte_cases
    (fun b => negb (has_char "." (str_of_byte b))
              && match py_int 10 (str_of_byte b) with
                 | Ok z => z =? b
                 | Raise _ => false
                 end) ltac:(vm_compute; reflexivity) b Hb) as H.
  cbv beta in H. apply andb_prop in H as [Hdot Hint].
  apply negb_true_iff in Hdot. split; [exact Hdot|].
  destruct (py_int 10 (str_of_byte b)) as [z|]; [|discriminate].
  apply Z.eqb_eq in Hint. rewrite Hint. reflexivity.
Qed.

Lemma split_ipv4_text (bs : list Z) :
  Forall is_byte bs -> bs <> [] ->
  split "." (ipv4_text bs) = map str_of_byte bs.
Proof.
  unfold ipv4_text. induction bs as [|b bs IH]; intros Hbs Hne; [contradiction|].
  apply Forall_cons in Hbs as [Hb Hbs]. destruct (str_of_byte_int b Hb) as [Hdot _].
  destruct bs as [|b' bs].
  - cbn [map]. rewrite join_one. apply split_whole. exact Hdot.
  - cbn [map]. rewrite join_cons by discriminate.
    change (String.append "." ?s) with (String "."%char s).
    rewrite split_append by exact Hdot.
    f_equal. apply (IH Hbs). discriminate.
Qed.

Lemma pack_ipv4_text (bs : list Z) :
  Forall is_byte bs -> bs <> [] ->
  pack_ipv4 (PStr (ipv4_text bs)) = Ok bs.
Proof.
  intros Hbs Hne. unfold pack_ipv4. rewrite split_ipv4_text by assumption.
  clear Hne.
  assert (H : mapM (fun part => do n <- py_int 10 part; pack_int false 1 (PInt n))
                   (map str_of_byte bs) = Ok (map (fun b => [b]) bs)).
  { induction Hbs as [|b bs Hb Hbs IH]; [reflexivity|].
    cbn [map mapM]. destruct (str_of_byte_int b Hb) as [_ Hint].
    rewrite Hint. cbn [rbind].
    pose proof (pack_byte b ltac:(unfold is_byte in Hb; lia)) as Hp.
    unfold pack_one in Hp. cbn [code_size rbind code_signed] in Hp. rewrite Hp.
    cbn [rbind]. rewrite IH. reflexivity. }
  rewrite H. cbn [rbind]. f_equal.
  clear. induction bs as [|b bs IH]; [reflexivity|]. cbn [map concat app]. rewrite IH.
  reflexivity.
Qed.

(** ** One field through the packers and the unpackers *)

Lemma plain_serialize (p : ApiParameter) (z : Z) enums defines :
  truthy (validator_id p) = false ->
  Serializer_convertEnumDefine p (PInt z) enums defines = Ok z.
Proof.
  intros H. unfold Serializer_convertEnumDefine, convertEnumDefine_with.
  rewrite H. reflexivity.
Qed.

Lemma plain_deserialize (p : ApiParameter) (v : pyval) enums defines :
  truthy (validator_id p) = false ->
  Deserializer_convertEnumDefine p v enums defines = Ok v.
Proof.
  intros H. unfold Deserializer_convertEnumDefine.
  destruct (validator_id p); [rewrite H|]; reflexivity.
Qed.

Lemma nonempty_length {A : Type} (l : list A) : (0 < length l)%nat -> l <> [].
Proof. destruct l; cbn; [lia|discriminate]. Qed.

Lemma pack_s_exact (n : Z) (bs : list Z) :
  Z.of_nat (length bs) = n -> pack_one (Cs n) (PBytes bs) = Ok bs.
Proof.
  intros <-. unfold pack_one, pack_s.
  destruct (Z.leb_spec 0 (Z.of_nat (length bs))); [|lia].
  rewrite Nat2Z.id, take_app_length. reflexivity.
Qed.

Lemma unpack_s_exact (n : Z) (bs : list Z) :
  Z.of_nat (length bs) = n ->
  calcsize [Cs n] = Ok (length bs) /\ unpack_items [Cs n] bs = Ok [PBytes bs].
Proof.
  intros <-. cbn [calcsize unpack_items code_size].
  destruct (Z.leb_spec 0 (Z.of_nat (length bs))); [|lia].
  rewrite Nat2Z.id. cbn [rbind]. rewrite Nat.add_0_r, firstn_all. auto.
Qed.

(** An integer field. *)
Lemma int_field (c : code) (n : nat) (z : Z) :
  (c = Cb \/ c = CB \/ c = Ch \/ c = CH \/ c = Ci \/ c = CI \/ c = Cq \/ c = CQ) ->
  code_size c = Ok n ->
  (if code_signed c then - (int_modulus n / 2) <= z < int_modulus n / 2
   else 0 <= z < int_modulus n) ->
  exists bs, pack_one c (PInt z) = Ok bs /\ bs <> []
             /\ calcsize [c] = Ok (length bs)
             /\ unpack_items [c] bs = Ok [PInt z].
Proof.
  intros Hc Hn Hz.
  assert (Hpos : (0 < n)%nat)
    by (destruct Hc as [->|[->|[->|[->|[->|[->|[->| ->]]]]]]];
        cbn in Hn; injection Hn as <-; lia).
  destruct (pack_unpack_int (code_signed c) n z Hpos Hz) as (bs & Hp & Hl & Hu).
  exists bs.
  assert (Hpack : pack_one c (PInt z) = Ok bs)
    by (destruct Hc as [->|[->|[->|[->|[->|[->|[->| ->]]]]]]];
        unfold pack_one; rewrite Hn; exact Hp).
  split; [exact Hpack|]. split; [apply nonempty_length; lia|].
  split.
  - cbn [calcsize]. rewrite Hn. cbn [rbind]. rewrite Nat.add_0_r, Hl. reflexivity.
  - cbn [unpack_items]. rewrite Hn. cbn [rbind]. rewrite <- Hl, firstn_all, Hu.
    destruct Hc as [->|[->|[->|[->|[->|[->|[->| ->]]]]]]]; reflexivity.
Qed.

Lemma modulus_values :
  int_modulus 1 = 256 /\ int_modulus 2 = 65536
  /\ int_modulus 4 = 4294967296 /\ int_modulus 8 = 18446744073709551616.
Proof. repeat split. Qed.

Lemma half_values :
  256 / 2 = 128 /\ 65536 / 2 = 32768
  /\ 4294967296 / 2 = 2147483648 /\ 18446744073709551616 / 2 = 9223372036854775808.
Proof. repeat split. Qed.

Ltac int_range_goal :=
  let M1 := fresh in let M2 := fresh in let M4 := fresh in let M8 := fresh in
  let D1 := fresh in let D2 := fresh in let D4 := fresh in let D8 := fresh in
  cbn [code_signed];
  destruct modulus_values as (M1 & M2 & M4 & M8);
  destruct half_values as (D1 & D2 & D4 & D8);
  rewrite ?M1, ?M2, ?M4, ?M8, ?D1, ?D2, ?D4, ?D8;
  lia.

Ltac int_format c n f Hplain Hfmt Hdom enums defines :=
  cbn [in_domain int_range] in Hdom;
  destruct Hdom as (z & -> & Hz);
  destruct (int_field c n z) as (bs & Hp & Hne & Hcs & Hu);
  [tauto | reflexivity | int_range_goal |];
  exists c, (PInt z), bs; exists f, [c], (PInt z);
  split; [exact Hfmt|];
  split; [cbn [packer]; rewrite (plain_serialize _ z enums defines Hplain); reflexivity|];
  split; [discriminate|];
  split; [exact Hp|];
  split; [exact Hne|];
  split; [intros rest; reflexivity|];
  split; [exact Hcs|];
  split; [exact Hu|];
  split; [reflexivity | apply plain_deserialize; exact Hplain].

Lemma unpack_prefix_1 (n : Z) : unpack_prefix 1 [n] = Ok n.
Proof. unfold unpack_prefix, unpack_int. cbn. f_equal. lia. Qed.

Lemma unpack_prefix_2 (n : Z) :
  0 <= n <= 65535 -> unpack_prefix 2 (le_bytes 2 n) = Ok n.
Proof.
  intros Hn. unfold unpack_prefix. rewrite length_le_bytes. cbn [Nat.eqb].
  unfold unpack_int. cbn [andb]. rewrite le_value_bytes; [reflexivity|].
  destruct modulus_values as (_ & -> & _). lia.
Qed.

Lemma pack_prefix_2 (n : Z) :
  0 <= n <= 65535 -> pack_int false 2 (PInt n) = Ok (le_bytes 2 n).
Proof.
  intros Hn. unfold pack_int. cbv zeta. destruct modulus_values as (_ & -> & _).
  destruct (Z.leb_spec 0 n); [|lia]. destruct (Z.ltb_spec n 65536); [|lia]. reflexivity.
Qed.

Lemma pack_prefix_1 (n : Z) :
  0 <= n <= 255 -> pack_int false 1 (PInt n) = Ok [n].
Proof.
  intros Hn. pose proof (pack_byte n ltac:(lia)) as H. exact H.
Qed.

(** An array field: the length prefix, then the bytes. *)
Lemma array_field (k : nat) (prefix data : list Z) (pads : list code) :
  length prefix = k -> length pads = k -> Forall (fun c => c = Cx) pads ->
  let n := Z.of_nat (length data) in
  pack_one (Cs (n + Z.of_nat k)) (PBytes (prefix ++ data)) = Ok (prefix ++ data)
  /\ calcsize (pads ++ [Cs n]) = Ok (length (prefix ++ data))
  /\ unpack_items (pads ++ [Cs n]) (prefix ++ data) = Ok [PBytes data].
Proof.
  intros Hk Hp Hx n. split; [|split].
  - apply pack_s_exact. rewrite length_app. lia.
  - rewrite length_app, Hk. clear Hk prefix. subst k.
    induction Hx as [|c pads -> _ IH].
    + cbn [app length Nat.add]. apply (unpack_s_exact n data eq_refl).
    + cbn [app length calcsize code_size rbind]. rewrite IH. reflexivity.
  - rewrite <- Hp in Hk. clear Hp k.
    revert prefix Hk. induction Hx as [|c pads -> _ IH]; intros prefix Hk.
    + destruct prefix; [|discriminate]. cbn [app].
      apply (unpack_s_exact n data eq_refl).
    + destruct prefix as [|x prefix]; [discriminate|]. injection Hk as Hk.
      cbn [app unpack_items code_size rbind drop].
      change (drop 0 (prefix ++ data)) with (prefix ++ data).
      rewrite (IH prefix Hk). reflexivity.
Qed.

Lemma take_prefix (k : nat) (pre data rest : list Z) :
  length pre = k -> (k <= 2)%nat -> take k (take 2 ((pre ++ data) ++ rest)) = pre.
Proof.
  intros Hk Hle. rewrite take_take, Nat.min_l by exact Hle.
  rewrite <- app_assoc. apply take_app_length'. symmetry. exact Hk.
Qed.

Ltac raw_format n f bs Hlen Hplain Hfmt :=
  destruct (unpack_s_exact n bs Hlen) as [Hcs Hu];
  exists (Cs n), (PBytes bs), bs; exists f, [Cs n], (PBytes bs);
  split; [exact Hfmt|];
  split; [reflexivity|];
  split; [discriminate|];
  split; [apply pack_s_exact; exact Hlen|];
  split; [apply nonempty_length; lia|];
  split; [intros rest; reflexivity|];
  split; [exact Hcs|];
  split; [exact Hu|];
  split; [reflexivity | apply plain_deserialize; exact Hplain].

(** Every format: a value of the format, for a parameter without a
    validator, is packed into at least one byte, and these bytes are
    unpacked and converted into the value. *)
Lemma field_roundtrip (p : ApiParameter) (v : pyval)
    (enums : gmap string ApiEnum) (defines : gmap string ApiDefine) :
  plain_value p v -> exists c val bytes, field_codec p v enums defines c val bytes.
Proof.
  intros (Hplain & f & Hfmt & Hdom). unfold field_codec.
  destruct f.
  - int_format Cb 1%nat Fint8 Hplain Hfmt Hdom enums defines.
  - int_format CB 1%nat Fuint8 Hplain Hfmt Hdom enums defines.
  - int_format Ch 2%nat Fint16 Hplain Hfmt Hdom enums defines.
  - int_format CH 2%nat Fuint16 Hplain Hfmt Hdom enums defines.
  - int_format Ci 4%nat Fint32 Hplain Hfmt Hdom enums defines.
  - int_format CI 4%nat Fuint32 Hplain Hfmt Hdom enums defines.
  - int_format Cq 8%nat Fint64 Hplain Hfmt Hdom enums defines.
  - int_format CQ 8%nat Fuint64 Hplain Hfmt Hdom enums defines.
  - (* uint8array *)
    destruct Hdom as (data & -> & Hlen).
    set (n := Z.of_nat (length data)) in *.
    destruct (array_field 1 [n] data [Cx] eq_refl eq_refl ltac:(repeat constructor))
      as (Hp & Hcs & Hu). fold n in Hp, Hcs, Hu.
    exists (Cs (n + 1)), (PBytes ([n] ++ data)), ([n] ++ data).
    exists Fuint8array, [Cx; Cs n], (PBytes data).
    split; [exact Hfmt|].
    split. { cbn [packer to_bytes py_len rbind]. fold n. rewrite pack_prefix_1 by lia.
             reflexivity. }
    split; [discriminate|]. split; [exact Hp|]. split; [discriminate|].
    split. { intros rest. cbn [unpacker]. rewrite take_prefix by (cbn; lia).
             rewrite unpack_prefix_1. reflexivity. }
    split; [exact Hcs|]. split; [exact Hu|].
    split; [reflexivity | apply plain_deserialize; exact Hplain].
  - (* uint16array *)
    destruct Hdom as (data & -> & Hlen).
    set (n := Z.of_nat (length data)) in *.
    destruct (array_field 2 (le_bytes 2 n) data [Cx; Cx] (length_le_bytes 2 n) eq_refl
                ltac:(repeat constructor)) as (Hp & Hcs & Hu). fold n in Hp, Hcs, Hu.
    exists (Cs (n + 2)), (PBytes (le_bytes 2 n ++ data)), (le_bytes 2 n ++ data).
    exists Fuint16array, [Cx; Cx; Cs n], (PBytes data).
    split; [exact Hfmt|].
    split. { cbn [packer to_bytes py_len rbind]. fold n. rewrite pack_prefix_2 by lia.
             reflexivity. }
    split; [discriminate|]. split; [exact Hp|].
    split. { apply nonempty_length. rewrite length_app, length_le_bytes. lia. }
    split. { intros rest. cbn [unpacker].
             rewrite take_prefix by (rewrite ?length_le_bytes; lia).
             rewrite unpack_prefix_2 by lia. reflexivity. }
    split; [exact Hcs|]. split; [exact Hu|].
    split; [reflexivity | apply plain_deserialize; exact Hplain].
  - (* bd_addr *)
    destruct Hdom as (bs & -> & Hlen & Hbs).
    assert (Hrev : Z.of_nat (length (rev bs)) = 6) by (rewrite length_rev; lia).
    destruct (unpack_s_exact 6 (rev bs) Hrev) as [Hcs Hu].
    exists (Cs 6), (PBytes (rev bs)), (rev bs). exists Fbd_addr, [Cs 6], (PBytes (rev bs)).
    split; [exact Hfmt|].
    split. { cbn [packer to_bytes rbind]. rewrite unhex_addr_text by exact Hbs. reflexivity. }
    split; [discriminate|]. split; [apply pack_s_exact; exact Hrev|].
    split; [apply nonempty_length; lia|].
    split; [intros rest; reflexivity|].
    split; [exact Hcs|]. split; [exact Hu|].
    split; [cbn [converter]; rewrite rev_involutive; reflexivity
           | apply plain_deserialize; exact Hplain].
  - (* hw_addr *)
    destruct Hdom as (bs & -> & Hlen & Hbs).
    assert (Hlen' : Z.of_nat (length bs) = 6) by lia.
    destruct (unpack_s_exact 6 bs Hlen') as [Hcs Hu].
    exists (Cs 6), (PBytes bs), bs. exists Fhw_addr, [Cs 6], (PBytes bs).
    split; [exact Hfmt|].
    split. { cbn [packer to_bytes rbind]. rewrite unhex_addr_text by exact Hbs. reflexivity. }
    split; [discriminate|]. split; [apply pack_s_exact; exact Hlen'|].
    split; [apply nonempty_length; lia|].
    split; [intros rest; reflexivity|].
    split; [exact Hcs|]. split; [exact Hu|].
    split; [reflexivity | apply plain_deserialize; exact Hplain].
  - (* ipv4 *)
    destruct Hdom as (bs & -> & Hlen & Hbs).
    assert (Hlen' : Z.of_nat (length bs) = 4) by lia.
    destruct (unpack_s_exact 4 bs Hlen') as [Hcs Hu].
    exists (Cs 4), (PBytes bs), bs. exists Fipv4, [Cs 4], (PBytes bs).
    split; [exact Hfmt|].
    split. { cbn [packer]. rewrite pack_ipv4_text;
               [reflexivity | exact Hbs | apply nonempty_length; lia]. }
    split; [discriminate|]. split; [apply pack_s_exact; exact Hlen'|].
    split; [apply nonempty_length; lia|].
    split; [intros rest; reflexivity|].
    split; [exact Hcs|]. split; [exact Hu|].
    split; [reflexivity | apply plain_deserialize; exact Hplain].
  - destruct Hdom as (bs & -> & Hlen).
    assert (Hlen' : Z.of_nat (length bs) = 16) by lia.
    raw_format 16 Fuuid_128 bs Hlen' Hplain Hfmt.
  - destruct Hdom as (bs & -> & Hlen).
    assert (Hlen' : Z.of_nat (length bs) = 16) by lia.
    raw_format 16 Faes_key_128 bs Hlen' Hplain Hfmt.
  - destruct Hdom as (bs & -> & Hlen).
    assert (Hlen' : Z.of_nat (length bs) = 8) by lia.
    raw_format 8 Fsl_bt_uuid_64_t bs Hlen' Hplain Hfmt.
  - destruct Hdom as (bs & -> & Hlen).
    assert (Hlen' : Z.of_nat (length bs) = 2) by lia.
    raw_format 2 Fsl_bt_uuid_16_t bs Hlen' Hplain Hfmt.
  - destruct Hdom as (bs & -> & Hlen & Hpos).
    raw_format (type_length (param_datatype p)) Fbyte_array bs Hlen Hplain Hfmt.
Qed.

(** ** A parameter list through [_parseParameters] and [parse] *)

Lemma fields_of_plain enums defines (ps : list ApiParameter) (vs : list pyval) :
  Forall2 plain_value ps vs ->
  exists cs vals chunks, fields_codec enums defines ps vs cs vals chunks.
Proof.
  induction 1 as [|p v ps vs Hp _ (cs & vals & chunks & IH)].
  - exists [], [], []. constructor.
  - destruct (field_roundtrip p v enums defines Hp) as (c & val & bytes & Hf).
    exists (c :: cs), (val :: vals), (bytes :: chunks). constructor; assumption.
Qed.

Lemma pack_one_size (c : code) (v : pyval) (bytes : list Z) :
  pack_one c v = Ok bytes -> code_size c = Ok (length bytes).
Proof.
  destruct c as [| | | | | | | |n|]; cbn [pack_one code_size rbind]; intros H;
    try (unfold pack_int in H; cbv zeta in H; cbn [code_signed] in H;
         destruct v as [z| | |]; try discriminate;
         repeat match type of H with
                | (if ?b then _ else _) = _ => destruct b; try discriminate
                end;
         injection H as <-; reflexivity).
  - unfold pack_s in H. destruct v as [| |bs|]; try discriminate.
    destruct (0 <=? n); [|discriminate]. injection H as <-.
    rewrite length_take, length_app, length_replicate. f_equal. lia.
Qed.

(** Serialization of the fields: the format, the values, the payload. *)
Lemma serialize_fields enums defines ps vs cs vals chunks :
  fields_codec enums defines ps vs cs vals chunks ->
  _parseParameters vs ps enums defines = Ok (cs, vals)
  /\ calcsize cs = Ok (length (concat chunks))
  /\ struct_pack cs vals = Ok (concat chunks).
Proof.
  intros H.
  assert (Hlen : length vs = length ps)
    by (induction H; cbn [length]; congruence).
  unfold _parseParameters. rewrite Hlen, Nat.eqb_refl. cbn [negb].
  assert (Hmap : mapM (fun '(apiparam, val) =>
                         do f <- lookup_format (param_format apiparam);
                         packer (fun p v => Serializer_convertEnumDefine p v enums defines)
                                f apiparam val)
                      (zip ps vs) = Ok (zip cs vals)
                 /\ map fst (zip cs vals) = cs /\ map snd (zip cs vals) = vals
                 /\ calcsize cs = Ok (length (concat chunks))
                 /\ struct_pack cs vals = Ok (concat chunks)).
  { clear Hlen. induction H as [|p v c val bytes ps vs cs vals chunks Hf _ IH].
    - repeat split.
    - destruct IH as (IH1 & IH2 & IH3 & IH4 & IH5).
      destruct Hf as (f & piece & raw & Hfmt & Hpk & Hcx & Hp1 & _).
      pose proof (pack_one_size c val bytes Hp1) as Hsz.
      split; [|split; [|split; [|split]]].
      + cbn [zip zip_with mapM]. rewrite Hfmt. cbn [rbind]. rewrite Hpk. cbn [rbind].
        rewrite IH1. reflexivity.
      + cbn [zip zip_with map fst]. f_equal. exact IH2.
      + cbn [zip zip_with map snd]. f_equal. exact IH3.
      + cbn [calcsize concat]. rewrite Hsz. cbn [rbind]. rewrite IH4. cbn [rbind].
        rewrite length_app. reflexivity.
      + cbn [concat]. destruct c; try contradiction;
          cbn [struct_pack]; rewrite Hp1; cbn [rbind]; rewrite IH5; reflexivity. }
  destruct Hmap as (H1 & H2 & H3 & Hc & Hs).
  setoid_rewrite H1. cbn [rbind]. rewrite H2, H3. auto.
Qed.

Lemma calcsize_inv (c : code) (fmt : list code) (n : nat) :
  calcsize (c :: fmt) = Ok n ->
  exists a b, code_size c = Ok a /\ calcsize fmt = Ok b /\ n = (a + b)%nat.
Proof.
  cbn [calcsize]. destruct (code_size c) as [a|]; [|discriminate]. cbn [rbind].
  destruct (calcsize fmt) as [b|]; [|discriminate]. cbn [rbind].
  intros [= <-]. eauto.
Qed.

Lemma calcsize_app (f1 f2 : list code) (a b : nat) :
  calcsize f1 = Ok a -> calcsize f2 = Ok b -> calcsize (f1 ++ f2) = Ok (a + b)%nat.
Proof.
  revert a. induction f1 as [|c f1 IH]; intros a H1 H2.
  - injection H1 as <-. exact H2.
  - apply calcsize_inv in H1 as (x & y & Hx & Hy & ->).
    cbn [app calcsize]. rewrite Hx. cbn [rbind]. rewrite (IH y Hy H2). cbn [rbind].
    f_equal. lia.
Qed.

Lemma unpack_items_app (f1 : list code) :
  forall (f2 : list code) (b1 b2 : list Z) (v1 v2 : list pyval),
    calcsize f1 = Ok (length b1) ->
    unpack_items f1 b1 = Ok v1 -> unpack_items f2 b2 = Ok v2 ->
    unpack_items (f1 ++ f2) (b1 ++ b2) = Ok (v1 ++ v2).
Proof.
  induction f1 as [|c f1 IH]; intros f2 b1 b2 v1 v2 Hsize H1 H2.
  - injection Hsize as Hsize. destruct b1; [|discriminate]. injection H1 as <-. exact H2.
  - apply calcsize_inv in Hsize as (x & y & Hx & Hy & Hlen).
    cbn [app unpack_items] in *. rewrite Hx in *. cbn [rbind] in *.
    destruct (unpack_items f1 (drop x b1)) as [w|] eqn:Hw; [|discriminate].
    cbn [rbind] in H1.
    rewrite drop_app_le by lia. rewrite take_app_le by lia.
    rewrite (IH f2 (drop x b1) b2 w v2); [|rewrite length_drop, Hy; f_equal; lia|exact Hw|exact H2].
    cbn [rbind]. destruct c; injection H1 as <-; reflexivity.
Qed.

(** Deserialization of the fields: the first loop reaches the end of the
    payload without a warning, and the values come back. *)
Lemma decode_fields enums defines ps vs cs vals chunks :
  fields_codec enums defines ps vs cs vals chunks ->
  exists pieces raws,
    (forall doc pre fmt,
       scan_params doc ps (pre ++ concat chunks) (length pre) fmt
       = ([], Ok (fmt ++ pieces, (length pre + length (concat chunks))%nat)))
    /\ calcsize pieces = Ok (length (concat chunks))
    /\ unpack_items pieces (concat chunks) = Ok raws
    /\ length raws = length ps
    /\ mapM (fun '(param, apiparam) =>
               do f <- lookup_format (param_format apiparam); converter f param)
            (zip raws ps) = Ok vs
    /\ mapM (fun '(apiparam, param) =>
               Deserializer_convertEnumDefine apiparam param enums defines)
            (zip ps vs) = Ok vs.
Proof.
  induction 1 as [|p v c val bytes ps vs cs vals chunks Hf _ IH].
  - exists [], []. split; [|repeat split].
    intros doc pre fmt. cbn [scan_params concat]. rewrite !app_nil_r, Nat.add_0_r.
    reflexivity.
  - destruct IH as (pieces & raws & Hscan & Hsize & Hunp & Hlen & Hconv & Hdec).
    destruct Hf as (f & piece & raw & Hfmt & _ & _ & _ & Hne & Hun & Hcs & Hu & Hcv & Hdc).
    exists (piece ++ pieces), (raw :: raws).
    split; [|split; [|split; [|split; [|split]]]].
    + intros doc pre fmt. cbn [scan_params concat].
      assert (Hpos : (0 < length bytes)%nat) by (destruct bytes; [contradiction|cbn; lia]).
      destruct (Nat.leb_spec (length (pre ++ bytes ++ concat chunks)) (length pre)) as [Hle|_].
      { rewrite !length_app in Hle. lia. }
      rewrite Hfmt. cbn [rbind]. rewrite drop_app_length, Hun. cbn [rbind].
      rewrite Hcs. cbn [rbind].
      replace (length pre + length bytes)%nat with (length (pre ++ bytes))
        by apply length_app.
      rewrite (app_assoc pre bytes), Hscan.
      rewrite <- app_assoc, !length_app. do 3 f_equal. lia.
    + cbn [concat]. rewrite length_app. apply calcsize_app; assumption.
    + cbn [concat]. apply (unpack_items_app piece pieces bytes (concat chunks) [raw] raws);
        assumption.
    + cbn [length]. congruence.
    + cbn [zip zip_with mapM]. rewrite Hfmt. cbn [rbind]. rewrite Hcv. cbn [rbind].
      fold (zip raws ps). rewrite Hconv. reflexivity.
    + cbn [zip zip_with mapM]. rewrite Hdc. cbn [rbind]. fold (zip ps vs).
      rewrite Hdec. reflexivity.
Qed.

(** The payload of a parameter list is parsed back into the arguments,
    without a warning. *)
Lemma payload_roundtrip enums defines ps vs (enumdefines : bool) :
  Forall2 plain_value ps vs ->
  exists pack_format params payload,
    _parseParameters vs ps enums defines = Ok (pack_format, params)
    /\ calcsize pack_format = Ok (length payload)
    /\ struct_pack pack_format params = Ok payload
    /\ forall doc, parse_params doc ps payload enums defines enumdefines = ([], Ok vs).
Proof.
  intros Hplain.
  destruct (fields_of_plain enums defines ps vs Hplain) as (cs & vals & chunks & Hf).
  destruct (serialize_fields _ _ _ _ _ _ _ Hf) as (Hpp & Hcalc & Hpack).
  destruct (decode_fields _ _ _ _ _ _ _ Hf)
    as (pieces & raws & Hscan & Hsize & Hunp & Hlen & Hconv & Hdec).
  exists cs, vals, (concat chunks).
  split; [exact Hpp|]. split; [exact Hcalc|]. split; [exact Hpack|].
  intros doc. unfold parse_params.
  specialize (Hscan doc [] []). cbn [app length Nat.add] in Hscan. rewrite Hscan.
  rewrite Nat.ltb_irrefl. cbn [app].
  f_equal. unfold struct_unpack. rewrite Hsize. cbn [rbind]. rewrite Nat.eqb_refl.
  rewrite Hunp. cbn [rbind]. rewrite Hlen, Nat.sub_diag. cbn [replicate].
  rewrite app_nil_r, Hconv. cbn [rbind].
  destruct enumdefines; [exact Hdec | reflexivity].
Qed.



(** ** Payloads shorter or longer than the parameter list *)

Lemma mapM_app {A B : Type} (f : A -> result B) (l1 l2 : list A) (r1 r2 : list B) :
  mapM f l1 = Ok r1 -> mapM f l2 = Ok r2 -> mapM f (l1 ++ l2) = Ok (r1 ++ r2).
Proof.
  revert r1. induction l1 as [|x l1 IH]; intros r1 H1 H2.
  - injection H1 as <-. exact H2.
  - cbn [mapM app] in *. destruct (f x) as [y|]; [|discriminate]. cbn [rbind] in *.
    destruct (mapM f l1) as [ys|]; [|discriminate]. cbn [rbind] in *.
    injection H1 as <-. rewrite (IH ys eq_refl H2). reflexivity.
Qed.

Lemma mapM_app_inv {A B : Type} (f : A -> result B) (l1 l2 : list A) (r : list B) :
  mapM f (l1 ++ l2) = Ok r ->
  exists r1 r2, mapM f l1 = Ok r1 /\ mapM f l2 = Ok r2 /\ r = r1 ++ r2.
Proof.
  revert r. induction l1 as [|x l1 IH]; intros r H.
  - exists [], r. auto.
  - cbn [mapM app] in *. destruct (f x) as [y|]; [|discriminate]. cbn [rbind] in *.
    destruct (mapM f (l1 ++ l2)) as [ys|] eqn:E; [|discriminate]. cbn [rbind] in H.
    injection H as <-. destruct (IH ys eq_refl) as (r1 & r2 & -> & -> & ->).
    exists (y :: r1), r2. auto.
Qed.

Lemma mapM_length {A B : Type} (f : A -> result B) (l : list A) (r : list B) :
  mapM f l = Ok r -> length r = length l.
Proof.
  revert r. induction l as [|x l IH]; intros r H.
  - injection H as <-. reflexivity.
  - cbn [mapM] in H. destruct (f x) as [y|]; [|discriminate]. cbn [rbind] in H.
    destruct (mapM f l) as [ys|]; [|discriminate]. injection H as <-.
    cbn [length]. rewrite (IH ys eq_refl). reflexivity.
Qed.

Lemma count_values_app (f1 f2 : list code) :
  count_values (f1 ++ f2) = (count_values f1 + count_values f2)%nat.
Proof.
  induction f1 as [|c f1 IH]; [reflexivity|].
  destruct c; cbn [app count_values]; rewrite IH; reflexivity.
Qed.

Lemma unpack_items_length (fmt : list code) :
  forall buf vs, unpack_items fmt buf = Ok vs -> length vs = count_values fmt.
Proof.
  induction fmt as [|c fmt IH]; intros buf vs H.
  - injection H as <-. reflexivity.
  - cbn [unpack_items] in H. destruct (code_size c) as [n|]; [|discriminate].
    cbn [rbind] in H.
    destruct (unpack_items fmt (drop n buf)) as [ws|] eqn:E; [|discriminate].
    cbn [rbind] in H. apply IH in E.
    destruct c; injection H as <-; cbn [length count_values]; congruence.
Qed.

Lemma unpacker_one_value (f : wire_format) (p : ApiParameter) (x : list Z) (piece : list code) :
  unpacker f p x = Ok piece -> count_values piece = 1%nat.
Proof.
  destruct f; cbn [unpacker]; intros H;
    try (injection H as <-; reflexivity);
    (destruct (unpack_prefix _ _); [|discriminate]; injection H as <-; reflexivity).
Qed.

(** A step of the first loop that goes on to the next parameter. *)
Lemma scan_cons doc p ps payload pos fmt fmt' pos' :
  scan_params doc (p :: ps) payload pos fmt = ([], Ok (fmt', pos')) ->
  (pos < length payload)%nat
  /\ exists f piece n,
       lookup_format (param_format p) = Ok f
       /\ unpacker f p (take 2 (drop pos payload)) = Ok piece
       /\ calcsize piece = Ok n
       /\ scan_params doc ps payload (pos + n) (fmt ++ piece) = ([], Ok (fmt', pos')).
Proof.
  cbn [scan_params]. destruct (Nat.leb_spec (length payload) pos) as [|Hlt]; [discriminate|].
  intros H. split; [exact Hlt|].
  destruct (lookup_format (param_format p)) as [f|]; [|discriminate]. cbn [rbind] in H.
  destruct (unpacker f p _) as [piece|] eqn:Hu; [|discriminate]. cbn [rbind] in H.
  destruct (calcsize piece) as [n|] eqn:Hc; [|discriminate]. cbn [rbind] in H.
  exists f, piece, n. auto.
Qed.

Lemma scan_step doc p ps payload pos fmt f piece n :
  (pos < length payload)%nat ->
  lookup_format (param_format p) = Ok f ->
  unpacker f p (take 2 (drop pos payload)) = Ok piece ->
  calcsize piece = Ok n ->
  scan_params doc (p :: ps) payload pos fmt
  = scan_params doc ps payload (pos + n) (fmt ++ piece).
Proof.
  intros Hlt Hf Hu Hc. cbn [scan_params].
  destruct (Nat.leb_spec (length payload) pos); [lia|].
  rewrite Hf. cbn [rbind]. rewrite Hu. cbn [rbind]. rewrite Hc. reflexivity.
Qed.

Lemma scan_invariant doc ps :
  forall payload pos fmt fmt' pos',
    scan_params doc ps payload pos fmt = ([], Ok (fmt', pos')) ->
    calcsize fmt = Ok pos ->
    calcsize fmt' = Ok pos'
    /\ count_values fmt' = (count_values fmt + length ps)%nat.
Proof.
  induction ps as [|p ps IH]; intros payload pos fmt fmt' pos' H Hc.
  - injection H as <- <-. cbn [length]. rewrite Nat.add_0_r. auto.
  - apply scan_cons in H as (_ & f & piece & n & _ & Hu & Hn & H).
    destruct (IH _ _ _ _ _ H (calcsize_app _ _ _ _ Hc Hn)) as [H1 H2].
    split; [exact H1|]. rewrite H2, count_values_app, (unpacker_one_value _ _ _ _ Hu).
    cbn [length]. lia.
Qed.

(** Parameters after the end of the payload are reported missing. *)
Lemma scan_app doc ps rest :
  forall payload pos fmt fmt' pos',
    scan_params doc ps payload pos fmt = ([], Ok (fmt', pos')) ->
    scan_params doc (ps ++ rest) payload pos fmt = scan_params doc rest payload pos' fmt'.
Proof.
  induction ps as [|p ps IH]; intros payload pos fmt fmt' pos' H.
  - injection H as <- <-. reflexivity.
  - apply scan_cons in H as (Hlt & f & piece & n & Hf & Hu & Hn & H).
    cbn [app]. rewrite (scan_step _ _ _ _ _ _ f piece n) by assumption.
    apply IH. exact H.
Qed.

Lemma scan_stop doc rest payload pos fmt :
  rest <> [] -> (length payload <= pos)%nat ->
  scan_params doc rest payload pos fmt
  = ([WarnMissing doc (map param_name rest)], Ok (fmt, pos)).
Proof.
  intros Hne Hle. destruct rest as [|p rest]; [contradiction|].
  cbn [scan_params]. destruct (Nat.leb_spec (length payload) pos); [reflexivity|lia].
Qed.

(** Bytes after the payload do not change what the first loop reads. *)
Lemma unpacker_extend (f : wire_format) (p : ApiParameter) (payload extra : list Z)
    (pos : nat) (piece : list code) :
  (pos < length payload)%nat ->
  unpacker f p (take 2 (drop pos payload)) = Ok piece ->
  unpacker f p (take 2 (drop pos (payload ++ extra))) = Ok piece.
Proof.
  intros Hlt. rewrite drop_app_le by lia.
  assert (Hne : exists b tl, drop pos payload = b :: tl).
  { destruct (drop pos payload) as [|b tl] eqn:E; [|eauto].
    apply (f_equal length) in E. rewrite length_drop in E. cbn in E. lia. }
  destruct Hne as (b & tl & ->).
  destruct f; cbn [unpacker]; try (intros H; exact H).
  - (* uint16array: two bytes must be there *)
    destruct tl as [|b' tl]; [discriminate|]. intros H; exact H.
Qed.

Lemma scan_extend doc ps extra :
  forall payload pos fmt fmt' pos',
    scan_params doc ps payload pos fmt = ([], Ok (fmt', pos')) ->
    scan_params doc ps (payload ++ extra) pos fmt = ([], Ok (fmt', pos')).
Proof.
  induction ps as [|p ps IH]; intros payload pos fmt fmt' pos' H.
  - exact H.
  - apply scan_cons in H as (Hlt & f & piece & n & Hf & Hu & Hn & H).
    rewrite (scan_step _ _ _ _ _ _ f piece n); try assumption.
    + apply IH. exact H.
    + rewrite length_app. lia.
    + apply unpacker_extend; assumption.
Qed.

(** What a parse without a warning went through. *)
Lemma parse_params_inv doc ps payload enums defines (enumdefines : bool) vals :
  parse_params doc ps payload enums defines enumdefines = ([], Ok vals) ->
  exists fmt raws cvals,
    scan_params doc ps payload 0 [] = ([], Ok (fmt, length payload))
    /\ calcsize fmt = Ok (length payload)
    /\ unpack_items fmt payload = Ok raws
    /\ length raws = length ps
    /\ mapM (fun '(param, apiparam) =>
               do f <- lookup_format (param_format apiparam); converter f param)
            (zip raws ps) = Ok cvals
    /\ (if enumdefines
        then mapM (fun '(apiparam, param) =>
                     Deserializer_convertEnumDefine apiparam param enums defines)
                  (zip ps cvals)
        else Ok cvals) = Ok vals.
Proof.
  unfold parse_params.
  destruct (scan_params doc ps payload 0 []) as [w [[fmt pos]|e]] eqn:Hscan;
    [|discriminate].
  destruct (Nat.ltb_spec pos (length payload)) as [Hlt|Hge].
  { intros H. injection H as Hw _. apply app_eq_nil in Hw as [_ Hw]. discriminate. }
  intros H. injection H as Hw H. rewrite app_nil_r in Hw. subst w.
  destruct (scan_invariant _ _ _ _ _ _ _ Hscan eq_refl) as [Hcalc Hcount].
  unfold struct_unpack in H. rewrite Hcalc in H. cbn [rbind] in H.
  destruct (Nat.eqb_spec (length payload) pos) as [Hpos|]; [|discriminate]. subst pos.
  destruct (unpack_items fmt payload) as [raws|] eqn:Hraws; [|discriminate].
  cbn [rbind] in H.
  assert (Hlen : length raws = length ps).
  { rewrite (unpack_items_length _ _ _ Hraws), Hcount. reflexivity. }
  rewrite Hlen, Nat.sub_diag in H. cbn [replicate] in H. rewrite app_nil_r in H.
  destruct (mapM _ (zip raws ps)) as [cvals|] eqn:Hc; [|discriminate].
  cbn [rbind] in H. exists fmt, raws, cvals. auto 10.
Qed.

Lemma missing_converted (enumdefines : bool) enums defines (rest : list ApiParameter) :
  Forall (may_be_missing enumdefines) rest ->
  mapM (fun '(param, apiparam) =>
          do f <- lookup_format (param_format apiparam); converter f param)
       (zip (replicate (length rest) PNone) rest) = Ok (replicate (length rest) PNone)
  /\ (enumdefines = true ->
      mapM (fun '(apiparam, param) =>
              Deserializer_convertEnumDefine apiparam param enums defines)
           (zip rest (replicate (length rest) PNone)) = Ok (replicate (length rest) PNone)).
Proof.
  induction 1 as [|p rest [(f & Hf & H1 & H2 & H3) Hv] _ [IH1 IH2]]; [split; reflexivity|].
  split.
  - cbn [length replicate zip zip_with mapM]. rewrite Hf. cbn [rbind].
    fold (zip (replicate (length rest) PNone) rest). rewrite IH1.
    destruct f; try contradiction; reflexivity.
  - intros He. destruct Hv as [Hv|Hv]; [congruence|].
    cbn [length replicate zip zip_with mapM].
    rewrite (plain_deserialize p PNone enums defines Hv). cbn [rbind].
    fold (zip rest (replicate (length rest) PNone)). rewrite (IH2 He). reflexivity.
Qed.

(** C3, as the code has it. Take a payload that [parse] decodes for the
    parameters [ps] without a warning. With further parameters declared
    after [ps], whose formats pass values through and to which no
    validator is applied, the same payload gives the same values followed
    by one [None] per further parameter, and the warning that names them.
    With further bytes after the payload, the values are unchanged and the
    warning counts the bytes. *)
Theorem parse_length_mismatch doc ps payload enums defines (enumdefines : bool) vals :
  parse_params doc ps payload enums defines enumdefines = ([], Ok vals) ->
  (forall rest, rest <> [] -> Forall (may_be_missing enumdefines) rest ->
     parse_params doc (ps ++ rest) payload enums defines enumdefines
     = ([WarnMissing doc (map param_name rest)],
        Ok (vals ++ replicate (length rest) PNone)))
  /\ (forall extra, extra <> [] ->
        parse_params doc ps (payload ++ extra) enums defines enumdefines
        = ([WarnExtra doc (length extra)], Ok vals)).
Proof.
  intros Hparse.
  destruct (parse_params_inv _ _ _ _ _ _ _ Hparse)
    as (fmt & raws & cvals & Hscan & Hcalc & Hraws & Hlen & Hconv & Hdec).
  assert (Hclen : length cvals = length ps).
  { rewrite (mapM_length _ _ _ Hconv), length_zip_with. lia. }
  split.
  - intros rest Hne Hrest. unfold parse_params.
    rewrite (scan_app _ _ _ _ _ _ _ _ Hscan), scan_stop by (assumption || lia).
    rewrite Nat.ltb_irrefl. cbn [app]. f_equal.
    unfold struct_unpack. rewrite Hcalc. cbn [rbind]. rewrite Nat.eqb_refl, Hraws.
    cbn [rbind]. rewrite length_app, Hlen.
    replace (length ps + length rest - length ps)%nat with (length rest) by lia.
    destruct (missing_converted enumdefines enums defines rest Hrest) as [Hm1 Hm2].
    rewrite zip_with_app by exact Hlen.
    rewrite (mapM_app _ _ _ _ _ Hconv Hm1). cbn [rbind].
    destruct enumdefines.
    + rewrite zip_with_app by (symmetry; exact Hclen).
      apply mapM_app; [exact Hdec | apply Hm2; reflexivity].
    + injection Hdec as <-. reflexivity.
  - intros extra Hne. unfold parse_params.
    rewrite (scan_extend _ _ _ _ _ _ _ _ Hscan).
    assert (Hpos : (0 < length extra)%nat) by (destruct extra; [contradiction|cbn; lia]).
    destruct (Nat.ltb_spec (length payload) (length (payload ++ extra))) as [_|Hge];
      [|rewrite length_app in Hge; lia].
    cbn [app]. rewrite take_app_length, length_app.
    replace (length payload + length extra - length payload)%nat with (length extra) by lia.
    f_equal. unfold struct_unpack. rewrite Hcalc. cbn [rbind]. rewrite Nat.eqb_refl, Hraws.
    cbn [rbind]. rewrite Hlen, Nat.sub_diag. cbn [replicate]. rewrite app_nil_r, Hconv.
    cbn [rbind]. exact Hdec.
Qed.

Lemma parse_length_mismatch_witness :
  parse_params "test_evt_complex_multi_type_event"
               ([param 0 "value1" "uint8"] ++ [param 1 "value2" "uint16"])
               [0x12] ∅ ∅ true
  = ([WarnMissing "test_evt_complex_multi_type_event" ["value2"]],
     Ok ([PInt 0x12] ++ [PNone]))
  /\ parse_params "test_evt_complex_multi_type_event"
                  [param 0 "value1" "uint8"] ([0x12] ++ [0x56; 0x34]) ∅ ∅ true
     = ([WarnExtra "test_evt_complex_multi_type_event" 2], Ok [PInt 0x12]).
Proof.
  destruct (parse_length_mismatch "test_evt_complex_multi_type_event"
              [param 0 "value1" "uint8"] [0x12] ∅ ∅ true [PInt 0x12] eq_refl) as [H1 H2].
  split.
  - apply (H1 [param 1 "value2" "uint16"]); [discriminate|].
    constructor; [|constructor]. split; [|right; reflexivity].
    exists Fuint16. split; [reflexivity|]. repeat split; discriminate.
  - apply (H2 [0x56; 0x34]). discriminate.
Defined.

(** C3 as stated fails: a payload that ends inside a parameter is not
    decoded up to its end; [struct.unpack] rejects it. Here the event has a
    uint8 and a uint16, and the payload stops after the first byte of the
    uint16. *)
Lemma parse_truncated_counterexample :
  parse test_deser [0xa0; 2; 2; 0] [0x12; 0x56] false true = ([], Raise StructError).
Proof. reflexivity. Qed.

(** ** Responses: the errorcode and the identity check *)

Lemma names_of_values (api_vals : list ApiParameter) (n k : nat) :
  (k + n <= length api_vals)%nat ->
  mapM (fun i => match api_vals !! i with
                 | Some p => Ok (param_name p)
                 | None => Raise IndexError
                 end) (seq k n)
  = Ok (map param_name (take n (drop k api_vals))).
Proof.
  revert k. induction n as [|n IH]; intros k Hle; [reflexivity|].
  cbn [seq mapM].
  destruct (api_vals !! k) as [p|] eqn:Hp;
    [|apply lookup_ge_None in Hp; lia].
  cbn [rbind]. rewrite IH by lia. cbn [rbind].
  rewrite (drop_S _ _ _ Hp). reflexivity.
Qed.

(** A message built from as many values as the node has parameters. *)
Lemma BGMsg_new_full (node : apinode) (api_vals : list ApiParameter)
    (values : list pyval) (is_response : bool) :
  api_vals = match node with
             | NodeCommand c => if is_response then cmd_returns c else cmd_params c
             | NodeEvent e => evt_params e
             end ->
  length values = length api_vals ->
  BGMsg_new node values is_response
  = Ok {| msg_apinode := node; msg_values := values;
          msg_fields := map param_name api_vals;
          msg_attrs := zip (map param_name api_vals) values |}.
Proof.
  intros Hvals Hlen. unfold BGMsg_new. rewrite <- Hvals.
  rewrite (names_of_values api_vals (length values) 0) by lia.
  cbn [rbind drop]. rewrite Hlen, firstn_all. reflexivity.
Qed.

Lemma find_key_unique (l : list (string * pyval)) (nm : string) (v : pyval) :
  NoDup (map fst l) -> In (nm, v) l ->
  find (fun e => String.eqb (fst e) nm) l = Some (nm, v).
Proof.
  induction l as [|[k w] l IH]; intros Hnd Hin; [contradiction|].
  cbn [map fst] in Hnd. apply NoDup_cons in Hnd as [Hk Hnd].
  cbn [find fst]. destruct Hin as [Heq|Hin].
  - injection Heq as -> ->. rewrite String.eqb_refl. reflexivity.
  - destruct (String.eqb_spec k nm) as [->|_].
    + exfalso. apply Hk. apply list_elem_of_In. apply in_map_iff. exists (nm, v). auto.
    + apply IH; assumption.
Qed.

(** With distinct names, the attribute named after a parameter holds the
    value at the parameter's position. *)
Lemma getattr_at (m : BGMsg) (names : list string) (values : list pyval)
    (i : nat) (nm : string) (v : pyval) :
  msg_attrs m = zip names values ->
  NoDup names -> length values = length names ->
  names !! i = Some nm -> values !! i = Some v ->
  msg_getattr m nm = Ok v.
Proof.
  intros Hattrs Hnd Hlen Hn Hv. unfold msg_getattr. rewrite Hattrs.
  rewrite (find_key_unique _ nm v); [reflexivity| |].
  - rewrite map_rev, <- Permutation_rev.
    change (map fst (zip names values)) with ((zip names values).*1).
    rewrite fst_zip by lia. exact Hnd.
  - apply in_rev. rewrite rev_involutive. apply list_elem_of_In.
    apply (list_elem_of_lookup_2 _ i). rewrite lookup_zip_with, Hn, Hv. reflexivity.
Qed.

(** The errorcode of a response is the value of the first return
    parameter whose datatype is named errorcode. *)
Lemma errorcode_of_response (c : ApiCommand) (vals : list pyval)
    (field : ApiParameter) (i : nat) (v : pyval) :
  find (fun return_field =>
          String.eqb (type_name (param_datatype return_field)) "errorcode")
       (cmd_returns c) = Some field ->
  cmd_returns c !! i = Some field ->
  vals !! i = Some v ->
  NoDup (map param_name (cmd_returns c)) ->
  length vals = length (cmd_returns c) ->
  param_name field <> "" ->
  exists response,
    BGResponse (NodeCommand c) vals = Ok response
    /\ msg_values response = vals
    /\ _errorcode response = Ok v.
Proof.
  intros Hfind Hfield Hv Hnd Hlen Hname.
  eexists. split; [apply (BGMsg_new_full _ (cmd_returns c)); [reflexivity|exact Hlen]|].
  split; [reflexivity|].
  unfold _errorcode, _errorcode_field. cbn [msg_apinode rbind]. rewrite Hfind.
  cbn [option_map truthy].
  destruct (String.eqb_spec (param_name field) "") as [|_]; [contradiction|]. cbn [negb].
  apply (getattr_at _ (map param_name (cmd_returns c)) vals i);
    [reflexivity | exact Hnd | rewrite length_map; exact Hlen | | exact Hv].
  rewrite list_lookup_fmap, Hfield. reflexivity.
Qed.







(** ** Validators *)

(** In the serializer every argument of a parameter that names a
    validator ends in [NameError]. *)
Lemma validator_raises_NameError (apiparam : ApiParameter) (val : pyval) enums defines :
  truthy (validator_id apiparam) = true ->
  Serializer_convertEnumDefine apiparam val enums defines = Raise NameError.
Proof.
  intros H. unfold Serializer_convertEnumDefine, convertEnumDefine_with.
  rewrite H. reflexivity.
Qed.

(** Were [basestring] the class [str], a symbol would be looked up among
    the groups of the class and never give a value. *)
Lemma symbol_lookup_never_succeeds (apiparam : ApiParameter) (s : string) enums defines :
  truthy (validator_id apiparam) = true ->
  leading_digit s = false -> s <> "" ->
  attr_is (validator_type apiparam) "enum" = true
  \/ attr_is (validator_type apiparam) "define" = true ->
  exists e, convertEnumDefine_with (Ok ClsStr) apiparam (PStr s) enums defines = Raise e
            /\ (e = KeyError \/ e = AttributeError).
Proof.
  intros Hv Hd Hs Hkind. unfold convertEnumDefine_with. rewrite Hv. cbn [negb rbind isinstance].
  rewrite Hd. destruct s as [|c s]; [contradiction|]. cbn [String.length Nat.eqb orb].
  assert (Hgroup : forall groups sym, exists e,
             group_value groups sym = Raise e /\ (e = KeyError \/ e = AttributeError)).
  { intros groups sym. unfold group_value, getitem.
    destruct (groups !! sym); cbn [rbind]; eauto. }
  destruct (attr_is (validator_type apiparam) "enum").
  - destruct (Hgroup enums (String c s)) as (e & -> & He). cbn [rbind]. eauto.
  - destruct Hkind as [|Hdef]; [discriminate|]. rewrite Hdef.
    destruct (split "|" (String c s)) as [|part parts] eqn:Hsplit.
    + cbn [split] in Hsplit. destruct (Ascii.eqb c "|"); [discriminate|].
      destruct (split "|" s); discriminate.
    + cbn [mapM]. destruct (Hgroup defines part) as (e & -> & He). cbn [rbind]. eauto.
Qed.

(** C2 on the code: a symbol of an enum group, symbols of a define group
    and numeric literals, passed for a parameter with a validator, all
    raise [NameError]; with [basestring] bound to [str] the symbols would
    raise [KeyError]. Without a validator a numeric literal is encoded as
    its value. *)
Theorem serializer_validator_fails :
  command test_ser (DevName "test") (KStr "valid") (KStr "set_mode") [PStr "on"]
  = Raise NameError
  /\ command test_ser (DevName "test") (KStr "valid") (KStr "set_flags") [PStr "read|write"]
     = Raise NameError
  /\ command test_ser (DevName "test") (KStr "valid") (KStr "set_mode") [PStr "0x01"]
     = Raise NameError
  /\ command test_ser (DevName "test") (KStr "valid") (KStr "set_mode") [PInt 1]
     = Raise NameError
  /\ convertEnumDefine_with (Ok ClsStr) param_mode (PStr "on")
                            (class_enums class_valid) (class_defines class_valid)
     = Raise KeyError
  /\ convertEnumDefine_with (Ok ClsStr) param_flags (PStr "read|write")
                            (class_enums class_valid) (class_defines class_valid)
     = Raise KeyError
  /\ command test_ser (DevName "test") (KStr "simple") (KStr "returns") [PStr "0x12"]
     = Ok [0x20; 1; 1; 0; 0x12].
Proof. repeat split. Qed.

(** In the deserializer every value of a parameter with a define
    validator ends in [AttributeError]. *)
Lemma define_raises_AttributeError (apiparam : ApiParameter) (val : pyval) enums defines :
  truthy (validator_id apiparam) = true ->
  attr_is (validator_type apiparam) "enum" = false ->
  attr_is (validator_type apiparam) "define" = true ->
  Deserializer_convertEnumDefine apiparam val enums defines = Raise AttributeError.
Proof.
  intros Hv He Hd. unfold Deserializer_convertEnumDefine.
  destruct (validator_id apiparam); [|discriminate].
  rewrite Hv, He, Hd. reflexivity.
Qed.

(** A value of a parameter with an enum validator becomes the name of the
    member with that value. *)
Lemma enum_rendered (apiparam : ApiParameter) (z : Z) enums defines
    (id : string) (group : ApiEnum) (member : ApiEnumVal) :
  validator_id apiparam = Some id -> id <> "" ->
  attr_is (validator_type apiparam) "enum" = true ->
  enums !! id = Some group ->
  enum_items group !! KInt z = Some member ->
  Deserializer_convertEnumDefine apiparam (PInt z) enums defines
  = Ok (PStr (ev_name member)).
Proof.
  intros Hid Hne He Hg Hm. unfold Deserializer_convertEnumDefine. rewrite Hid.
  cbn [truthy]. destruct (String.eqb_spec id "") as [|_]; [contradiction|]. cbn [negb].
  rewrite He. unfold getitem. rewrite Hg. cbn [rbind key_of]. rewrite Hm. reflexivity.
Qed.

(** C4 on the code: the value 3 of a parameter validated by the define
    group {read: 1, write: 2} raises [AttributeError] where the claim has
    "read|write"; the enum half of the claim holds, and without
    validator-aware decoding the value stays 3. *)
Theorem deserializer_define_fails :
  parse test_deser [0x20; 1; 3; 1] [3] false true = ([], Raise AttributeError)
  /\ parse test_deser [0x20; 1; 3; 0] [1] false true
     = ([], Ok (NodeCommand cmd_set_mode, (0, 4, 1, 3, 0), [PStr "on"]))
  /\ parse test_deser [0x20; 1; 3; 1] [3] false false
     = ([], Ok (NodeCommand cmd_set_flags, (0, 4, 1, 3, 1), [PInt 3])).
Proof. repeat split. Qed.

(** * Further properties of the code *)

(** ** The robust framer: frames, streams and the consumer *)

Lemma crc8_byte (data : list Z) : is_byte (crc8 data).
Proof.
  unfold crc8, is_byte. cbv zeta.
  change 255 with (Z.ones 8). rewrite Z.land_ones by lia.
  pose proof (Z.mod_pos_bound (Z.shiftr (fold_left
    (fun crc byte => Nat.iter 8 crc8_bit (Z.lxor crc (Z.shiftl byte 8))) data 0) 8) (2 ^ 8)
    ltac:(lia)) as H.
  change (2 ^ 8) with 256 in *. change (Z.ones 8) with 255. lia.
Qed.

Lemma header_bytes_all (crc : bool) (n : Z) :
  0 <= n <= MAX_PAYLOAD_LENGTH -> header_bytes_check crc n = true.
Proof.
  intros Hn. unfold MAX_PAYLOAD_LENGTH in Hn.
  assert (H : forallb (fun n => header_bytes_check true n && header_bytes_check false n)
                      (zrange 2048) = true) by (vm_compute; reflexivity).
  pose proof (zrange_forallb _ _ H n ltac:(lia)) as H1. cbv beta in H1.
  apply andb_prop in H1. destruct crc; tauto.
Qed.

Lemma is_byteb_spec (b : Z) : is_byteb b = true -> is_byte b.
Proof. unfold is_byteb, is_byte. intros H. apply andb_prop in H as [H1 H2]. lia. Qed.

(** X1. For bytes [data], at most 2047 of them, [pack] returns the
    preamble, two header bytes, the data and, with [crc], one more byte:
    3 + len(data) (+ 1) values, every one a byte. *)
Theorem pack_shape (data : list Z) (crc : bool) :
  Forall is_byte data ->
  Z.of_nat (length data) <= MAX_PAYLOAD_LENGTH ->
  exists b1 b2,
    pack data crc
    = Ok ([PREAMBLE_BYTE; b1; b2] ++ data ++ (if crc then [crc8 data] else []))
    /\ Forall is_byte ([PREAMBLE_BYTE; b1; b2] ++ data ++ (if crc then [crc8 data] else []))
    /\ length ([PREAMBLE_BYTE; b1; b2] ++ data ++ (if crc then [crc8 data] else []))
       = (HEADER_SIZE + length data + (if crc then 1 else 0))%nat.
Proof.
  intros Hdata Hlen.
  pose proof (header_bytes_all crc (Z.of_nat (length data)) ltac:(lia)) as Hc.
  unfold header_bytes_check in Hc. cbv zeta in Hc.
  unfold pack. destruct (Z.ltb_spec MAX_PAYLOAD_LENGTH (Z.of_nat (length data))); [lia|].
  cbv zeta. destruct (crc4 _ 3) as [c|e]; [|discriminate]. cbn [rbind].
  apply andb_prop in Hc as [H1 H2]. apply is_byteb_spec in H1, H2.
  eexists _, _. split; [reflexivity|]. split.
  - cbn [app]. constructor; [unfold is_byte, PREAMBLE_BYTE; lia|].
    constructor; [exact H1|]. constructor; [exact H2|].
    apply Forall_app. split; [exact Hdata|].
    destruct crc; [|constructor]. constructor; [apply crc8_byte|constructor].
  - cbn [app length]. rewrite length_app. unfold HEADER_SIZE.
    destruct crc; cbn [length]; lia.
Qed.

Lemma codes_bytes (s : string) : Forall is_byte (codes s).
Proof.
  induction s as [|c s IH]; [constructor|]. cbn [codes]. constructor; [|exact IH].
  unfold is_byte, code_of. pose proof (N_ascii_bounded c). lia.
Qed.

Lemma pack_shape_witness :
  exists b1 b2,
    pack [104; 101; 108; 108; 111] true
    = Ok ([PREAMBLE_BYTE; b1; b2] ++ [104; 101; 108; 108; 111]
          ++ [crc8 [104; 101; 108; 108; 111]])
    /\ Forall is_byte ([PREAMBLE_BYTE; b1; b2] ++ [104; 101; 108; 108; 111]
                       ++ [crc8 [104; 101; 108; 108; 111]])
    /\ length ([PREAMBLE_BYTE; b1; b2] ++ [104; 101; 108; 108; 111]
               ++ [crc8 [104; 101; 108; 108; 111]])
       = (HEADER_SIZE + length [104; 101; 108; 108; 111] + 1)%nat.
Proof.
  apply (pack_shape [104; 101; 108; 108; 111] true).
  - repeat (constructor; [unfold is_byte; lia|]). constructor.
  - vm_compute. discriminate.
Defined.

(** Bytes without a preamble never make a frame. *)
Lemma run_no_preamble (fuel : nat) :
  forall junk, Forall (fun b => b <> PREAMBLE_BYTE) junk -> _run fuel [] junk = [].
Proof.
  induction fuel as [|fuel IH]; intros junk Hjunk; [reflexivity|].
  destruct junk as [|j1 [|j2 [|j3 junk]]]; try reflexivity.
  apply Forall_cons in Hjunk as [Hj1 Hjunk]. apply Forall_cons in Hjunk as [Hj2 Hjunk].
  apply Forall_cons in Hjunk as [Hj3 Hjunk].
  cbn [_run length]. change (HEADER_SIZE - 0)%nat with 3%nat.
  change (_read 3 (j1 :: j2 :: j3 :: junk)) with (Some ([j1; j2; j3], junk)).
  cbn [app].
  rewrite (find_byte_later _ j1), (find_byte_later _ j2), (find_byte_later _ j3)
    by assumption.
  change (find_byte PREAMBLE_BYTE []) with (-1).
  change (-1 <? 0) with true. cbv iota. apply IH. exact Hjunk.
Qed.

Lemma run_stream (segments : list segment) (tail : list Z) :
  Forall segment_ok segments ->
  Forall (fun b => b <> PREAMBLE_BYTE) tail ->
  exists chunks,
    mapM segment_bytes segments = Ok chunks
    /\ forall fuel, (length (concat chunks ++ tail) < fuel)%nat ->
                    _run fuel [] (concat chunks ++ tail) = map segment_payload segments.
Proof.
  intros Hseg Htail. induction Hseg as [|[[junk payload] crc] segments [Hjunk Hlen] _ IH].
  - exists []. split; [reflexivity|]. intros fuel _. apply run_no_preamble. exact Htail.
  - destruct IH as (chunks & Hchunks & Hrun).
    destruct (pack_header payload crc Hlen) as (b1 & b2 & Hpack & Hcrc & Hsize & Hflag).
    eexists. split.
    + cbn [mapM segment_bytes]. rewrite Hpack. cbn [rbind]. rewrite Hchunks. reflexivity.
    + intros fuel Hfuel. cbn [concat map segment_payload fst snd] in *.
      set (frame := [PREAMBLE_BYTE; b1; b2] ++ payload ++ (if crc then [crc8 payload] else []))
        in *.
      assert (Heq : ((junk ++ frame) ++ concat chunks) ++ tail
                    = junk ++ frame ++ (concat chunks ++ tail))
        by (rewrite <- !app_assoc; reflexivity).
      rewrite Heq in *. subst frame.
      rewrite (run_skip_junk (length junk) fuel junk payload (concat chunks ++ tail)
                 b1 b2 crc (Nat.le_refl _) Hjunk Hcrc Hsize Hflag Hfuel).
      f_equal. apply Hrun. lia.
Qed.

(** X2. A stream of frames, each written by [pack] with or without the
    payload CRC and each preceded by any bytes other than the preamble,
    followed by such bytes: the reader delivers the payloads, all of them
    and in order. *)
Theorem reader_stream (segments : list segment) (tail : list Z) :
  Forall segment_ok segments ->
  Forall (fun b => b <> PREAMBLE_BYTE) tail ->
  exists chunks,
    mapM segment_bytes segments = Ok chunks
    /\ reader (concat chunks ++ tail) = map segment_payload segments.
Proof.
  intros Hseg Htail. destruct (run_stream segments tail Hseg Htail) as (chunks & Hc & Hrun).
  exists chunks. split; [exact Hc|]. apply Hrun. lia.
Qed.

Lemma reader_stream_witness :
  exists chunks,
    mapM segment_bytes [([0xff], codes "hello", true); ([], codes "world", false)]
    = Ok chunks
    /\ reader (concat chunks ++ [0xfe]) = [codes "hello"; codes "world"].
Proof.
  apply (reader_stream [([0xff], codes "hello", true); ([], codes "world", false)] [0xfe]).
  - repeat constructor; try discriminate.
  - repeat constructor. discriminate.
Defined.

(** X3. Bytes none of which is the preamble give no frame. *)
Theorem reader_without_preamble (input : list Z) :
  Forall (fun b => b <> PREAMBLE_BYTE) input -> reader input = [].
Proof. intros H. apply run_no_preamble. exact H. Qed.

Lemma reader_without_preamble_witness : reader [0x00; 0xff; 0x5b; 0x59; 0x05] = [].
Proof. apply reader_without_preamble. repeat constructor; discriminate. Defined.

(** One iteration that completes a valid header whose payload CRC does
    not match drops the frame. *)
Lemma run_drop (fuel : nat) (input tail payload : list Z) (b1 b2 bad : Z) :
  input = [PREAMBLE_BYTE; b1; b2] ++ payload ++ [bad] ++ tail ->
  crc4 [b1; b2] 4 = Ok 0 ->
  Z.lor b1 (Z.shiftl (Z.land b2 PAYLOAD_LENGTH_MASK) 3) = Z.of_nat (length payload) ->
  negb (Z.land b2 CRC_PRESENT_FLAG =? 0) = true ->
  bad <> crc8 payload ->
  _run (S fuel) [] input = _run fuel [] tail.
Proof.
  intros -> Hcrc Hsize Hflag Hbad.
  cbn [_run length]. change (HEADER_SIZE - 0)%nat with 3%nat.
  rewrite (read_app 3 [PREAMBLE_BYTE; b1; b2]) by reflexivity. cbn [app].
  change (find_byte PREAMBLE_BYTE [PREAMBLE_BYTE; b1; b2]) with 0.
  change (0 <? 0) with false. cbv iota.
  change (drop 1 [PREAMBLE_BYTE; b1; b2]) with [b1; b2]. rewrite Hcrc.
  change (negb (0 =? 0)) with false. cbv iota.
  change (index [PREAMBLE_BYTE; b1; b2] 1) with (Ok b1).
  change (index [PREAMBLE_BYTE; b1; b2] 2) with (Ok b2).
  cbv beta iota zeta. rewrite Hsize, Hflag, Nat2Z.id.
  rewrite read_app by reflexivity.
  change (bad :: tail) with ([bad] ++ tail). rewrite read_app by reflexivity.
  rewrite bool_decide_eq_false_2 by congruence. reflexivity.
Qed.

(** X4. A frame whose payload CRC byte is wrong is dropped whole, and the
    reader goes on with the bytes after it. *)
Theorem reader_drops_bad_crc (payload : list Z) :
  Z.of_nat (length payload) <= MAX_PAYLOAD_LENGTH ->
  exists b1 b2,
    pack payload true = Ok ([PREAMBLE_BYTE; b1; b2] ++ payload ++ [crc8 payload])
    /\ forall bad rest,
         bad <> crc8 payload ->
         reader ([PREAMBLE_BYTE; b1; b2] ++ payload ++ [bad] ++ rest) = reader rest.
Proof.
  intros Hlen.
  destruct (pack_header payload true Hlen) as (b1 & b2 & Hpack & Hcrc & Hsize & Hflag).
  exists b1, b2. split; [exact Hpack|].
  intros bad rest Hbad. unfold reader.
  rewrite (run_drop _ _ rest payload b1 b2 bad eq_refl Hcrc Hsize Hflag Hbad).
  apply run_fuel; [cbn; lia | | lia].
  cbn [app length]. rewrite !length_app. cbn [length]. lia.
Qed.

Lemma reader_drops_bad_crc_witness :
  exists b1 b2,
    pack (codes "hello") true
    = Ok ([PREAMBLE_BYTE; b1; b2] ++ codes "hello" ++ [crc8 (codes "hello")])
    /\ reader ([PREAMBLE_BYTE; b1; b2] ++ codes "hello" ++ [0xff]
               ++ [0x5A; 0x05; 0x1b; 119; 111; 114; 108; 100; 0xb3])
       = reader [0x5A; 0x05; 0x1b; 119; 111; 114; 108; 100; 0xb3].
Proof.
  destruct (reader_drops_bad_crc (codes "hello")) as (b1 & b2 & Hp & Hr).
  - vm_compute. discriminate.
  - exists b1, b2. split; [exact Hp|]. apply Hr. vm_compute. discriminate.
Defined.

Lemma payload_size_bound (h1 h2 : Z) :
  is_byte h1 -> is_byte h2 ->
  0 <= Z.lor h1 (Z.shiftl (Z.land h2 PAYLOAD_LENGTH_MASK) 3) <= MAX_PAYLOAD_LENGTH.
Proof.
  intros H1 H2.
  assert (H : forallb (fun h1 => forallb (payload_size_check h1) (zrange 256))
                      (zrange 256) = true) by (vm_compute; reflexivity).
  pose proof (zrange_forallb _ _ H h1 ltac:(unfold is_byte in H1; lia)) as Ha.
  cbv beta in Ha.
  pose proof (zrange_forallb _ _ Ha h2 ltac:(unfold is_byte in H2; lia)) as Hb.
  unfold payload_size_check in Hb. cbv zeta in Hb. apply andb_prop in Hb as [Hlo Hhi]. lia.
Qed.

Lemma run_frame_bound (fuel : nat) :
  forall header input,
    Forall is_byte header -> Forall is_byte input ->
    Forall (fun payload => Z.of_nat (length payload) <= MAX_PAYLOAD_LENGTH
                           /\ Forall is_byte payload)
           (_run fuel header input).
Proof.
  induction fuel as [|fuel IH]; intros header input Hh Hi; [constructor|].
  cbn [_run]. unfold _read.
  destruct (_ <=? length input)%nat; [|constructor].
  set (n := (HEADER_SIZE - length header)%nat).
  assert (Hhdr : Forall is_byte (header ++ take n input))
    by (apply Forall_app; split; [exact Hh | apply Forall_take; exact Hi]).
  assert (Hrest : Forall is_byte (drop n input)) by (apply Forall_drop; exact Hi).
  set (hdr := header ++ take n input) in *. set (rest := drop n input) in *.
  destruct (find_byte PREAMBLE_BYTE hdr <? 0); [apply IH; [constructor|exact Hrest]|].
  destruct (0 <? find_byte PREAMBLE_BYTE hdr).
  { apply IH; [apply Forall_drop; exact Hhdr | exact Hrest]. }
  destruct (crc4 (drop 1 hdr) 4) as [c|]; [|constructor].
  destruct (negb (c =? 0)); [apply IH; [apply Forall_drop; exact Hhdr | exact Hrest]|].
  unfold index.
  destruct (hdr !! Z.to_nat 1) as [h1|] eqn:E1; [|constructor].
  destruct (hdr !! Z.to_nat 2) as [h2|] eqn:E2; [|constructor].
  assert (Hb1 : is_byte h1) by (eapply Forall_lookup_1 in E1; eauto).
  assert (Hb2 : is_byte h2) by (eapply Forall_lookup_1 in E2; eauto).
  pose proof (payload_size_bound h1 h2 Hb1 Hb2) as Hsize.
  cbv zeta. set (size := Z.lor h1 _) in *.
  destruct (_ <=? length rest)%nat eqn:Hle; [|constructor].
  assert (Hpay : Z.of_nat (length (take (Z.to_nat size) rest)) <= MAX_PAYLOAD_LENGTH
                 /\ Forall is_byte (take (Z.to_nat size) rest)).
  { split; [rewrite length_take; lia | apply Forall_take; exact Hrest]. }
  assert (Hafter : Forall is_byte (drop (Z.to_nat size) rest))
    by (apply Forall_drop; exact Hrest).
  destruct (negb _).
  - destruct (1 <=? _)%nat; [|constructor].
    assert (Hafter' : Forall is_byte (drop 1 (drop (Z.to_nat size) rest)))
      by (apply Forall_drop; exact Hafter).
    destruct (negb _); [apply IH; [constructor|exact Hafter']|].
    constructor; [exact Hpay | apply IH; [constructor|exact Hafter']].
  - constructor; [exact Hpay | apply IH; [constructor|exact Hafter]].
Qed.

(** X5. Whatever bytes arrive, a frame the reader delivers has at most
    2047 bytes, each of them a byte of the input. *)
Theorem reader_frame_bound (input : list Z) :
  Forall is_byte input ->
  Forall (fun payload => Z.of_nat (length payload) <= MAX_PAYLOAD_LENGTH
                         /\ Forall is_byte payload)
         (reader input).
Proof. intros H. apply run_frame_bound; [constructor | exact H]. Qed.

Lemma reader_frame_bound_witness :
  Forall (fun payload => Z.of_nat (length payload) <= MAX_PAYLOAD_LENGTH
                         /\ Forall is_byte payload)
         (reader [0x5A; 0xff; 0xe2; 1; 2; 3]).
Proof.
  apply reader_frame_bound. repeat (constructor; [unfold is_byte; lia|]). constructor.
Defined.

(** The loop of [read] keeps the bytes and their order, and stops with
    enough bytes or an empty queue. *)
Lemma fill_buffer_spec (size : nat) (read_queue : list (list Z)) :
  forall read_buffer buffer' queue',
    fill_buffer size read_buffer read_queue = (buffer', queue') ->
    buffer' ++ concat queue' = read_buffer ++ concat read_queue
    /\ ((size <= length buffer')%nat \/ queue' = []).
Proof.
  induction read_queue as [|payload queue IH]; intros buffer buffer' queue' H.
  - injection H as <- <-. auto.
  - cbn [fill_buffer] in H. destruct (Nat.ltb_spec (length buffer) size) as [Hlt|Hge].
    + destruct (IH _ _ _ H) as [Heq Hstop]. split; [|exact Hstop].
      rewrite Heq. cbn [concat]. rewrite app_assoc. reflexivity.
    + injection H as <- <-. auto.
Qed.

(** X6. [RobustConnector.read] returns the first [size] bytes of what
    the buffer and the queued payloads hold together, or all of them when
    they are fewer; what it leaves in the buffer and the queue is the rest,
    in order. *)
Theorem robust_read_stream (size : nat) (read_buffer : list Z) (read_queue : list (list Z)) :
  let stream := read_buffer ++ concat read_queue in
  let '(data, (buffer', queue')) := robust_read size read_buffer read_queue in
  data = take size stream /\ buffer' ++ concat queue' = drop size stream.
Proof.
  cbv zeta. unfold robust_read.
  destruct (fill_buffer size read_buffer read_queue) as [buffer' queue'] eqn:Hfill.
  destruct (fill_buffer_spec _ _ _ _ _ Hfill) as [Heq Hstop]. rewrite <- Heq.
  destruct Hstop as [Hsize| ->].
  - rewrite Nat.min_r by exact Hsize. split.
    + rewrite take_app_le by exact Hsize. reflexivity.
    + rewrite drop_app_le by exact Hsize. reflexivity.
  - cbn [concat]. rewrite !app_nil_r. split.
    + destruct (Nat.le_ge_cases (length buffer') size) as [Hle|Hge].
      * rewrite Nat.min_l by exact Hle. rewrite !take_ge by lia. reflexivity.
      * rewrite Nat.min_r by exact Hge. reflexivity.
    + destruct (Nat.le_ge_cases (length buffer') size) as [Hle|Hge].
      * rewrite Nat.min_l by exact Hle. rewrite !drop_ge by lia. reflexivity.
      * rewrite Nat.min_r by exact Hge. reflexivity.
Qed.

(** X7. What [write] sends for a payload of at most 2047 bytes, the
    reader thread queues as one payload, and [read] gives it back: the
    first [size] bytes in one call, the rest in the next. *)
Theorem robust_write_read (payload : list Z) (crc : bool) (size : nat) :
  Z.of_nat (length payload) <= MAX_PAYLOAD_LENGTH ->
  (0 < size <= length payload)%nat ->
  exists frame,
    robust_write crc payload = Ok frame
    /\ robust_read size [] (reader frame)
       = (take size payload, (drop size payload, []))
    /\ robust_read (length payload - size) (drop size payload) []
       = (drop size payload, ([], [])).
Proof.
  intros Hlen Hsize.
  destruct (pack_header payload crc Hlen) as (b1 & b2 & Hpack & Hcrc & Hsz & Hflag).
  eexists. split; [exact Hpack|].
  assert (Hreader : reader ([PREAMBLE_BYTE; b1; b2] ++ payload
                            ++ (if crc then [crc8 payload] else [])) = [payload]).
  { unfold reader.
    pose proof (run_skip_junk 0 (S (length ([PREAMBLE_BYTE; b1; b2] ++ payload
                  ++ (if crc then [crc8 payload] else []))))
                  [] payload [] b1 b2 crc (Nat.le_refl _) ltac:(constructor) Hcrc Hsz Hflag) as H.
    cbv zeta in H. cbn [app] in H. rewrite !app_nil_r in H. cbn [app].
    rewrite H by lia. rewrite run_empty. reflexivity. }
  rewrite Hreader. split.
  - unfold robust_read. cbn [fill_buffer length].
    destruct (Nat.ltb_spec 0 size) as [_|]; [|lia]. cbn [app].
    rewrite Nat.min_r by lia. reflexivity.
  - unfold robust_read. cbn [fill_buffer].
    assert (Hl : length (drop size payload) = (length payload - size)%nat)
      by apply length_drop.
    rewrite Hl, Nat.min_id.
    rewrite firstn_all2 by (rewrite Hl; apply Nat.le_refl).
    do 2 f_equal. apply skipn_all2. rewrite Hl. apply Nat.le_refl.
Qed.

Lemma robust_write_read_witness :
  exists frame,
    robust_write true [104; 101; 108; 108; 111] = Ok frame
    /\ robust_read 2 [] (reader frame) = ([104; 101], ([108; 108; 111], []))
    /\ robust_read 3 [108; 108; 111] [] = ([108; 108; 111], ([], [])).
Proof.
  apply (robust_write_read [104; 101; 108; 108; 111] true 2).
  - vm_compute. discriminate.
  - cbn. lia.
Defined.

(** ** The codec: headers, errors and invariants *)

Lemma header_decode_all (b0 b1 : Z) :
  is_byte b0 -> is_byte b1 -> header_decode_check b0 b1 = true.
Proof.
  intros H0 H1.
  assert (H : forallb (fun b0 => forallb (header_decode_check b0) (zrange 256))
                      (zrange 256) = true) by (vm_compute; reflexivity).
  pose proof (zrange_forallb _ _ H b0 ltac:(unfold is_byte in H0; lia)) as Ha.
  cbv beta in Ha.
  exact (zrange_forallb _ _ Ha b1 ltac:(unfold is_byte in H1; lia)).
Qed.

(** X8. Any four bytes are a header: [parseHeader] reads a message type
    0 or 1, a device id below 16, a length of at most 2047 and the class
    and command bytes, and [make_header] of these fields gives the four
    bytes back. Fewer than four bytes raise [IndexError]. *)
Theorem parseHeader_total (b0 b1 b2 b3 : Z) (more short : list Z) :
  (is_byte b0 -> is_byte b1 -> is_byte b2 -> is_byte b3 ->
   exists t d len,
     parseHeader (b0 :: b1 :: b2 :: b3 :: more) = Ok (t, d, len, b2, b3)
     /\ 0 <= t <= 1 /\ 0 <= d < 16 /\ 0 <= len <= 2047
     /\ make_header t d b2 b3 len = Ok [b0; b1; b2; b3])
  /\ ((length short < 4)%nat -> parseHeader short = Raise IndexError).
Proof.
  split.
  - intros H0 H1 H2 H3.
    pose proof (header_decode_all b0 b1 H0 H1) as H. unfold header_decode_check in H.
    cbv zeta in H. repeat (apply andb_prop in H; destruct H as [H ?]).
    eexists _, _, _. split; [reflexivity|].
    split; [lia|]. split; [lia|]. split; [lia|].
    unfold make_header.
    replace (Z.lor (Z.lor _ _) _) with b0 by lia.
    replace (Z.land _ 255) with b1 by lia.
    apply make_header_bytes; unfold is_byte in *; lia.
  - intros Hlen. destruct short as [|x0 [|x1 [|x2 [|x3 short]]]]; try reflexivity.
    cbn [length] in Hlen. lia.
Qed.

Lemma parseHeader_total_witness :
  (exists t d len,
     parseHeader [0xa3; 0x01; 2; 7; 99] = Ok (t, d, len, 2, 7)
     /\ 0 <= t <= 1 /\ 0 <= d < 16 /\ 0 <= len <= 2047
     /\ make_header t d 2 7 len = Ok [0xa3; 0x01; 2; 7])
  /\ parseHeader [0xa3; 0x01; 2] = Raise IndexError.
Proof.
  destruct (parseHeader_total 0xa3 0x01 2 7 [99] [0xa3; 0x01; 2]) as [H1 H2].
  split.
  - apply H1; unfold is_byte; lia.
  - apply H2. cbn. lia.
Defined.

Lemma pack_one_error (c : code) (v : pyval) (e : exn) :
  pack_one c v = Raise e -> e = StructError.
Proof.
  destruct c; cbn [pack_one code_size rbind];
    try (unfold pack_int; cbv zeta; destruct v; cbn [code_signed];
         repeat match goal with |- (if ?b then _ else _) = _ -> _ => destruct b end;
         congruence).
  - unfold pack_s. destruct v; try congruence. destruct (0 <=? n); congruence.
Qed.

Lemma struct_pack_error (fmt : list code) :
  forall vals e, struct_pack fmt vals = Raise e -> e = StructError.
Proof.
  induction fmt as [|c fmt IH]; intros vals e H.
  - destruct vals; [discriminate|]. cbn in H. congruence.
  - assert (Hstep : forall v vals',
              (do b <- pack_one c v; do bs <- struct_pack fmt vals'; Ok (b ++ bs)) = Raise e ->
              e = StructError).
    { intros v vals' Hs. destruct (pack_one c v) as [b|e'] eqn:Hp; cbn [rbind] in Hs.
      - destruct (struct_pack fmt vals') as [bs|e''] eqn:Hr; cbn [rbind] in Hs;
          [discriminate|]. injection Hs as <-. exact (IH _ _ Hr).
      - injection Hs as <-. exact (pack_one_error _ _ _ Hp). }
    destruct c; cbn [struct_pack] in H;
      try (destruct vals as [|v vals']; [congruence | exact (Hstep _ _ H)]).
    destruct (struct_pack fmt vals) as [bs|e'] eqn:Hr; cbn [rbind] in H; [discriminate|].
    injection H as <-. exact (IH _ _ Hr).
Qed.

Lemma command_resolved self device_id class_name command_name dev apiclass apicommand args :
  resolved self device_id class_name command_name dev apiclass apicommand ->
  command self device_id class_name command_name args
  = do '(pack_format, params) <-
      _parseParameters args (cmd_params apicommand)
                       (class_enums apiclass) (class_defines apiclass);
    do param_data_len <- calcsize pack_format;
    do header <- make_header MSG_COMMAND dev (class_index apiclass)
                             (cmd_index apicommand) (Z.of_nat param_data_len);
    do payload <- struct_pack pack_format params;
    Ok (header ++ payload).
Proof.
  intros (Hdev & (api & Hapi & Hcls) & Hcmd). unfold command.
  assert (Hd : match device_id with
               | DevName s => getitem (ser_device_ids self) s
               | DevId z => Ok z
               end = Ok dev).
  { destruct device_id; [unfold getitem; rewrite Hdev | subst]; reflexivity. }
  rewrite Hd. cbn [rbind]. unfold getitem. rewrite Hapi. cbn [rbind].
  rewrite Hcls. cbn [rbind]. rewrite Hcmd. reflexivity.
Qed.

(** X9. [Serializer.command] with a number of arguments other than the
    number of parameters of the command raises [TypeError]; with a device
    name, a device id, a class or a command that is not in the tables it
    raises [KeyError]. *)
Theorem command_failures (self : Serializer) (device_id : devref)
    (class_name command_name : pykey) (args : list pyval) :
  (forall dev apiclass apicommand,
     resolved self device_id class_name command_name dev apiclass apicommand ->
     length args <> length (cmd_params apicommand) ->
     command self device_id class_name command_name args = Raise TypeError)
  /\ (match device_id with
      | DevName s =>
          match ser_device_ids self !! s with
          | Some dev => ser_apis self !! dev = None
          | None => True
          end
      | DevId dev => ser_apis self !! dev = None
      end ->
      command self device_id class_name command_name args = Raise KeyError)
  /\ (forall dev api,
        match device_id with
        | DevName s => ser_device_ids self !! s = Some dev
        | DevId z => z = dev
        end ->
        ser_apis self !! dev = Some api ->
        match api_classes api !! class_name with
        | Some apiclass => class_commands apiclass !! command_name = None
        | None => True
        end ->
        command self device_id class_name command_name args = Raise KeyError).
Proof.
  split; [|split].
  - intros dev apiclass apicommand Hres Hlen.
    rewrite (command_resolved _ _ _ _ _ _ _ _ Hres). unfold _parseParameters.
    destruct (Nat.eqb_spec (length args) (length (cmd_params apicommand)));
      [contradiction|reflexivity].
  - intros H. unfold command, getitem. destruct device_id as [s|dev].
    + destruct (ser_device_ids self !! s) as [dev|]; [|reflexivity].
      cbn [rbind]. rewrite H. reflexivity.
    + cbn [rbind]. rewrite H. reflexivity.
  - intros dev api Hdev Hapi Hmissing. unfold command, getitem.
    assert (Hd : match device_id with
                 | DevName s => match ser_device_ids self !! s with
                                | Some v => Ok v
                                | None => Raise KeyError
                                end
                 | DevId z => Ok z
                 end = Ok dev).
    { destruct device_id; [rewrite Hdev | subst]; reflexivity. }
    rewrite Hd. cbn [rbind]. rewrite Hapi. cbn [rbind].
    destruct (api_classes api !! class_name) as [apiclass|]; [|reflexivity].
    cbn [rbind]. rewrite Hmissing. reflexivity.
Qed.

Lemma command_failures_witness :
  command test_ser (DevName "test") (KStr "simple") (KStr "returns") [PInt 1; PInt 2]
  = Raise TypeError
  /\ command test_ser (DevName "other") (KStr "simple") (KStr "returns") [PInt 1]
     = Raise KeyError
  /\ command test_ser (DevName "test") (KStr "simple") (KStr "missing") [PInt 1]
     = Raise KeyError.
Proof.
  split; [|split].
  - apply (proj1 (command_failures test_ser (DevName "test") (KStr "simple")
                    (KStr "returns") [PInt 1; PInt 2]) 4 class_simple cmd_returns_).
    + split; [reflexivity|]. split; [exists test_api; split; reflexivity | reflexivity].
    + cbn. lia.
  - apply (proj1 (proj2 (command_failures test_ser (DevName "other") (KStr "simple")
                           (KStr "returns") [PInt 1]))).
    reflexivity.
  - apply (proj2 (proj2 (command_failures test_ser (DevName "test") (KStr "simple")
                           (KStr "missing") [PInt 1])) 4 test_api); reflexivity.
Defined.

Lemma pack_int_out_of_range (f : wire_format) (c : code) (lo hi z : Z) :
  int_range f = Some (lo, hi) ->
  (forall convert p x, packer convert f p x = do v <- convert p x; Ok (c, PInt v)) ->
  z < lo \/ hi < z ->
  pack_one c (PInt z) = Raise StructError.
Proof.
  intros Hr Hc Hz.
  destruct modulus_values as (M1 & M2 & M4 & M8).
  destruct half_values as (D1 & D2 & D4 & D8).
  destruct f; try discriminate; injection Hr as <- <-;
    specialize (Hc (fun _ _ => Ok 0) (param 0 "" "") PNone); cbn in Hc;
    injection Hc as <-;
    unfold pack_one, pack_int; cbn [code_size rbind code_signed]; cbv zeta;
    rewrite ?M1, ?M2, ?M4, ?M8, ?D1, ?D2, ?D4, ?D8;
    match goal with
    | |- (if ?b then _ else _) = _ => destruct b eqn:Hb; [|reflexivity]
    end;
    apply andb_prop in Hb as [H1 H2]; lia.
Qed.

(** X10. A command with one parameter, of an integer or array format and
    without a validator: an int outside the range of the format, or an
    array longer than the length prefix can tell (255 or 65535 bytes),
    makes [Serializer.command] raise [struct.error]. *)
Theorem command_out_of_range (self : Serializer) (device_id : devref)
    (class_name command_name : pykey) (dev : Z) (apiclass : ApiClass)
    (apicommand : ApiCommand) (p : ApiParameter) (f : wire_format) (v : pyval) :
  resolved self device_id class_name command_name dev apiclass apicommand ->
  cmd_params apicommand = [p] ->
  truthy (validator_id p) = false ->
  lookup_format (param_format p) = Ok f ->
  out_of_domain f v ->
  command self device_id class_name command_name [v] = Raise StructError.
Proof.
  intros Hres Hparams Hplain Hfmt Hout.
  rewrite (command_resolved _ _ _ _ _ _ _ _ Hres), Hparams.
  unfold _parseParameters. cbn [length Nat.eqb negb zip zip_with mapM].
  rewrite Hfmt. cbn [rbind].
  assert (Hint : forall c lo hi z,
            int_range f = Some (lo, hi) ->
            (forall convert q x, packer convert f q x = do w <- convert q x; Ok (c, PInt w)) ->
            v = PInt z -> z < lo \/ hi < z ->
            (do '(pack_format, params) <-
               (do a <- (do y <- packer (fun p0 v0 =>
                                    Serializer_convertEnumDefine p0 v0
                                      (class_enums apiclass) (class_defines apiclass))
                                  f p v;
                         do ys <- Ok []; Ok (y :: ys));
                Ok (map fst a, map snd a));
             do param_data_len <- calcsize pack_format;
             do header <- make_header MSG_COMMAND dev (class_index apiclass)
                                      (cmd_index apicommand) (Z.of_nat param_data_len);
             do payload <- struct_pack pack_format params;
             Ok (header ++ payload)) = Raise StructError).
  { intros c lo hi z Hr Hc -> Hz. rewrite Hc.
    rewrite (plain_serialize p z _ _ Hplain). cbn [rbind map fst snd].
    pose proof (pack_int_out_of_range f c lo hi z Hr Hc Hz) as Hp.
    destruct (calcsize [c]) as [n|e] eqn:Hn.
    - cbn [rbind]. destruct (make_header _ _ _ _ _) as [h|e] eqn:Hh; cbn [rbind].
      + destruct c; cbn [struct_pack]; try rewrite Hp; reflexivity.
      + f_equal. exact (struct_pack_error _ _ _ Hh).
    - exfalso. destruct f; try discriminate;
        specialize (Hc (fun _ _ => Ok 0) p PNone); cbn in Hc; injection Hc as <-;
        discriminate. }
  destruct f; cbn [out_of_domain int_range] in Hout;
    try contradiction;
    try (destruct Hout as (z & Hv & Hz);
         eapply Hint; [reflexivity | intros; reflexivity | exact Hv | exact Hz]).
  - destruct Hout as (bs & -> & Hlen). cbn [packer to_bytes py_len rbind].
    unfold pack_int. cbv zeta. destruct modulus_values as (-> & _).
    destruct (Z.ltb_spec (Z.of_nat (length bs)) 256); [lia|].
    rewrite andb_false_r. reflexivity.
  - destruct Hout as (bs & -> & Hlen). cbn [packer to_bytes py_len rbind].
    unfold pack_int. cbv zeta. destruct modulus_values as (_ & -> & _).
    destruct (Z.ltb_spec (Z.of_nat (length bs)) 65536); [lia|].
    rewrite andb_false_r. reflexivity.
Qed.

Lemma command_out_of_range_witness :
  command test_ser (DevName "test") (KStr "simple") (KStr "returns") [PInt 256]
  = Raise StructError.
Proof.
  apply (command_out_of_range test_ser (DevName "test") (KStr "simple") (KStr "returns")
           4 class_simple cmd_returns_ (param 0 "param" "uint8") Fuint8 (PInt 256));
    try reflexivity.
  - split; [reflexivity|]. split; [exists test_api; split; reflexivity | reflexivity].
  - exists 256. split; [reflexivity | lia].
Defined.

(** X11. For the opaque formats (uuid_128, aes_key_128, sl_bt_uuid_64_t,
    sl_bt_uuid_16_t, byte_array) the serializer does not check the number
    of bytes passed: more than the format holds are cut off, fewer are
    followed by zero bytes, and no error is raised. *)
Theorem opaque_value_padded (p : ApiParameter) (f : wire_format) (n : Z) (bs : list Z)
    (enums : gmap string ApiEnum) (defines : gmap string ApiDefine) :
  lookup_format (param_format p) = Ok f ->
  opaque_size f p = Some n ->
  0 <= n ->
  exists payload,
    (do '(pack_format, params) <- _parseParameters [PBytes bs] [p] enums defines;
     struct_pack pack_format params) = Ok payload
    /\ length payload = Z.to_nat n
    /\ (n <= Z.of_nat (length bs) -> payload = take (Z.to_nat n) bs)
    /\ (Z.of_nat (length bs) <= n ->
        payload = bs ++ replicate (Z.to_nat n - length bs) 0).
Proof.
  intros Hfmt Hsize Hn.
  exists (take (Z.to_nat n) (bs ++ replicate (Z.to_nat n) 0)).
  split; [|split; [|split]].
  - unfold _parseParameters. cbn [length Nat.eqb negb zip zip_with mapM].
    rewrite Hfmt. cbn [rbind].
    assert (Hp : forall convert, packer convert f p (PBytes bs) = Ok (Cs n, PBytes bs)).
    { intros convert. destruct f; try discriminate; injection Hsize as <-; reflexivity. }
    rewrite Hp. cbn [rbind map fst snd struct_pack pack_one]. unfold pack_s.
    destruct (Z.leb_spec 0 n); [|lia]. cbn [rbind]. rewrite app_nil_r. reflexivity.
  - rewrite length_take, length_app, length_replicate. lia.
  - intros Hlong. rewrite take_app_le by lia. reflexivity.
  - intros Hshort. rewrite take_app_ge by lia. f_equal.
    rewrite take_replicate. f_equal. lia.
Qed.

Lemma opaque_value_padded_witness :
  exists payload,
    (do '(pack_format, params) <-
       _parseParameters [PBytes [1; 2; 3]] [param 0 "uuid" "sl_bt_uuid_16_t"] ∅ ∅;
     struct_pack pack_format params) = Ok payload
    /\ length payload = Z.to_nat 2
    /\ (2 <= Z.of_nat (length [1; 2; 3]) -> payload = take (Z.to_nat 2) [1; 2; 3])
    /\ (Z.of_nat (length [1; 2; 3]) <= 2 ->
        payload = [1; 2; 3] ++ replicate (Z.to_nat 2 - length [1; 2; 3]) 0).
Proof.
  apply (opaque_value_padded (param 0 "uuid" "sl_bt_uuid_16_t") Fsl_bt_uuid_16_t 2
           [1; 2; 3] ∅ ∅); [reflexivity | reflexivity | lia].
Defined.

(** [parse_params] returns as many values as there are parameters. *)
Lemma parse_params_length doc (apiparams : list ApiParameter) (payload : list Z)
    enums defines (enumdefines : bool) (w : list warning) (params : list pyval) :
  parse_params doc apiparams payload enums defines enumdefines = (w, Ok params) ->
  length params = length apiparams.
Proof.
  unfold parse_params.
  destruct (scan_params doc apiparams payload 0 []) as [w0 [[fmt pos]|e]];
    [|discriminate].
  destruct (if (pos <? length payload)%nat
            then ([WarnExtra doc (length payload - pos)], take pos payload)
            else ([], payload)) as [w' payload'].
  intros H. injection H as _ H.
  destruct (struct_unpack fmt payload') as [vals|]; [|discriminate]. cbn [rbind] in H.
  destruct (mapM _ (zip (vals ++ _) apiparams)) as [cvals|] eqn:Hc; [|discriminate].
  cbn [rbind] in H.
  assert (Hlen : length cvals = length apiparams).
  { rewrite (mapM_length _ _ _ Hc), length_zip_with, length_app, length_replicate. lia. }
  destruct enumdefines.
  - rewrite (mapM_length _ _ _ H), length_zip_with. lia.
  - injection H as <-. exact Hlen.
Qed.

(** What [parse] returns: the header fields, a command for a message of
    type command and an event otherwise, and one value per parameter. *)
Lemma parse_result_shape (self : gmap Z ParsedApi) (header payload : list Z)
    (fromHost enumdefines : bool) (w : list warning) (node : apinode) (hf : hfields)
    (params : list pyval) :
  parse self header payload fromHost enumdefines = (w, Ok (node, hf, params)) ->
  parseHeader header = Ok hf
  /\ length params = length (api_vals_of node (negb fromHost))
  /\ (let '(cmdevt, _, _, _, _) := hf in
      if cmdevt =? MSG_COMMAND then exists c, node = NodeCommand c
      else exists e, node = NodeEvent e).
Proof.
  unfold parse, resolve.
  destruct (parseHeader header) as [[[[[cmdevt dev] len] ci] mi]|]; [|discriminate].
  cbn [rbind]. destruct (self !! dev) as [api|]; [|discriminate]. cbn [rbind].
  destruct (cmdevt =? MSG_COMMAND) eqn:Hkind.
  - destruct (getitem (api_classes api) (KInt ci)) as [cls|]; [|discriminate].
    cbn [rbind]. destruct (getitem (class_commands cls) (KInt mi)) as [c|]; [|discriminate].
    cbn [rbind]. destruct fromHost; cbn [rbind].
    + destruct (parse_params _ (cmd_params c) payload _ _ enumdefines) as [w' [ps|]] eqn:Hp;
        [|discriminate].
      cbn [rbind]. intros H. injection H as _ <- <- <-.
      split; [reflexivity|]. split; [|rewrite Hkind; eauto].
      exact (parse_params_length _ _ _ _ _ _ _ _ Hp).
    + destruct (parse_params _ (cmd_returns c) payload _ _ enumdefines) as [w' [ps|]] eqn:Hp;
        [|discriminate].
      cbn [rbind]. intros H. injection H as _ <- <- <-.
      split; [reflexivity|]. split; [|rewrite Hkind; eauto].
      exact (parse_params_length _ _ _ _ _ _ _ _ Hp).
  - destruct (getitem (api_classes api) (KInt ci)) as [cls|[]]; cbn [rbind];
      try discriminate.
    destruct (getitem (class_events cls) (KInt mi)) as [e|[]]; cbn [rbind];
      try discriminate.
    destruct (parse_params _ (evt_params e) payload _ _ enumdefines) as [w' [ps|]] eqn:Hp;
      [|discriminate].
    cbn [rbind]. intros H. injection H as _ <- <- <-.
    split; [reflexivity|]. split; [|rewrite Hkind; eauto].
    exact (parse_params_length _ _ _ _ _ _ _ _ Hp).
Qed.

(** X12. Whenever [parse] returns, with or without warnings, it returns
    the fields of the header, a command node for a message of type
    command and an event node otherwise, and exactly one value per
    declared parameter of the node (the return parameters for a response,
    the parameters otherwise), whatever the length of the payload. *)
Theorem parse_params_count (self : gmap Z ParsedApi) (header payload : list Z)
    (fromHost enumdefines : bool) (w : list warning) (node : apinode) (hf : hfields)
    (params : list pyval) :
  parse self header payload fromHost enumdefines = (w, Ok (node, hf, params)) ->
  parseHeader header = Ok hf
  /\ length params = length (api_vals_of node (negb fromHost))
  /\ (let '(cmdevt, _, _, _, _) := hf in
      if cmdevt =? MSG_COMMAND then exists c, node = NodeCommand c
      else exists e, node = NodeEvent e).
Proof. apply parse_result_shape. Qed.

Lemma parse_params_count_witness :
  parseHeader [0xa0; 1; 2; 0] = Ok (1, 4, 1, 2, 0)
  /\ length [PInt 0x12; PNone]
     = length (api_vals_of (NodeEvent (test_event "complex" 0 "multi_type_event"
                              [param 0 "value1" "uint8"; param 1 "value2" "uint16"]))
                           (negb false))
  /\ exists e, NodeEvent (test_event "complex" 0 "multi_type_event"
                            [param 0 "value1" "uint8"; param 1 "value2" "uint16"])
               = NodeEvent e.
Proof.
  apply (parse_params_count test_deser [0xa0; 1; 2; 0] [0x12] false true
           [WarnMissing "test_evt_complex_multi_type_event" ["value2"]]
           (NodeEvent (test_event "complex" 0 "multi_type_event"
                         [param 0 "value1" "uint8"; param 1 "value2" "uint16"]))
           (1, 4, 1, 2, 0) [PInt 0x12; PNone]).
  reflexivity.
Defined.

(** ** The API model: what the constructors file where *)

Lemma find_last_cons {A : Type} (P : A -> bool) (x : A) (l : list A) :
  find_last P (x :: l)
  = match find_last P l with
    | Some y => Some y
    | None => if P x then Some x else None
    end.
Proof.
  unfold find_last. cbn [rev]. generalize (rev l) as r. intros r.
  induction r as [|y r IH]; cbn [app find]; [reflexivity|].
  destruct (P y); [reflexivity | exact IH].
Qed.

Lemma find_last_unique {A : Type} (P : A -> bool) (l : list A) (e : A) :
  In e l -> P e = true -> (forall x, In x l -> P x = true -> x = e) ->
  find_last P l = Some e.
Proof.
  intros Hin HP Huniq. unfold find_last.
  destruct (find P (rev l)) as [x|] eqn:Hf.
  - apply find_some in Hf as [Hx HPx]. apply in_rev in Hx. f_equal. auto.
  - pose proof (find_none _ _ Hf e (proj1 (in_rev l e) Hin)) as Hn.
    rewrite HP in Hn. discriminate Hn.
Qed.

Lemma find_last_none {A : Type} (P : A -> bool) (l : list A) :
  (forall x, In x l -> P x = false) -> find_last P l = None.
Proof.
  intros H. unfold find_last. destruct (find P (rev l)) as [x|] eqn:Hf; [|reflexivity].
  apply find_some in Hf as [Hx HPx]. apply in_rev in Hx. rewrite (H x Hx) in HPx.
  discriminate.
Qed.

Lemma find_last_some {A : Type} (P : A -> bool) (l : list A) (e : A) :
  find_last P l = Some e -> In e l /\ P e = true.
Proof.
  unfold find_last. intros H. apply find_some in H as [Hx HP]. apply in_rev in Hx. auto.
Qed.

(** A dict filled entry by entry under name and index holds, under a key,
    the last entry filed under that key. *)
Lemma filed_lookup {V : Type} (name : V -> string) (index : V -> Z) (l : list V) :
  forall (acc : gmap pykey V) (key : pykey),
    fold_left (fun d e => <[KInt (index e) := e]> (<[KStr (name e) := e]> d)) l acc !! key
    = match find_last (filed_under name index key) l with
      | Some e => Some e
      | None => acc !! key
      end.
Proof.
  induction l as [|e l IH]; intros acc key; [reflexivity|].
  cbn [fold_left]. rewrite IH, find_last_cons.
  destruct (find_last (filed_under name index key) l); [reflexivity|].
  unfold filed_under. rewrite !lookup_insert.
  destruct (decide (KInt (index e) = key)) as [<-|Hi].
  - rewrite (bool_decide_eq_true_2 (KInt (index e) = KInt (index e))) by reflexivity.
    rewrite orb_true_r. reflexivity.
  - rewrite (bool_decide_eq_false_2 (key = KInt (index e))) by congruence.
    rewrite orb_false_r.
    destruct (decide (KStr (name e) = key)) as [<-|Hn].
    + rewrite bool_decide_eq_true_2 by reflexivity. reflexivity.
    + rewrite bool_decide_eq_false_2 by congruence. reflexivity.
Qed.

Lemma nodup_injective {A B : Type} (f : A -> B) (l : list A) (x y : A) :
  NoDup (map f l) -> In x l -> In y l -> f x = f y -> x = y.
Proof.
  induction l as [|a l IH]; intros Hnd Hx Hy Heq; [contradiction|].
  cbn [map] in Hnd. apply NoDup_cons in Hnd as [Ha Hnd].
  destruct Hx as [->|Hx], Hy as [->|Hy]; auto.
  - exfalso. apply Ha. rewrite Heq. apply list_elem_of_In, in_map. exact Hy.
  - exfalso. apply Ha. rewrite <- Heq. apply list_elem_of_In, in_map. exact Hx.
Qed.

(** With distinct names and distinct indices every entry is found under
    its name and under its index, and nothing else is in the dict. *)
Lemma filed_table {V : Type} (name : V -> string) (index : V -> Z) (l : list V) :
  let table : gmap pykey V :=
    fold_left (fun d e => <[KInt (index e) := e]> (<[KStr (name e) := e]> d)) l ∅ in
  (NoDup (map name l) -> NoDup (map index l) ->
   forall e, In e l ->
     table !! KStr (name e) = Some e /\ table !! KInt (index e) = Some e)
  /\ (forall key e, table !! key = Some e ->
        In e l /\ (key = KStr (name e) \/ key = KInt (index e))).
Proof.
  cbv zeta. split.
  - intros Hn Hi e He. rewrite !filed_lookup. split.
    + rewrite (find_last_unique _ l e); [reflexivity | exact He | |].
      * unfold filed_under. rewrite bool_decide_eq_true_2 by reflexivity. reflexivity.
      * intros x Hx HP. unfold filed_under in HP. apply orb_prop in HP as [HP|HP];
          apply bool_decide_eq_true_1 in HP; [|discriminate].
        injection HP as HP. symmetry in HP. exact (nodup_injective name l x e Hn Hx He HP).
    + rewrite (find_last_unique _ l e); [reflexivity | exact He | |].
      * unfold filed_under. rewrite (bool_decide_eq_true_2 (KInt _ = KInt _)) by reflexivity.
        apply orb_true_r.
      * intros x Hx HP. unfold filed_under in HP. apply orb_prop in HP as [HP|HP];
          apply bool_decide_eq_true_1 in HP; [discriminate|].
        injection HP as HP. symmetry in HP. exact (nodup_injective index l x e Hi Hx He HP).
  - intros key e H. rewrite filed_lookup in H.
    destruct (find_last (filed_under name index key) l) as [x|] eqn:Hf;
      [|rewrite lookup_empty in H; discriminate].
    injection H as ->. apply find_last_some in Hf as [He HP]. split; [exact He|].
    unfold filed_under in HP. apply orb_prop in HP as [HP|HP];
      apply bool_decide_eq_true_1 in HP; auto.
Qed.

(** A dict filled entry by entry under one key holds, under a key, what
    the last entry with that key put there. *)
Lemma keyed_lookup `{Countable K} {A V : Type} (k : A -> K) (v : A -> V) (l : list A) :
  forall (acc : gmap K V) (key : K),
    fold_left (fun d a => <[k a := v a]> d) l acc !! key
    = match find_last (fun a => bool_decide (key = k a)) l with
      | Some a => Some (v a)
      | None => acc !! key
      end.
Proof.
  induction l as [|a l IH]; intros acc key; [reflexivity|].
  cbn [fold_left]. rewrite IH, find_last_cons.
  destruct (find_last (fun a0 => bool_decide (key = k a0)) l); [reflexivity|].
  rewrite lookup_insert. destruct (decide (k a = key)) as [<-|Hk].
  - rewrite bool_decide_eq_true_2 by reflexivity. reflexivity.
  - rewrite bool_decide_eq_false_2 by congruence. reflexivity.
Qed.

Lemma keyed_table `{Countable K} {A V : Type} (k : A -> K) (v : A -> V) (l : list A) (a : A) :
  NoDup (map k l) -> In a l ->
  fold_left (fun d a => <[k a := v a]> d) l (∅ : gmap K V) !! k a = Some (v a).
Proof.
  intros Hnd Ha. rewrite keyed_lookup.
  rewrite (find_last_unique _ l a); [reflexivity | exact Ha | |].
  - apply bool_decide_eq_true_2. reflexivity.
  - intros x Hx HP. apply bool_decide_eq_true_1 in HP. symmetry in HP.
    exact (nodup_injective k l x a Hnd Hx Ha HP).
Qed.

Lemma Serializer_init_tables (apis : list ParsedApi) :
  ser_apis (Serializer_init apis)
  = fold_left (fun d a => <[api_device_id a := a]> d) apis ∅
  /\ ser_device_ids (Serializer_init apis)
     = fold_left (fun d a => <[api_device_name a := api_device_id a]> d) apis ∅.
Proof.
  unfold Serializer_init.
  set (F := fun self api =>
              {| ser_apis := <[api_device_id api := api]> (ser_apis self);
                 ser_device_ids :=
                   <[api_device_name api := api_device_id api]> (ser_device_ids self) |}).
  assert (G : forall s,
    ser_apis (fold_left F apis s)
    = fold_left (fun d a => <[api_device_id a := a]> d) apis (ser_apis s)
    /\ ser_device_ids (fold_left F apis s)
       = fold_left (fun d a => <[api_device_name a := api_device_id a]> d) apis
                   (ser_device_ids s)).
  { induction apis as [|a apis IH]; intros s; [split; reflexivity|].
    cbn [fold_left]. exact (IH (F s a)). }
  exact (G {| ser_apis := ∅; ser_device_ids := ∅ |}).
Qed.

(** X13. [ApiClass.__init__] and [ParsedApi.__init__] file every
    command, event and class under its name and under its index: when the
    names are distinct and the indices are distinct, each one is found
    under both keys, and whatever a key finds is an entry of the list
    that carries this key as its name or its index. *)
Theorem api_tables (device_id index : Z) (device_name name : string)
    (enums defines : list ApiEnum) (commands : list ApiCommand) (events : list ApiEvent)
    (classes : list ApiClass) :
  NoDup (map cmd_name commands) -> NoDup (map cmd_index commands) ->
  NoDup (map evt_name events) -> NoDup (map evt_index events) ->
  NoDup (map class_name classes) -> NoDup (map class_index classes) ->
  let cls := ApiClass_init index name enums defines commands events in
  let api := ParsedApi_init device_id device_name classes in
  (forall c, In c commands ->
     class_commands cls !! KStr (cmd_name c) = Some c
     /\ class_commands cls !! KInt (cmd_index c) = Some c)
  /\ (forall key c, class_commands cls !! key = Some c ->
        In c commands /\ (key = KStr (cmd_name c) \/ key = KInt (cmd_index c)))
  /\ (forall e, In e events ->
        class_events cls !! KStr (evt_name e) = Some e
        /\ class_events cls !! KInt (evt_index e) = Some e)
  /\ (forall key e, class_events cls !! key = Some e ->
        In e events /\ (key = KStr (evt_name e) \/ key = KInt (evt_index e)))
  /\ (forall c, In c classes ->
        api_classes api !! KStr (class_name c) = Some c
        /\ api_classes api !! KInt (class_index c) = Some c)
  /\ (forall key c, api_classes api !! key = Some c ->
        In c classes /\ (key = KStr (class_name c) \/ key = KInt (class_index c))).
Proof.
  intros Hcn Hci Hen Hei Hkn Hki cls api. subst cls api.
  unfold ApiClass_init, ParsedApi_init. cbn [class_commands class_events api_classes].
  destruct (filed_table cmd_name cmd_index commands) as [C1 C2].
  destruct (filed_table evt_name evt_index events) as [E1 E2].
  destruct (filed_table class_name class_index classes) as [K1 K2].
  split; [exact (C1 Hcn Hci)|]. split; [exact C2|].
  split; [exact (E1 Hen Hei)|]. split; [exact E2|].
  split; [exact (K1 Hkn Hki) | exact K2].
Qed.

Lemma api_tables_witness :
  class_commands class_complex !! KStr "peer" = Some cmd_peer
  /\ class_commands class_complex !! KInt 2 = Some cmd_peer.
Proof.
  refine (proj1 (api_tables 4 2 "test" "complex" [] []
                   [cmd_multi_type; cmd_address; cmd_peer]
                   [test_event "complex" 0 "multi_type_event"
                      [param 0 "value1" "uint8"; param 1 "value2" "uint16"]]
                   [class_simple; class_complex; class_valid]
                   _ _ _ _ _ _) cmd_peer _).
  - apply (bool_decide_unpack _). vm_compute. exact I.
  - apply (bool_decide_unpack _). vm_compute. exact I.
  - apply (bool_decide_unpack _). vm_compute. exact I.
  - apply (bool_decide_unpack _). vm_compute. exact I.
  - apply (bool_decide_unpack _). vm_compute. exact I.
  - apply (bool_decide_unpack _). vm_compute. exact I.
  - cbn [In]. right. right. left. reflexivity.
Defined.

(** X14. [Deserializer._convertEnumDefine] on an [enum] parameter whose
    group was built by [ApiEnum.__init__] from members of distinct
    values: the value of a member is rendered as the member's name, and
    an integer that is no member's value raises KeyError. *)
Theorem enum_value_rendered (apiparam : ApiParameter) (id name : string)
    (members : list ApiEnumVal) (enums : gmap string ApiEnum)
    (defines : gmap string ApiDefine) :
  validator_type apiparam = Some "enum" ->
  validator_id apiparam = Some id -> id <> "" ->
  enums !! id = Some (ApiEnum_init name members) ->
  NoDup (map ev_value members) ->
  (forall m, In m members ->
     Deserializer_convertEnumDefine apiparam (PInt (ev_value m)) enums defines
     = Ok (PStr (ev_name m)))
  /\ (forall z, ~ In z (map ev_value members) ->
        Deserializer_convertEnumDefine apiparam (PInt z) enums defines = Raise KeyError).
Proof.
  intros Hty Hid Hne Hgroup Hnd.
  assert (Hstep : forall z,
    Deserializer_convertEnumDefine apiparam (PInt z) enums defines
    = match find_last (filed_under ev_name ev_value (KInt z)) members with
      | Some m => Ok (PStr (ev_name m))
      | None => Raise KeyError
      end).
  { intros z. unfold Deserializer_convertEnumDefine. rewrite Hid, Hty.
    cbn [truthy attr_is]. destruct (String.eqb_spec id "") as [->|_]; [congruence|].
    cbn [negb]. change (String.eqb "enum" "enum") with true. cbv iota.
    unfold getitem at 1. rewrite Hgroup. cbn [rbind key_of].
    unfold getitem, ApiEnum_init. cbn [enum_items]. rewrite filed_lookup, lookup_empty.
    destruct (find_last _ members); reflexivity. }
  split.
  - intros m Hm. rewrite Hstep, (find_last_unique _ members m); [reflexivity | exact Hm | |].
    + unfold filed_under. rewrite (bool_decide_eq_true_2 (KInt _ = KInt _)) by reflexivity.
      apply orb_true_r.
    + intros x Hx HP. unfold filed_under in HP. apply orb_prop in HP as [HP|HP];
        apply bool_decide_eq_true_1 in HP; [discriminate|].
      injection HP as HP. symmetry in HP.
      exact (nodup_injective ev_value members x m Hnd Hx Hm HP).
  - intros z Hz. rewrite Hstep, find_last_none; [reflexivity|].
    intros x Hx. unfold filed_under.
    rewrite bool_decide_eq_false_2 by discriminate.
    rewrite bool_decide_eq_false_2; [reflexivity|].
    intros HP. injection HP as ->. apply Hz, in_map, Hx.
Qed.

Lemma enum_value_rendered_witness :
  Deserializer_convertEnumDefine param_mode (PInt 1)
    (class_enums class_valid) (class_defines class_valid) = Ok (PStr "on")
  /\ Deserializer_convertEnumDefine param_mode (PInt 2)
       (class_enums class_valid) (class_defines class_valid) = Raise KeyError.
Proof.
  destruct (enum_value_rendered param_mode "mode" "mode"
              [ {| ev_name := "off"; ev_value := 0 |}; {| ev_name := "on"; ev_value := 1 |} ]
              (class_enums class_valid) (class_defines class_valid))
    as [Hin Hout].
  - reflexivity.
  - reflexivity.
  - discriminate.
  - reflexivity.
  - apply (bool_decide_unpack _). vm_compute. exact I.
  - split.
    + apply (Hin {| ev_name := "on"; ev_value := 1 |}). cbn [In]. right. left. reflexivity.
    + apply (Hout 2). cbn [map In ev_value]. lia.
Defined.

(** X15. A command of an API loaded by [Serializer.__init__] is
    serialised to the same bytes whether [Serializer.command] is given
    the device name, the class name and the command name or the device
    id, the class index and the command index, as long as the devices,
    the classes of the device and the commands of the class have distinct
    names and distinct indices. *)
Theorem command_by_name_or_index (apis : list ParsedApi) (device_id index : Z)
    (device_name name : string) (classes : list ApiClass)
    (enums defines : list ApiEnum) (commands : list ApiCommand) (events : list ApiEvent)
    (c : ApiCommand) (args : list pyval) :
  let cls := ApiClass_init index name enums defines commands events in
  let api := ParsedApi_init device_id device_name classes in
  NoDup (map api_device_id apis) -> NoDup (map api_device_name apis) -> In api apis ->
  NoDup (map class_name classes) -> NoDup (map class_index classes) -> In cls classes ->
  NoDup (map cmd_name commands) -> NoDup (map cmd_index commands) -> In c commands ->
  command (Serializer_init apis) (DevName device_name) (KStr name) (KStr (cmd_name c)) args
  = command (Serializer_init apis) (DevId device_id) (KInt index) (KInt (cmd_index c)) args.
Proof.
  intros cls api Hai Han Ha Hkn Hki Hk Hcn Hci Hc.
  destruct (Serializer_init_tables apis) as [Tapis Tids].
  assert (Hdev : ser_device_ids (Serializer_init apis) !! device_name = Some device_id).
  { rewrite Tids.
    exact (keyed_table api_device_name api_device_id apis api Han Ha). }
  assert (Hapi : ser_apis (Serializer_init apis) !! device_id = Some api).
  { rewrite Tapis.
    exact (keyed_table api_device_id (fun a => a) apis api Hai Ha). }
  destruct (filed_table class_name class_index classes) as [K _].
  destruct (K Hkn Hki cls Hk) as [Kname Kindex].
  destruct (filed_table cmd_name cmd_index commands) as [C _].
  destruct (C Hcn Hci c Hc) as [Cname Cindex].
  rewrite (command_resolved _ _ _ _ device_id cls c).
  2:{ split; [exact Hdev|]. split; [exists api; split; [exact Hapi | exact Kname]|].
      exact Cname. }
  rewrite (command_resolved _ (DevId device_id) _ _ device_id cls c).
  2:{ split; [reflexivity|]. split; [exists api; split; [exact Hapi | exact Kindex]|].
      exact Cindex. }
  reflexivity.
Qed.

Lemma command_by_name_or_index_witness :
  command test_ser (DevName "test") (KStr "complex") (KStr "peer")
          [PInt 7; PStr "01:02:03:04:05:06"]
  = command test_ser (DevId 4) (KInt 2) (KInt 2) [PInt 7; PStr "01:02:03:04:05:06"].
Proof.
  apply (command_by_name_or_index [test_api] 4 2 "test" "complex"
           [class_simple; class_complex; class_valid] [] []
           [cmd_multi_type; cmd_address; cmd_peer]
           [test_event "complex" 0 "multi_type_event"
              [param 0 "value1" "uint8"; param 1 "value2" "uint16"]]
           cmd_peer).
  - apply (bool_decide_unpack _). vm_compute. exact I.
  - apply (bool_decide_unpack _). vm_compute. exact I.
  - cbn [In]. left. reflexivity.
  - apply (bool_decide_unpack _). vm_compute. exact I.
  - apply (bool_decide_unpack _). vm_compute. exact I.
  - cbn [In]. right. left. reflexivity.
  - apply (bool_decide_unpack _). vm_compute. exact I.
  - apply (bool_decide_unpack _). vm_compute. exact I.
  - cbn [In]. right. right. left. reflexivity.
Defined.

(** ** Messages and the command facade *)

Lemma names_of_values_short (api_vals : list ApiParameter) (n k : nat) :
  (k <= length api_vals < k + n)%nat ->
  mapM (fun i => match api_vals !! i with
                 | Some p => Ok (param_name p)
                 | None => Raise IndexError
                 end) (seq k n)
  = Raise IndexError.
Proof.
  revert k. induction n as [|n IH]; intros k Hk; [lia|].
  cbn [seq mapM].
  destruct (api_vals !! k) as [p|] eqn:Hp; [|reflexivity].
  apply lookup_lt_Some in Hp. cbn [rbind]. rewrite IH by lia. reflexivity.
Qed.

(** What [BGMsg.__new__] builds, and when it fails. *)
Lemma BGMsg_new_spec (node : apinode) (values : list pyval) (is_response : bool) :
  let api_vals := api_vals_of node is_response in
  ((length api_vals < length values)%nat ->
   BGMsg_new node values is_response = Raise IndexError)
  /\ ((length values <= length api_vals)%nat ->
      exists m,
        BGMsg_new node values is_response = Ok m
        /\ msg_apinode m = node
        /\ msg_values m = values
        /\ msg_fields m = map param_name (take (length values) api_vals)
        /\ (NoDup (msg_fields m) ->
            forall i p v, api_vals !! i = Some p -> values !! i = Some v ->
                          msg_getattr m (param_name p) = Ok v)).
Proof.
  cbv zeta. split.
  - intros Hlong. unfold BGMsg_new. fold (api_vals_of node is_response).
    rewrite names_of_values_short by lia. reflexivity.
  - intros Hshort. unfold BGMsg_new. fold (api_vals_of node is_response).
    rewrite (names_of_values _ (length values) 0) by lia. cbn [rbind drop].
    eexists. split; [reflexivity|]. cbn [msg_apinode msg_values msg_fields].
    split; [reflexivity|]. split; [reflexivity|]. split; [reflexivity|].
    intros Hnd i p v Hp Hv.
    apply (getattr_at _ (map param_name (take (length values) (api_vals_of node is_response)))
                      values i);
      [reflexivity | exact Hnd | rewrite length_map, length_take; lia | | exact Hv].
    rewrite list_lookup_fmap, lookup_take_lt, Hp; [reflexivity|].
    apply lookup_lt_Some in Hv. exact Hv.
Qed.



Lemma BGCommand_names (apicmd : ApiCommand) (args : list pyval) (cmd : BGMsg) :
  BGCommand apicmd args = Ok cmd ->
  _device_name cmd = cmd_device_name apicmd
  /\ _class_name cmd = cmd_class_name apicmd
  /\ _msg_name cmd = cmd_name apicmd
  /\ msg_values cmd = args.
Proof.
  unfold BGCommand, BGMsg_new. intros H.
  destruct (mapM _ (seq 0 (length args))) as [names|]; [|discriminate].
  injection H as <-. repeat split.
Qed.







(** ** The reader thread of the connection handler *)

Lemma parseHeader_four (b0 b1 b2 b3 : Z) :
  parseHeader [b0; b1; b2; b3]
  = Ok (Z.shiftr (Z.land b0 0x80) 7,
        Z.shiftr (Z.land b0 0x78) 3,
        Z.lor (Z.shiftl (Z.land b0 0x7) 8) b1,
        b2,
        b3).
Proof. reflexivity. Qed.

(** More iterations than there are bytes change nothing. *)
Lemma handler_run_fuel (ser : Serializer) (deser : gmap Z ParsedApi) (waiting : bool)
    (fuel1 : nat) :
  forall (fuel2 : nat) (input : list Z),
    (length input < fuel1)%nat -> (length input < fuel2)%nat ->
    handler_run fuel1 ser deser waiting input = handler_run fuel2 ser deser waiting input.
Proof.
  induction fuel1 as [|fuel1 IH]; intros fuel2 input H1 H2; [lia|].
  destruct fuel2 as [|fuel2]; [lia|].
  cbn [handler_run]. unfold _read.
  destruct (Nat.leb_spec 1 (length input)) as [Hle|]; [|reflexivity].
  destruct (getbyte (take 1 input) 0) as [b0|]; [|reflexivity].
  assert (Hdrop : forall k, (length (drop k (drop 1 input)) < fuel1)%nat
                            /\ (length (drop k (drop 1 input)) < fuel2)%nat).
  { intros k. rewrite !length_drop. lia. }
  destruct (ser_apis ser !! Z.shiftr (Z.land b0 120) 3).
  2:{ apply IH; rewrite length_drop; lia. }
  destruct (HEADER_LENGTH - 1 <=? length (drop 1 input))%nat; [|reflexivity].
  destruct (parseHeader _) as [[[[[cmdevt dev] len] ci] mi]|]; [|reflexivity].
  destruct (Z.to_nat len <=? _)%nat; [|reflexivity].
  destruct (parse deser _ _ false true) as [w [[[node hf] params]|]]; [|reflexivity].
  match goal with
  | |- match ?item with _ => _ end = _ => destruct item; [|reflexivity]
  end.
  rewrite (IH fuel2 (drop (Z.to_nat len) (drop (HEADER_LENGTH - 1) (drop 1 input))));
    [reflexivity | |].
  - rewrite drop_drop. apply Hdrop.
  - rewrite drop_drop. apply Hdrop.
Qed.

Lemma handler_reader_fuel (ser : Serializer) (deser : gmap Z ParsedApi) (waiting : bool)
    (fuel : nat) (input : list Z) :
  (length input < fuel)%nat ->
  handler_run fuel ser deser waiting input = handler_reader ser deser waiting input.
Proof. intros H. apply handler_run_fuel; [exact H | lia]. Qed.

Lemma handler_run_skip (ser : Serializer) (deser : gmap Z ParsedApi) (waiting : bool)
    (fuel : nat) (b : Z) (input : list Z) :
  ser_apis ser !! Z.shiftr (Z.land b 0x78) 3 = None ->
  handler_run (S fuel) ser deser waiting (b :: input)
  = handler_run fuel ser deser waiting input.
Proof.
  intros Hb. cbn [handler_run].
  change (_read 1 (b :: input)) with (Some ([b], input)).
  cbv iota beta. change (getbyte [b] 0) with (Ok b). cbv iota beta zeta.
  rewrite Hb. reflexivity.
Qed.

(** X20. The reader thread of the connection handler skips every byte
    that, read as the first byte of a header, names a device no loaded
    API describes: such bytes in front of the input change nothing. *)
Theorem handler_skips_unknown_device (ser : Serializer) (deser : gmap Z ParsedApi)
    (waiting : bool) (junk rest : list Z) :
  Forall (fun b => ser_apis ser !! Z.shiftr (Z.land b 0x78) 3 = None) junk ->
  handler_reader ser deser waiting (junk ++ rest) = handler_reader ser deser waiting rest.
Proof.
  induction 1 as [|b junk Hb _ IH]; [reflexivity|].
  rewrite <- IH. unfold handler_reader at 1. cbn [app length].
  rewrite (handler_run_skip _ _ _ _ _ _ Hb). apply handler_reader_fuel. lia.
Qed.

Lemma handler_skips_unknown_device_witness :
  handler_reader test_ser test_deser false ([0x00; 0xff; 0x5a] ++ [0xa0; 0; 1; 0])
  = handler_reader test_ser test_deser false [0xa0; 0; 1; 0].
Proof.
  apply (handler_skips_unknown_device test_ser test_deser false [0x00; 0xff; 0x5a]).
  repeat (constructor; [reflexivity|]). constructor.
Defined.

(** One turn of the loop over a whole message of a loaded device. *)
Lemma handler_run_frame (ser : Serializer) (deser : gmap Z ParsedApi) (waiting : bool)
    (fuel : nat) (header payload rest : list Z) (cmdevt dev len ci mi : Z)
    (api : ParsedApi) :
  length header = 4%nat ->
  parseHeader header = Ok (cmdevt, dev, len, ci, mi) ->
  ser_apis ser !! dev = Some api ->
  length payload = Z.to_nat len ->
  handler_run (S fuel) ser deser waiting (header ++ payload ++ rest)
  = let '(w, r) := parse deser header payload false true in
    match r with
    | Raise e => (map Logged w, Some e)
    | Ok (apicmdevt, headers, params) =>
        match (if cmdevt =? MSG_COMMAND then
                 if waiting
                 then Ok (ResponsePut (apicmdevt, headers, params))
                 else do response <- BGResponse apicmdevt params;
                      Ok (ResponseUnexpected response)
               else do evt <- BGEvent apicmdevt params;
                    Ok (EventHandled evt)) with
        | Raise e => (map Logged w, Some e)
        | Ok d =>
            let '(ds, e) := handler_run fuel ser deser waiting rest in
            (map Logged w ++ d :: ds, e)
        end
    end.
Proof.
  intros Hh Hp Hdev Hlen.
  destruct header as [|b0 [|b1 [|b2 [|b3 [|]]]]]; try discriminate Hh.
  pose proof Hp as Hp'. rewrite parseHeader_four in Hp'.
  injection Hp' as Hcmdevt Hd Hl Hci Hmi.
  cbn [handler_run].
  change (_read 1 ([b0; b1; b2; b3] ++ payload ++ rest))
    with (Some ([b0], [b1; b2; b3] ++ payload ++ rest)).
  cbv iota beta. change (getbyte [b0] 0) with (Ok b0). cbv iota beta zeta.
  rewrite Hd, Hdev.
  change (_read (HEADER_LENGTH - 1) ([b1; b2; b3] ++ payload ++ rest))
    with (Some ([b1; b2; b3], payload ++ rest)).
  cbv iota beta. change ([b0] ++ [b1; b2; b3]) with [b0; b1; b2; b3].
  rewrite Hp. rewrite (read_app _ payload rest Hlen). reflexivity.
Qed.



(** X22. An exception of [parse] ends the reader thread: for a whole
    message of a loaded device that [parse] rejects (an unknown class or
    message index, a payload [struct.unpack] refuses, ...) the loop stops
    with that exception after the warnings logged so far, and the bytes
    behind the message are never read. *)
Theorem handler_stops_on_error (ser : Serializer) (deser : gmap Z ParsedApi)
    (waiting : bool) (header payload rest : list Z) (cmdevt dev len ci mi : Z)
    (api : ParsedApi) (w : list warning) (e : exn) :
  length header = 4%nat ->
  parseHeader header = Ok (cmdevt, dev, len, ci, mi) ->
  ser_apis ser !! dev = Some api ->
  length payload = Z.to_nat len ->
  parse deser header payload false true = (w, Raise e) ->
  handler_reader ser deser waiting (header ++ payload ++ rest) = (map Logged w, Some e).
Proof.
  intros Hh Hp Hdev Hlen Hparse. unfold handler_reader.
  rewrite (handler_run_frame _ _ _ _ _ _ _ _ _ _ _ _ _ Hh Hp Hdev Hlen), Hparse.
  reflexivity.
Qed.

Lemma handler_stops_on_error_witness :
  handler_reader test_ser test_deser true
    ([0xa0; 0; 9; 0] ++ [] ++ [0xa0; 0; 1; 0])
  = (map Logged [], Some (DeserializerEventMissingError 9 0)).
Proof.
  apply (handler_stops_on_error test_ser test_deser true [0xa0; 0; 9; 0] [] [0xa0; 0; 1; 0]
           1 4 0 9 0 test_api [] (DeserializerEventMissingError 9 0)); reflexivity.
Defined.

(** ** The frame a command is serialised to *)

Lemma struct_pack_size (fmt : list code) :
  forall (vals : list pyval) (bytes : list Z) (n : nat),
    struct_pack fmt vals = Ok bytes -> calcsize fmt = Ok n -> length bytes = n.
Proof.
  induction fmt as [|c fmt IH]; intros vals bytes n Hp Hn.
  - cbn [struct_pack] in Hp. destruct vals; [|discriminate].
    injection Hp as <-. injection Hn as <-. reflexivity.
  - apply calcsize_inv in Hn as (a & b & Ha & Hb & ->).
    assert (Hcons : forall v vals' , vals = v :: vals' ->
              (do x <- pack_one c v; do xs <- struct_pack fmt vals'; Ok (x ++ xs)) = Ok bytes ->
              length bytes = (a + b)%nat).
    { intros v vals' _ H. apply rbind_Ok_inv in H as (x & Hx & H).
      apply rbind_Ok_inv in H as (xs & Hxs & H). injection H as <-.
      apply pack_one_size in Hx. rewrite Ha in Hx. injection Hx as ->.
      rewrite length_app, (IH _ _ _ Hxs Hb). reflexivity. }
    destruct c; cbn [struct_pack] in Hp;
      try (destruct vals as [|v vals']; [discriminate | exact (Hcons v vals' eq_refl Hp)]).
    apply rbind_Ok_inv in Hp as (xs & Hxs & H). injection H as <-.
    injection Ha as <-. cbn [length]. rewrite (IH _ _ _ Hxs Hb). reflexivity.
Qed.

Lemma pack_byte_inv (z : Z) (bytes : list Z) :
  pack_one CB (PInt z) = Ok bytes -> 0 <= z < 256.
Proof.
  unfold pack_one, pack_int. cbn [code_size rbind code_signed]. cbv zeta.
  change (int_modulus 1) with 256.
  destruct (Z.leb_spec 0 z); [|discriminate]. destruct (Z.ltb_spec z 256); [|discriminate].
  lia.
Qed.

(** [make_header] returns only when the class and the command index are
    bytes. *)
Lemma make_header_inv (msg_type device_id class_id command_id payload_len : Z)
    (header : list Z) :
  make_header msg_type device_id class_id command_id payload_len = Ok header ->
  0 <= class_id < 256 /\ 0 <= command_id < 256.
Proof.
  unfold make_header. cbv zeta. cbn [HEADER_LENGTH replicate map struct_pack].
  intros H.
  apply rbind_Ok_inv in H as (x0 & _ & H). apply rbind_Ok_inv in H as (r0 & H & _).
  apply rbind_Ok_inv in H as (x1 & _ & H). apply rbind_Ok_inv in H as (r1 & H & _).
  apply rbind_Ok_inv in H as (x2 & H2 & H). apply rbind_Ok_inv in H as (r2 & H & _).
  apply rbind_Ok_inv in H as (x3 & H3 & _).
  split; [exact (pack_byte_inv _ _ H2) | exact (pack_byte_inv _ _ H3)].
Qed.

(** X23. What [Serializer.command] returns for a device id below 16 is a
    header of four bytes followed by the payload, and, as long as the
    payload has at most 2047 bytes, [parseHeader] reads from this header
    the message type command, the device id, the number of payload bytes
    that follow, and the indices of the class and the command. *)
Theorem command_frame (self : Serializer) (device_id : devref)
    (class_name command_name : pykey) (dev : Z) (apiclass : ApiClass)
    (apicommand : ApiCommand) (args : list pyval) (data : list Z) :
  resolved self device_id class_name command_name dev apiclass apicommand ->
  command self device_id class_name command_name args = Ok data ->
  0 <= dev < 16 ->
  exists header payload,
    data = header ++ payload
    /\ length header = HEADER_LENGTH
    /\ ((length payload <= 2047)%nat ->
        parseHeader header
        = Ok (MSG_COMMAND, dev, Z.of_nat (length payload),
              class_index apiclass, cmd_index apicommand)).
Proof.
  intros Hres Hdata Hdev. rewrite (command_resolved _ _ _ _ _ _ _ _ Hres) in Hdata.
  apply rbind_Ok_inv in Hdata as ([pack_format params] & _ & Hdata).
  apply rbind_Ok_inv in Hdata as (n & Hn & Hdata).
  apply rbind_Ok_inv in Hdata as (header & Hh & Hdata).
  apply rbind_Ok_inv in Hdata as (payload & Hp & Hdata). injection Hdata as <-.
  pose proof (struct_pack_size _ _ _ _ Hp Hn) as Hlen. subst n.
  destruct (make_header_inv _ _ _ _ _ _ Hh) as [Hc Hk].
  exists header, payload. split; [reflexivity|].
  assert (Hfour : length header = HEADER_LENGTH).
  { exact (struct_pack_size _ _ _ _ Hh eq_refl). }
  split; [exact Hfour|]. intros Hshort.
  destruct (header_fields_roundtrip MSG_COMMAND dev (class_index apiclass)
              (cmd_index apicommand) (Z.of_nat (length payload)))
    as (h & Hh' & _ & Hparse); try (unfold MSG_COMMAND; lia).
  rewrite Hh in Hh'. injection Hh' as <-. exact Hparse.
Qed.

Lemma command_frame_witness :
  exists header payload,
    [0x20; 7; 2; 2; 7; 6; 5; 4; 3; 2; 1] = header ++ payload
    /\ length header = HEADER_LENGTH
    /\ ((length payload <= 2047)%nat ->
        parseHeader header = Ok (MSG_COMMAND, 4, Z.of_nat (length payload), 2, 2)).
Proof.
  apply (command_frame test_ser (DevName "test") (KStr "complex") (KStr "peer")
           4 class_complex cmd_peer [PInt 7; PStr "01:02:03:04:05:06"]).
  - split; [reflexivity|]. split; [exists test_api; split; reflexivity | reflexivity].
  - reflexivity.
  - lia.
Defined.

(** ** What the payload CRC detects *)

Lemma xor_byte (a b : Z) : is_byte a -> is_byte b -> is_byte (Z.lxor a b).
Proof.
  intros Ha Hb. apply is_byteb_spec.
  assert (H : forallb (fun a => forallb (fun b => is_byteb (Z.lxor a b)) (zrange 256))
                      (zrange 256) = true) by (vm_compute; reflexivity).
  unfold is_byte in Ha, Hb.
  pose proof (zrange_forallb _ _ H a ltac:(lia)) as H1. cbv beta in H1.
  exact (zrange_forallb _ _ H1 b ltac:(lia)).
Qed.

Lemma xor_cancel (c a b : Z) : Z.lxor c a = Z.lxor c b -> a = b.
Proof.
  intros H. rewrite <- (Z.lxor_0_l a), <- (Z.lxor_0_l b), <- (Z.lxor_nilpotent c).
  rewrite !Z.lxor_assoc, H. reflexivity.
Qed.

Lemma crc8_register (x : Z) :
  is_byte x ->
  Nat.iter 8 crc8_bit (Z.shiftl x 8) = Z.shiftl (crc8_next 0 x) 8
  /\ is_byte (crc8_next 0 x).
Proof.
  intros Hx.
  assert (H : forallb crc8_register_check (zrange 256) = true) by (vm_compute; reflexivity).
  unfold is_byte in Hx.
  pose proof (zrange_forallb _ _ H x ltac:(lia)) as H1.
  unfold crc8_register_check in H1. cbv zeta in H1. apply andb_prop in H1 as [H1 H2].
  unfold crc8_next. rewrite Z.lxor_0_l. split; [lia | exact (is_byteb_spec _ H2)].
Qed.

Lemma crc8_next_injective (x y : Z) :
  is_byte x -> is_byte y -> crc8_next 0 x = crc8_next 0 y -> x = y.
Proof.
  intros Hx Hy Heq.
  assert (H : forallb (fun x => forallb (crc8_injective_check x) (zrange 256))
                      (zrange 256) = true) by (vm_compute; reflexivity).
  unfold is_byte in Hx, Hy.
  pose proof (zrange_forallb _ _ H x ltac:(lia)) as H1. cbv beta in H1.
  pose proof (zrange_forallb _ _ H1 y ltac:(lia)) as H2.
  unfold crc8_injective_check in H2. rewrite Heq, Z.eqb_refl in H2. cbn [negb orb] in H2.
  lia.
Qed.

Lemma crc8_next_xor (c b : Z) : crc8_next c b = crc8_next 0 (Z.lxor c b).
Proof. unfold crc8_next. rewrite Z.lxor_0_l. reflexivity. Qed.

(** The register of [crc8] holds a byte in its upper half between two
    bytes of the data. *)
Lemma crc8_fold (data : list Z) :
  forall c, is_byte c -> Forall is_byte data ->
    fold_left (fun crc byte => Nat.iter 8 crc8_bit (Z.lxor crc (Z.shiftl byte 8)))
              data (Z.shiftl c 8)
    = Z.shiftl (fold_left crc8_next data c) 8
    /\ is_byte (fold_left crc8_next data c).
Proof.
  induction data as [|b data IH]; intros c Hc Hdata; [split; [reflexivity | exact Hc]|].
  apply Forall_cons in Hdata as [Hb Hdata]. cbn [fold_left].
  rewrite <- Z.shiftl_lxor.
  destruct (crc8_register (Z.lxor c b) (xor_byte c b Hc Hb)) as [Hreg Hbyte].
  rewrite Hreg, <- crc8_next_xor. rewrite <- crc8_next_xor in Hbyte.
  exact (IH _ Hbyte Hdata).
Qed.

Lemma crc8_value (data : list Z) :
  Forall is_byte data -> crc8 data = fold_left crc8_next data 0.
Proof.
  intros Hdata. unfold crc8. cbv zeta.
  destruct (crc8_fold data 0 ltac:(unfold is_byte; lia) Hdata) as [Hfold Hbyte].
  change (Z.shiftl 0 8) with 0 in Hfold. rewrite Hfold.
  rewrite Z.shiftr_shiftl_l by lia. change (8 - 8) with 0. rewrite Z.shiftl_0_r.
  change 255 with (Z.ones 8). rewrite Z.land_ones by lia.
  unfold is_byte in Hbyte. apply Z.mod_small. lia.
Qed.

Lemma crc8_next_differs (data : list Z) :
  forall c c', is_byte c -> is_byte c' -> Forall is_byte data -> c <> c' ->
    fold_left crc8_next data c <> fold_left crc8_next data c'.
Proof.
  induction data as [|b data IH]; intros c c' Hc Hc' Hdata Hne; [exact Hne|].
  apply Forall_cons in Hdata as [Hb Hdata]. cbn [fold_left].
  pose proof (xor_byte c b Hc Hb) as Hx. pose proof (xor_byte c' b Hc' Hb) as Hx'.
  apply IH; try assumption.
  - rewrite crc8_next_xor. exact (proj2 (crc8_register _ Hx)).
  - rewrite crc8_next_xor. exact (proj2 (crc8_register _ Hx')).
  - rewrite (crc8_next_xor c), (crc8_next_xor c'). intros Heq.
    apply (crc8_next_injective _ _ Hx Hx') in Heq.
    rewrite (Z.lxor_comm c), (Z.lxor_comm c') in Heq. apply xor_cancel in Heq.
    contradiction.
Qed.

(** X24. The payload CRC tells any two payloads apart that differ in one
    byte, and so a frame written by [pack] in which one payload byte was
    changed on the way is dropped by the reader, which goes on with the
    bytes after the frame. *)
Theorem reader_drops_corrupted_byte (front back : list Z) (b b' : Z) :
  Forall is_byte front -> Forall is_byte back -> is_byte b -> is_byte b' -> b <> b' ->
  Z.of_nat (length (front ++ b :: back)) <= MAX_PAYLOAD_LENGTH ->
  crc8 (front ++ b :: back) <> crc8 (front ++ b' :: back)
  /\ exists b1 b2,
       pack (front ++ b :: back) true
       = Ok ([PREAMBLE_BYTE; b1; b2] ++ (front ++ b :: back) ++ [crc8 (front ++ b :: back)])
       /\ forall rest,
            reader ([PREAMBLE_BYTE; b1; b2] ++ (front ++ b' :: back)
                    ++ [crc8 (front ++ b :: back)] ++ rest)
            = reader rest.
Proof.
  intros Hfront Hback Hb Hb' Hne Hlen.
  assert (Hcrc : crc8 (front ++ b :: back) <> crc8 (front ++ b' :: back)).
  { rewrite !crc8_value
      by (apply Forall_app; split; [assumption | apply Forall_cons; split; assumption]).
    rewrite !fold_left_app. cbn [fold_left].
    destruct (crc8_fold front 0 ltac:(unfold is_byte; lia) Hfront) as [_ Hc].
    set (c := fold_left crc8_next front 0) in *.
    pose proof (xor_byte c b Hc Hb) as Hx. pose proof (xor_byte c b' Hc Hb') as Hx'.
    apply crc8_next_differs; try assumption.
    - rewrite crc8_next_xor. exact (proj2 (crc8_register _ Hx)).
    - rewrite crc8_next_xor. exact (proj2 (crc8_register _ Hx')).
    - rewrite (crc8_next_xor c b), (crc8_next_xor c b'). intros Heq.
      apply (crc8_next_injective _ _ Hx Hx') in Heq. apply xor_cancel in Heq.
      contradiction. }
  split; [exact Hcrc|].
  destruct (pack_header (front ++ b :: back) true Hlen)
    as (b1 & b2 & Hpack & Hcrc4 & Hsize & Hflag).
  exists b1, b2. split; [exact Hpack|].
  intros rest. unfold reader.
  assert (Hsize' : Z.lor b1 (Z.shiftl (Z.land b2 PAYLOAD_LENGTH_MASK) 3)
                   = Z.of_nat (length (front ++ b' :: back))).
  { rewrite Hsize, !length_app. reflexivity. }
  rewrite (run_drop _ _ rest (front ++ b' :: back) b1 b2 (crc8 (front ++ b :: back))
                    eq_refl Hcrc4 Hsize' Hflag Hcrc).
  apply run_fuel; [cbn; lia | | lia].
  cbn [app length]. rewrite !length_app. cbn [length]. lia.
Qed.

Lemma reader_drops_corrupted_byte_witness :
  crc8 ([104; 101] ++ 108 :: [108; 111]) <> crc8 ([104; 101] ++ 76 :: [108; 111])
  /\ exists b1 b2,
       pack ([104; 101] ++ 108 :: [108; 111]) true
       = Ok ([PREAMBLE_BYTE; b1; b2] ++ ([104; 101] ++ 108 :: [108; 111])
             ++ [crc8 ([104; 101] ++ 108 :: [108; 111])])
       /\ forall rest,
            reader ([PREAMBLE_BYTE; b1; b2] ++ ([104; 101] ++ 76 :: [108; 111])
                    ++ [crc8 ([104; 101] ++ 108 :: [108; 111])] ++ rest)
            = reader rest.
Proof.
  apply (reader_drops_corrupted_byte [104; 101] [108; 111] 108 76).
  - repeat (constructor; [unfold is_byte; lia|]). constructor.
  - repeat (constructor; [unfold is_byte; lia|]). constructor.
  - unfold is_byte; lia.
  - unfold is_byte; lia.
  - lia.
  - vm_compute. discriminate.
Defined.

(** ** Parameters of a format the codec does not know *)

Lemma lookup_format_unknown (tag : string) :
  ~ In tag (map fst format_table) -> lookup_format tag = Raise KeyError.
Proof.
  unfold lookup_format. generalize format_table as table.
  induction table as [|[k f] table IH]; intros Hout; [reflexivity|].
  cbn [find fst]. destruct (String.eqb_spec k tag) as [->|_].
  - exfalso. apply Hout. left. reflexivity.
  - apply IH. intros Hin. apply Hout. right. exact Hin.
Qed.

(** X25. A message whose first parameter has a format that is none of
    the recognised tags can be neither sent nor received: the serializer
    raises KeyError for any arguments of the right number, and [parse]
    raises KeyError for every payload, the empty one included. *)
Theorem unknown_format_rejected (p : ApiParameter) (ps : list ApiParameter)
    (enums : gmap string ApiEnum) (defines : gmap string ApiDefine) :
  ~ In (param_format p) (map fst format_table) ->
  (forall v vs, length vs = length ps ->
     _parseParameters (v :: vs) (p :: ps) enums defines = Raise KeyError)
  /\ (forall self header payload fromHost enumdefines hf node cls doc,
        resolve self header fromHost = Ok (hf, node, p :: ps, cls, doc) ->
        snd (parse self header payload fromHost enumdefines) = Raise KeyError).
Proof.
  intros Hout. pose proof (lookup_format_unknown _ Hout) as Hfmt. split.
  - intros v vs Hlen. unfold _parseParameters. cbn [length]. rewrite Hlen, Nat.eqb_refl.
    cbn [negb zip zip_with mapM]. rewrite Hfmt. reflexivity.
  - intros self header payload fromHost enumdefines hf node cls doc Hres.
    unfold parse. rewrite Hres. unfold parse_params. cbn [scan_params].
    destruct (Nat.leb_spec (length payload) 0) as [Hempty|Hsome].
    + destruct payload; [|cbn [length] in Hempty; lia].
      cbn [length Nat.ltb Nat.leb app struct_unpack calcsize rbind Nat.eqb unpack_items
           Nat.sub replicate zip zip_with mapM snd].
      rewrite Hfmt. reflexivity.
    + rewrite Hfmt. reflexivity.
Qed.

Lemma unknown_format_rejected_witness :
  _parseParameters [PInt 1; PInt 2] [param 0 "ratio" "float"; param 1 "count" "uint8"] ∅ ∅
  = Raise KeyError.
Proof.
  apply (proj1 (unknown_format_rejected (param 0 "ratio" "float") [param 1 "count" "uint8"]
                  ∅ ∅ ltac:(vm_compute; intuition discriminate))).
  reflexivity.
Defined.
